(** * Book Management API: a shallow embedding of the Express server

    The server keeps an in-memory array [books] and a counter [nextId],
    validates request bodies with an express-validator chain, and serves
    six routes under [/api/books] plus a health check.

    Conventions of the model.
    - A JavaScript string is a sequence of UTF-16 code units.  The model
      uses Rocq's [string], one character per code unit, which covers the
      code units below 256 (Latin-1); [toLowerCase], [trim] and the
      whitespace class are written out for that range.
    - A JavaScript number holding an integer is a [Z]; [NaN] is [None].
      Numbers are exact on integers up to 2^53: the model agrees with
      the server as long as the id counter stays below that bound (an id
      segment whose digits exceed it is rounded by [parseInt] to a number
      no record can have, and is read exactly here, to the same effect).
    - [new Date()] reads the system clock.  The clock is an oracle
      [now : nat -> Z]: [now k] is the instant (milliseconds since the
      epoch) returned by the k-th evaluation of [new Date()] since the
      process started; [toISOString] renders instants in an
      order-preserving way, so timestamps are compared as instants.
    - A field of the parsed request body is any JSON value.  The
      validation library reads a value through its string form, and an
      array element by element; the model carries a value as that string,
      or as the list of those strings when it is an array.  A string
      method called on an array throws a TypeError, which the [catch] of
      the handler turns into the answer 500; a computation that may throw
      returns an [option], [None] being the exception. *)

From Stdlib Require Import ZArith Ascii String List Lia Bool.
From Stdlib Require Import DecimalString DecimalZ DecimalPos DecimalN DecimalNat.
From stdpp Require Import base tactics list sorting strings.

Local Open Scope Z_scope.

(** ** JavaScript string primitives *)

Module JS.

Definition charCode (c : ascii) : N := N_of_ascii c.

(** WhiteSpace and LineTerminator code units below 256: TAB, LF, VT, FF,
    CR, SP and NBSP.  This is the class removed by [String.prototype.trim],
    matched by the regular expression [\s] and skipped by [parseInt]. *)
Definition isWhiteSpace (c : ascii) : bool :=
  let n := charCode c in
  ((9 <=? n) && (n <=? 13) || (n =? 32) || (n =? 160))%N.

(** [toLowerCase] on one code unit: A-Z and the Latin-1 capitals
    U+00C0..U+00DE (without the multiplication sign U+00D7) move up
    by 32. *)
Definition lowerChar (c : ascii) : ascii :=
  let n := charCode c in
  if ((65 <=? n) && (n <=? 90) ||
      (192 <=? n) && (n <=? 222) && negb (n =? 215))%N
  then ascii_of_N (n + 32) else c.

Fixpoint toLowerCase (s : string) : string :=
  match s with
  | EmptyString => EmptyString
  | String c s' => String (lowerChar c) (toLowerCase s')
  end.

Fixpoint trimStart (s : string) : string :=
  match s with
  | EmptyString => EmptyString
  | String c s' => if isWhiteSpace c then trimStart s' else s
  end.

Definition isEmpty (s : string) : bool :=
  match s with EmptyString => true | _ => false end.

Fixpoint trimEnd (s : string) : string :=
  match s with
  | EmptyString => EmptyString
  | String c s' =>
      let r := trimEnd s' in
      if isWhiteSpace c && isEmpty r then EmptyString else String c r
  end.

(** [s.trim()] *)
Definition trim (s : string) : string := trimEnd (trimStart s).

Fixpoint startsWith (s q : string) : bool :=
  match q, s with
  | EmptyString, _ => true
  | String _ _, EmptyString => false
  | String a q', String b s' => Ascii.eqb a b && startsWith s' q'
  end.

(** [s.includes(q)] *)
Fixpoint includes (s q : string) : bool :=
  startsWith s q ||
  match s with
  | EmptyString => false
  | String _ s' => includes s' q
  end.

(** Value of a code unit as a digit: 0-9, then a-z and A-Z as 10..35. *)
Definition digitValue (c : ascii) : option Z :=
  let n := charCode c in
  if ((48 <=? n) && (n <=? 57))%N then Some (Z.of_N n - 48)
  else if ((97 <=? n) && (n <=? 122))%N then Some (Z.of_N n - 87)
  else if ((65 <=? n) && (n <=? 90))%N then Some (Z.of_N n - 55)
  else None.

(** The longest prefix of radix-[R] digits, folded to its value from the
    accumulator [acc]; [None] while no digit has been read. *)
Fixpoint parseDigits (R : Z) (s : string) (acc : option Z) : option Z :=
  match s with
  | EmptyString => acc
  | String c s' =>
      match digitValue c with
      | Some d =>
          if d <? R
          then parseDigits R s' (Some (R * default 0 acc + d))
          else acc
      | None => acc
      end
  end.

Definition stripSign (s : string) : Z * string :=
  match s with
  | String "-" r => (-1, r)
  | String "+" r => (1, r)
  | _ => (1, s)
  end.

Definition stripHexPrefix (s : string) : Z * string :=
  match s with
  | String "0" (String "x" r) => (16, r)
  | String "0" (String "X" r) => (16, r)
  | _ => (10, s)
  end.

(** [parseInt(s)] with the radix left undefined: leading white space is
    skipped, then an optional sign, then an optional [0x]/[0X] which
    selects radix 16; the result is [NaN] when no digit follows. *)
Definition parseInt (s : string) : option Z :=
  let '(sign, s2) := stripSign (trimStart s) in
  let '(R, s3) := stripHexPrefix s2 in
  match parseDigits R s3 None with
  | Some n => Some (sign * n)
  | None => None
  end.

(** Decimal rendering of a non-negative integer ([String(n)], template
    literals, a number placed in a URL). *)
Definition numberToString (n : Z) : string :=
  NilZero.string_of_uint (N.to_uint (Z.to_N n)).

(** [String(l)] for an array [l] of strings, that is [l.join(",")]. *)
Fixpoint join (l : list string) : string :=
  match l with
  | [] => EmptyString
  | x :: rest =>
      match rest with
      | [] => x
      | _ :: _ => x +:+ "," +:+ join rest
      end
  end.

End JS.

(** ** validator.js predicates used by the express-validator chain *)

Module Validator.

(** [notEmpty()]: the negation of [isEmpty], which tests for length 0. *)
Definition notEmpty (s : string) : bool := negb (JS.isEmpty s).

(** [isLength({min, max})]; without surrogate pairs the counted length is
    the number of code units. *)
Definition isLength (min max : nat) (s : string) : bool :=
  let len := String.length s in
  ((min <=? len) && (len <=? max))%nat.

(** [isIn(options)] *)
Definition isIn (options : list string) (s : string) : bool :=
  bool_decide (s ∈ options).

Definition isDigit (c : ascii) : bool :=
  let n := JS.charCode c in ((48 <=? n) && (n <=? 57))%N.

Fixpoint allDigits (s : string) : bool :=
  match s with
  | EmptyString => true
  | String c s' => isDigit c && allDigits s'
  end.

(** The strings matched by [/^[-+]?[0-9]+$/], with their numeric value
    ([Number(s)], which is what the comparisons with [min] and [max]
    coerce the string to). *)
Definition decimalInt (s : string) : option Z :=
  let '(sign, ds) := JS.stripSign s in
  if negb (JS.isEmpty ds) && allDigits ds
  then match JS.parseDigits 10 ds None with
       | Some n => Some (sign * n)
       | None => None
       end
  else None.

(** [isInt({min, max})] *)
Definition isInt (min max : Z) (s : string) : bool :=
  match decimalInt s with
  | Some n => (min <=? n) && (n <=? max)
  | None => false
  end.

End Validator.

(** ** Data model *)

(** A JavaScript number that is an integer or [NaN]. *)
Definition number := option Z.

Module Book.
Record t := {
  id : Z;
  title : string;
  author : string;
  genre : string;
  publicationYear : number;
  description : string;
  createdAt : Z;
  updatedAt : Z
}.
End Book.

(** A field value of [req.body].  express-validator hands a sanitizer
    or validator the string form of the value, and when the value is an
    array it runs them on the string form of each element in turn and
    writes a sanitized array back as an array.  A value that is not an
    array is therefore carried as its string form ([Text]; the empty
    string for a missing field or null), and an array as the list of the
    string forms of its elements ([Items]). *)
Inductive Value :=
| Text (s : string)
| Items (l : list string).

Module Value.

(** The strings a validator is run on. *)
Definition elements (v : Value) : list string :=
  match v with
  | Text s => [s]
  | Items l => l
  end.

(** A sanitizer [f] applied by the library: to the value, or to each
    element of an array. *)
Definition sanitized (f : string → string) (v : Value) : Value :=
  match v with
  | Text s => Text (f s)
  | Items l => Items (f <$> l)
  end.

(** [v.toLowerCase()] in a handler, where a sanitized value that is not
    an array is a string; an array has no such method and the call
    throws. *)
Definition toLowerCase (v : Value) : option string :=
  match v with
  | Text s => Some (JS.toLowerCase s)
  | Items _ => None
  end.

(** [v.trim()], likewise. *)
Definition trim (v : Value) : option string :=
  match v with
  | Text s => Some (JS.trim s)
  | Items _ => None
  end.

(** [String(v)], which joins the elements of an array with commas.  (An
    element that is itself an array or an object is carried by the
    string the validators read; when that string is a decimal literal,
    the JavaScript string form of the element is that literal, possibly
    followed by a comma and more, from which [parseInt] reads the same
    integer.) *)
Definition toString (v : Value) : string :=
  match v with
  | Text s => s
  | Items l => JS.join l
  end.

(** [parseInt(v)]: it converts its argument to a string first and never
    throws. *)
Definition parseInt (v : Value) : number := JS.parseInt (toString v).

End Value.

(** [req.body] *)
Module Body.
Record t := {
  title : Value;
  author : Value;
  genre : Value;
  publicationYear : Value;
  description : Value
}.
End Body.

(** One entry of [validationResult(req).array()]: the field it is about
    and the message given by [withMessage] (the library's entry also
    repeats the offending value and says that it came from the body). *)
Record FieldError := { path : string; msg : string }.

Inductive Data :=
| NoData
| Timestamp (t : Z)
| OneBook (book : Book.t)
| Books (data : list Book.t) (count : nat)
| SearchHits (data : list Book.t) (count : nat) (query : string)
| Errors (errors : list FieldError).

Record Response := {
  status : nat;
  success : bool;
  message : option string;
  data : Data
}.

(** The module state: the [books] array, the [nextId] counter, and the
    number of times the clock has been read so far. *)
Record State := {
  books : list Book.t;
  nextId : Z;
  dateReads : nat
}.

Inductive Request :=
| GetHealth
| GetBooks
| GetBook (id : string)
| PostBook (body : Body.t)
| PutBook (id : string) (body : Body.t)
| DeleteBook (id : string)
| SearchBooks (query : string).

(** A validator of a chain together with its [withMessage]. *)
Definition Rule : Type := (string → bool) * string.

(** A chain without [bail()]: every validator runs on the (sanitized)
    value, on each element in turn when it is an array, and reports its
    message for every string it rejects; the validators report in chain
    order. *)
Definition runChain (field : string) (value : Value) (rules : list Rule)
  : list FieldError :=
  flat_map (λ r : Rule,
    flat_map (λ x,
      if r.1 x then [] else [{| path := field; msg := r.2 |}])
      (Value.elements value)) rules.

Definition genres : list string :=
  ["Fiction"; "Non-Fiction"; "Mystery"; "Romance"; "Science Fiction";
   "Fantasy"; "Biography"; "History"; "Dystopian Fiction"; "Other"].

(** The [.trim()] sanitizers of [bookValidation] write the trimmed value
    back into [req.body]; [publicationYear] has no sanitizer. *)
Definition sanitize (body : Body.t) : Body.t :=
  {| Body.title := Value.sanitized JS.trim (Body.title body);
     Body.author := Value.sanitized JS.trim (Body.author body);
     Body.genre := Value.sanitized JS.trim (Body.genre body);
     Body.publicationYear := Body.publicationYear body;
     Body.description := Value.sanitized JS.trim (Body.description body) |}.

(** [books.find(callback)] with a callback that may throw: the exception
    leaves [find] at once ([None]); otherwise the result is the first
    record the callback accepts, or [undefined] ([Some None]). *)
Fixpoint arrayFind (callback : Book.t → option bool) (bks : list Book.t)
  : option (option Book.t) :=
  match bks with
  | [] => Some None
  | book :: rest =>
      match callback book with
      | None => None
      | Some true => Some (Some book)
      | Some false => arrayFind callback rest
      end
  end.

(** [book.title.toLowerCase() === title.toLowerCase() &&
     book.author.toLowerCase() === author.toLowerCase()]: the right
    operand of [&&] is evaluated only when the titles agree. *)
Definition titleAuthorMatch (title author : Value) (book : Book.t)
  : option bool :=
  t ← Value.toLowerCase title;
  if bool_decide (JS.toLowerCase (Book.title book) = t)
  then a ← Value.toLowerCase author;
       Some (bool_decide (JS.toLowerCase (Book.author book) = a))
  else Some false.

(** [book.id === parseInt(id)]: never true when [parseInt] gives [NaN]. *)
Definition hasId (n : number) (book : Book.t) : Prop :=
  n = Some (Book.id book).

#[global] Instance hasId_dec n book : Decision (hasId n book).
Proof. unfold hasId. apply _. Defined.

(** The callback of the search filter. *)
Definition matchesQuery (query : string) (book : Book.t) : bool :=
  JS.includes (JS.toLowerCase (Book.title book)) query ||
  JS.includes (JS.toLowerCase (Book.author book)) query ||
  JS.includes (JS.toLowerCase (Book.genre book)) query ||
  JS.includes (JS.toLowerCase (Book.description book)) query.

Definition notFound : Response :=
  {| status := 404; success := false;
     message := Some "Book not found"; data := NoData |}.

Definition conflict : Response :=
  {| status := 409; success := false;
     message := Some "A book with this title and author already exists";
     data := NoData |}.

Definition validationFailed (errors : list FieldError) : Response :=
  {| status := 400; success := false;
     message := Some "Validation failed"; data := Errors errors |}.

(** The answer of the [catch] branch of a handler (its [error] field,
    the engine's wording of the exception, is left out). *)
Definition failed (msg : string) : Response :=
  {| status := 500; success := false; message := Some msg; data := NoData |}.

(** ** Notions used to state the properties *)

(** [q] occurs in [s] as a contiguous block. *)
Definition isSubstring (q s : string) : Prop :=
  ∃ pre post, s = pre +:+ q +:+ post.

(** One of the four searched fields contains [q], case-insensitively. *)
Definition containsQuery (q : string) (book : Book.t) : Prop :=
  isSubstring q (JS.toLowerCase (Book.title book)) ∨
  isSubstring q (JS.toLowerCase (Book.author book)) ∨
  isSubstring q (JS.toLowerCase (Book.genre book)) ∨
  isSubstring q (JS.toLowerCase (Book.description book)).

(** [book] has this title and author, compared case-insensitively. *)
Definition sameTitleAuthor (title author : string) (book : Book.t) : Prop :=
  JS.toLowerCase (Book.title book) = JS.toLowerCase title ∧
  JS.toLowerCase (Book.author book) = JS.toLowerCase author.

#[global] Instance sameTitleAuthor_dec title author book :
  Decision (sameTitleAuthor title author book).
Proof. unfold sameTitleAuthor. apply _. Defined.

(** The (title, author) pair of a record, case folded. *)
Definition titleAuthorKey (book : Book.t) : string * string :=
  (JS.toLowerCase (Book.title book), JS.toLowerCase (Book.author book)).

(** No two positions of the store hold records with the same [key]. *)
Definition distinctBy {K} (key : Book.t → K) (bks : list Book.t) : Prop :=
  ∀ i j b1 b2,
    bks !! i = Some b1 → bks !! j = Some b2 → key b1 = key b2 → i = j.

Definition distinctIds : list Book.t → Prop := distinctBy Book.id.

Definition distinctTitleAuthor : list Book.t → Prop :=
  distinctBy titleAuthorKey.

Definition timestampsOrdered (bks : list Book.t) : Prop :=
  ∀ book, book ∈ bks → Book.createdAt book ≤ Book.updatedAt book.

(** The clock never runs backwards. *)
Definition monotone (clock : nat → Z) : Prop :=
  ∀ i j, (i ≤ j)%nat → clock i ≤ clock j.

(** [v] is a decimal integer literal for [n]: an optional sign followed
    by at least one decimal digit, read by the Standard Library's decimal
    parser. *)
Definition denotesInteger (v : string) (n : Z) : Prop :=
  ∃ sign ds u,
    JS.stripSign v = (sign, ds) ∧ ds ≠ EmptyString ∧
    NilZero.uint_of_string ds = Some u ∧
    n = sign * Z.of_N (N.of_uint u).

(** The rest of an id that follows its decimal digits: nothing, or
    something that does not begin with a decimal digit. *)
Definition noDigitAhead (rest : string) : Prop :=
  match rest with
  | EmptyString => True
  | String c _ => Validator.isDigit c = false
  end.

(** [0x] and [0X] are read as the hexadecimal prefix. *)
Definition hexAhead (ds rest : string) : Prop :=
  ds = "0" ∧ ∃ r, rest = String "x" r ∨ rest = String "X" r.

(** The validation rules, in the words of the specification. *)
Definition textOk (max : nat) (v : string) : Prop :=
  JS.trim v ≠ EmptyString ∧ (String.length (JS.trim v) ≤ max)%nat.

Definition genreOk (v : string) : Prop := JS.trim v ∈ genres.

Definition yearOk (maxYear : Z) (v : string) : Prop :=
  ∃ n, denotesInteger v n ∧ 1000 ≤ n ≤ maxYear.

(** A rule holds of a field: of its value, or of every element when the
    value is an array. *)
Definition fieldOk (rule : string → Prop) (v : Value) : Prop :=
  match v with
  | Text s => rule s
  | Items l => Forall rule l
  end.

(** The fields of a body whose rule is violated. *)
Inductive Violation (maxYear : Z) (body : Body.t) : string → Prop :=
| bad_title :
    ¬ fieldOk (textOk 200) (Body.title body) →
    Violation maxYear body "title"
| bad_author :
    ¬ fieldOk (textOk 100) (Body.author body) →
    Violation maxYear body "author"
| bad_genre :
    ¬ fieldOk genreOk (Body.genre body) → Violation maxYear body "genre"
| bad_publicationYear :
    ¬ fieldOk (yearOk maxYear) (Body.publicationYear body) →
    Violation maxYear body "publicationYear"
| bad_description :
    ¬ fieldOk (textOk 1000) (Body.description body) →
    Violation maxYear body "description".

(** The number stored for a publicationYear that passed validation: the
    integer the value denotes, for an array the integer its first
    element denotes, and [NaN] for the empty array. *)
Definition yearRead (v : Value) (n : number) : Prop :=
  match v with
  | Text s | Items (s :: _) => ∃ year, denotesInteger s year ∧ n = Some year
  | Items [] => n = None
  end.

(** The title, author, genre and description of [body] are these four
    strings, none of them an array. *)
Definition textFields (body : Body.t)
    (title author genre description : string) : Prop :=
  Body.title body = Text title ∧ Body.author body = Text author ∧
  Body.genre body = Text genre ∧ Body.description body = Text description.

(** One of those four fields is an array. *)
Definition arrayField (body : Body.t) : Prop :=
  ∃ l, Body.title body = Items l ∨ Body.author body = Items l ∨
       Body.genre body = Items l ∨ Body.description body = Items l.

(** The records a response carries. *)
Definition booksOf (r : Response) : list Book.t :=
  match data r with
  | OneBook book => [book]
  | Books bks _ => bks
  | SearchHits bks _ _ => bks
  | _ => []
  end.

(** The id assigned by a response, when it reports a creation. *)
Definition createdId (r : Response) : option Z :=
  match data r with
  | OneBook book =>
      if decide (status r = 201%nat) then Some (Book.id book) else None
  | _ => None
  end.

(** Example inputs. *)
Definition dune : Body.t :=
  {| Body.title := Text " Dune ";
     Body.author := Text "Frank Herbert";
     Body.genre := Text "Science Fiction";
     Body.publicationYear := Text "1965";
     Body.description := Text "Politics and ecology on a desert planet." |}.

Definition blank : Body.t :=
  {| Body.title := Text "   ";
     Body.author := Text "Frank Herbert";
     Body.genre := Text "Sci-Fi";
     Body.publicationYear := Text "1965.5";
     Body.description := Text "Politics and ecology on a desert planet." |}.

(** The seed's first record again, in other letter case. *)
Definition gatsby : Body.t :=
  {| Body.title := Text "THE GREAT GATSBY";
     Body.author := Text "f. scott fitzgerald";
     Body.genre := Text "Fiction";
     Body.publicationYear := Text "1925";
     Body.description := Text "Revised description." |}.

(** [dune] with the author given as a one-element array, with the title
    given as one, with the empty array as publicationYear, and with the
    empty array as title. *)
Definition duneAuthors : Body.t :=
  {| Body.title := Text "Dune";
     Body.author := Items ["Frank Herbert"];
     Body.genre := Text "Science Fiction";
     Body.publicationYear := Text "1965";
     Body.description := Text "Politics and ecology on a desert planet." |}.


Definition duneNoYear : Body.t :=
  {| Body.title := Text "Dune";
     Body.author := Text "Frank Herbert";
     Body.genre := Text "Science Fiction";
     Body.publicationYear := Items [];
     Body.description := Text "Politics and ecology on a desert planet." |}.


(** The record a create of [dune] appends to the seed state, given its
    two clock readings, and the seed's first record as the clock
    [ticking] stamps it. *)
Definition duneBook (createdAt updatedAt : Z) : Book.t :=
  {| Book.id := 4;
     Book.title := "Dune";
     Book.author := "Frank Herbert";
     Book.genre := "Science Fiction";
     Book.publicationYear := Some 1965;
     Book.description := "Politics and ecology on a desert planet.";
     Book.createdAt := createdAt;
     Book.updatedAt := updatedAt |}.

Definition gatsbyBook : Book.t :=
  {| Book.id := 1;
     Book.title := "The Great Gatsby";
     Book.author := "F. Scott Fitzgerald";
     Book.genre := "Fiction";
     Book.publicationYear := Some 1925;
     Book.description := "A classic American novel set in the Jazz Age.";
     Book.createdAt := 0;
     Book.updatedAt := 1 |}.

(** A clock that advances by one millisecond between any two reads, a
    clock that stands still, and a clock that is set back by a second
    after its ninth reading. *)
Definition ticking (k : nat) : Z := Z.of_nat k.
Definition setBack (k : nat) : Z :=
  if (k <? 9)%nat then 1000 + Z.of_nat k else Z.of_nat k.

(** ** Further notions: valid records, bookkeeping, the browser's service *)

(** A text field as the handlers store it: trimmed, not empty and at
    most [max] code units long. *)
Definition textValid (max : nat) (v : string) : Prop :=
  JS.trim v = v ∧ v ≠ EmptyString ∧ (String.length v ≤ max)%nat.

(** A record that satisfies the rules of the data model. *)
Definition validRecord (maxYear : Z) (book : Book.t) : Prop :=
  0 < Book.id book ∧
  textValid 200 (Book.title book) ∧
  textValid 100 (Book.author book) ∧
  Book.genre book ∈ genres ∧
  (∃ year, Book.publicationYear book = Some year ∧
           1000 ≤ year ≤ maxYear) ∧
  textValid 1000 (Book.description book).

(** The same, but for the year, which may also be [NaN]. *)
Definition validButForNaN (maxYear : Z) (book : Book.t) : Prop :=
  0 < Book.id book ∧
  textValid 200 (Book.title book) ∧
  textValid 100 (Book.author book) ∧
  Book.genre book ∈ genres ∧
  (∀ year, Book.publicationYear book = Some year →
           1000 ≤ year ≤ maxYear) ∧
  textValid 1000 (Book.description book).

(** The request carries a body whose publicationYear is the empty
    array. *)
Definition emptyYear (r : Request) : Prop :=
  match r with
  | PostBook body | PutBook _ body => Body.publicationYear body = Items []
  | _ => False
  end.

(** The answer to a DELETE that removed a record. *)
Definition removedOne (req : Request) (resp : Response) : bool :=
  match req with
  | DeleteBook _ => success resp
  | _ => false
  end.

(** The answer to a create that threw. *)
Definition crashedCreate (req : Request) (resp : Response) : bool :=
  match req with
  | PostBook _ => bool_decide (status resp = 500%nat)
  | _ => false
  end.

(** How many of the answers [resps] report a creation, how many of the
    requests [rs] were deletions that succeeded, and how many were
    creates answered 500. *)
Definition creations (resps : list Response) : nat :=
  length (omap createdId resps).

Definition removals (rs : list Request) (resps : list Response) : nat :=
  length (filter (λ p : Request * Response, removedOne p.1 p.2 = true)
            (zip rs resps)).

Definition crashes (rs : list Request) (resps : list Response) : nat :=
  length (filter (λ p : Request * Response, crashedCreate p.1 p.2 = true)
            (zip rs resps)).

(** The entries of an error list that are about [field]. *)
Definition errorsFor (field : string) (errors : list FieldError)
  : list FieldError :=
  filter (λ e, path e = field) errors.

(** A thrown JavaScript [Error], as far as the service looks at it. *)
Module Error.
Record t := { name : string; message : string }.
End Error.

(** What [handleAPIError] hands to the components. *)
Module ErrorResult.
Record t := { success : bool; error : string }.
End ErrorResult.

(** [response.ok] of [fetch]: the status is in the range 200-299. *)
Definition responseOk (r : Response) : bool :=
  ((200 <=? status r) && (status r <=? 299))%nat.

(** [a || b] where [a] is a string or undefined: [b] when [a] is
    undefined or empty. *)
Definition orElse (a : option string) (b : string) : string :=
  match a with
  | Some m => if JS.isEmpty m then b else m
  | None => b
  end.

(** [handleResponse], on the status and parsed body of a reply: the body,
    or the [Error] it throws. *)
Definition handleResponse (r : Response) : Error.t + Response :=
  if responseOk r then inr r
  else inl {| Error.name := "Error";
              Error.message :=
                orElse (message r)
                  ("HTTP error! status: "
                     +:+ JS.numberToString (Z.of_nat (status r))) |}.

(** [handleAPIError] *)
Definition handleAPIError (error : Error.t) : ErrorResult.t :=
  if bool_decide (Error.name error = "TypeError") &&
     JS.includes (Error.message error) "fetch"
  then {| ErrorResult.success := false;
          ErrorResult.error :=
            "Unable to connect to the server. Please make sure the backend is running." |}
  else {| ErrorResult.success := false;
          ErrorResult.error :=
            orElse (Some (Error.message error))
              "An unexpected error occurred" |}.

(** The guard of [bookAPI.searchBooks]: the [Error] it throws before any
    request is made, or the term it places in the request path. *)
Definition searchTerm (query : string) : Error.t + string :=
  if JS.isEmpty query || JS.isEmpty (JS.trim query)
  then inl {| Error.name := "Error";
              Error.message := "Search query is required" |}
  else inr (JS.trim query).

(** A string of white space only, and [v'] as [v] with white space
    added at its two ends. *)
Definition whiteSpaceOnly (w : string) : Prop := JS.trim w = EmptyString.

Definition padded (v v' : string) : Prop :=
  ∃ l r, whiteSpaceOnly l ∧ whiteSpaceOnly r ∧ v' = l +:+ v +:+ r.

(** The same for a field value: for arrays, element by element. *)
Definition paddedValue (v v' : Value) : Prop :=
  match v, v' with
  | Text s, Text s' => padded s s'
  | Items l, Items l' => Forall2 padded l l'
  | _, _ => False
  end.

(** 1 for true, 0 for false. *)
Definition one (b : bool) : nat := if b then 1%nat else 0%nat.

(** ** The server *)

Section Server.

(** [new Date().getFullYear()] as evaluated once, when the module is
    loaded and [bookValidation] is built. *)
Variable currentYear : Z.

(** The clock: [now k] is the instant the k-th [new Date()] returns. *)
Variable now : nat → Z.

Definition bookValidation (body : Body.t) : list FieldError :=
  let b := sanitize body in
  runChain "title" (Body.title b)
    [(Validator.notEmpty, "Title is required");
     (Validator.isLength 1 200,
      "Title must be between 1 and 200 characters")] ++
  runChain "author" (Body.author b)
    [(Validator.notEmpty, "Author is required");
     (Validator.isLength 1 100,
      "Author must be between 1 and 100 characters")] ++
  runChain "genre" (Body.genre b)
    [(Validator.notEmpty, "Genre is required");
     (Validator.isIn genres, "Invalid genre")] ++
  runChain "publicationYear" (Body.publicationYear b)
    [(Validator.isInt 1000 currentYear,
      "Publication year must be between 1000 and "
        +:+ JS.numberToString currentYear)] ++
  runChain "description" (Body.description b)
    [(Validator.notEmpty, "Description is required");
     (Validator.isLength 1 1000,
      "Description must be between 1 and 1000 characters")].

(** The state after the module is loaded: the three seed books, whose
    timestamps are the first six clock readings, and the counter at 4.
    Building [bookValidation] reads the clock twice more (for the year). *)
Definition initial : State :=
  {| books :=
       [ {| Book.id := 1;
            Book.title := "The Great Gatsby";
            Book.author := "F. Scott Fitzgerald";
            Book.genre := "Fiction";
            Book.publicationYear := Some 1925;
            Book.description :=
              "A classic American novel set in the Jazz Age.";
            Book.createdAt := now 0;
            Book.updatedAt := now 1 |};
         {| Book.id := 2;
            Book.title := "To Kill a Mockingbird";
            Book.author := "Harper Lee";
            Book.genre := "Fiction";
            Book.publicationYear := Some 1960;
            Book.description :=
              "A gripping tale of racial injustice and childhood innocence.";
            Book.createdAt := now 2;
            Book.updatedAt := now 3 |};
         {| Book.id := 3;
            Book.title := "1984";
            Book.author := "George Orwell";
            Book.genre := "Dystopian Fiction";
            Book.publicationYear := Some 1949;
            Book.description :=
              "A dystopian social science fiction novel about totalitarian control.";
            Book.createdAt := now 4;
            Book.updatedAt := now 5 |} ];
     nextId := 4;
     dateReads := 8 |}.

Definition ok (msg : option string) (d : Data) : Response :=
  {| status := 200; success := true; message := msg; data := d |}.

(** GET /api/health *)
Definition health (s : State) : Response * State :=
  (ok (Some "Book Management API is running")
      (Timestamp (now (dateReads s))),
   {| books := books s; nextId := nextId s;
      dateReads := S (dateReads s) |}).

(** GET /api/books *)
Definition getBooks (s : State) : Response * State :=
  (ok None (Books (books s) (length (books s))), s).

(** [books.find(book => book.id === parseInt(id))] *)
Definition findBookById (bks : list Book.t) (id : string) : option Book.t :=
  snd <$> list_find (hasId (JS.parseInt id)) bks.

(** GET /api/books/:id *)
Definition getBook (id : string) (s : State) : Response * State :=
  match findBookById (books s) id with
  | None => (notFound, s)
  | Some book => (ok None (OneBook book), s)
  end.

(** The object literal [newBook] of the create handler, evaluated
    property by property; [id] is the value of [nextId++], [t1] and [t2]
    are the two clock readings, taken last.  [None] when one of the
    [trim] calls throws. *)
Definition newBook (id : Z) (body : Body.t) (t1 t2 : Z) : option Book.t :=
  title ← Value.trim (Body.title body);
  author ← Value.trim (Body.author body);
  genre ← Value.trim (Body.genre body);
  let publicationYear := Value.parseInt (Body.publicationYear body) in
  description ← Value.trim (Body.description body);
  Some {| Book.id := id;
          Book.title := title;
          Book.author := author;
          Book.genre := genre;
          Book.publicationYear := publicationYear;
          Book.description := description;
          Book.createdAt := t1;
          Book.updatedAt := t2 |}.

(** The handler of POST /api/books, run on the sanitized body.  An
    exception thrown by the callback of [find] reaches the [catch] with
    the state untouched; one thrown inside the object literal reaches it
    after [nextId++] has been evaluated, and before any clock reading. *)
Definition createBook (body : Body.t) (s : State) : Response * State :=
  match arrayFind
          (titleAuthorMatch (Body.title body) (Body.author body)) (books s)
  with
  | None => (failed "Failed to create book", s)
  | Some (Some existingBook) => (conflict, s)
  | Some None =>
      match newBook (nextId s) body
              (now (dateReads s)) (now (S (dateReads s)))
      with
      | None =>
          (failed "Failed to create book",
           {| books := books s;
              nextId := nextId s + 1;
              dateReads := dateReads s |})
      | Some book =>
          ({| status := 201; success := true;
              message := Some "Book created successfully";
              data := OneBook book |},
           {| books := books s ++ [book];
              nextId := nextId s + 1;
              dateReads := S (S (dateReads s)) |})
      end
  end.

(** The object literal [updatedBook] of the update handler: the spread
    of [books[bookIndex]] keeps [id] and [createdAt], the other fields
    are overwritten; [t] is the clock reading, taken last.  [None] when
    one of the [trim] calls throws. *)
Definition updatedBook (current : Book.t) (body : Body.t) (t : Z)
  : option Book.t :=
  title ← Value.trim (Body.title body);
  author ← Value.trim (Body.author body);
  genre ← Value.trim (Body.genre body);
  let publicationYear := Value.parseInt (Body.publicationYear body) in
  description ← Value.trim (Body.description body);
  Some {| Book.id := Book.id current;
          Book.title := title;
          Book.author := author;
          Book.genre := genre;
          Book.publicationYear := publicationYear;
          Book.description := description;
          Book.createdAt := Book.createdAt current;
          Book.updatedAt := t |}.

(** The handler of PUT /api/books/:id, run on the sanitized body.
    [bookIndex] and [books[bookIndex]] come from the same [findIndex];
    the callback of [find] skips the record with the parsed id before it
    looks at the body.  An exception, from the callback or from the
    object literal, reaches the [catch] with the state untouched. *)
Definition updateBook (id : string) (body : Body.t) (s : State)
  : Response * State :=
  match list_find (hasId (JS.parseInt id)) (books s) with
  | None => (notFound, s)
  | Some (bookIndex, current) =>
      match arrayFind
              (λ book,
                 if decide (hasId (JS.parseInt id) book) then Some false
                 else titleAuthorMatch (Body.title body) (Body.author body)
                        book)
              (books s)
      with
      | None => (failed "Failed to update book", s)
      | Some (Some existingBook) => (conflict, s)
      | Some None =>
          match updatedBook current body (now (dateReads s)) with
          | None => (failed "Failed to update book", s)
          | Some book =>
              (ok (Some "Book updated successfully") (OneBook book),
               {| books := <[bookIndex := book]> (books s);
                  nextId := nextId s;
                  dateReads := S (dateReads s) |})
          end
      end
  end.

(** DELETE /api/books/:id; [books.splice(bookIndex, 1)[0]] *)
Definition deleteBook (id : string) (s : State) : Response * State :=
  match list_find (hasId (JS.parseInt id)) (books s) with
  | None => (notFound, s)
  | Some (bookIndex, deletedBook) =>
      (ok (Some "Book deleted successfully") (OneBook deletedBook),
       {| books := delete bookIndex (books s);
          nextId := nextId s;
          dateReads := dateReads s |})
  end.

(** GET /api/books/search/:query *)
Definition searchBooks (param : string) (s : State) : Response * State :=
  let query := JS.trim (JS.toLowerCase param) in
  if JS.isEmpty query
  then ({| status := 400; success := false;
           message := Some "Search query is required"; data := NoData |}, s)
  else
    let results := filter (λ book, matchesQuery query book = true) (books s) in
    (ok None (SearchHits results (length results) param), s).

(** The middleware that follows [bookValidation] on the two mutating
    routes: with [errors] the array of [validationResult(req)], it answers
    400 when there is any, and otherwise calls [next], the route handler,
    which then sees the sanitized body. *)
Definition handleValidationErrors (errors : list FieldError)
    (next : State → Response * State) (s : State) : Response * State :=
  match errors with
  | [] => next s
  | _ => (validationFailed errors, s)
  end.

Definition handle (r : Request) (s : State) : Response * State :=
  match r with
  | GetHealth => health s
  | GetBooks => getBooks s
  | GetBook id => getBook id s
  | PostBook body =>
      handleValidationErrors (bookValidation body)
        (createBook (sanitize body)) s
  | PutBook id body =>
      handleValidationErrors (bookValidation body)
        (updateBook id (sanitize body)) s
  | DeleteBook id => deleteBook id s
  | SearchBooks query => searchBooks query s
  end.

(** A sequence of requests served one after the other. *)
Fixpoint run (rs : list Request) (s : State) : list Response * State :=
  match rs with
  | [] => ([], s)
  | r :: rs' =>
      let '(resp, s1) := handle r s in
      let '(resps, s2) := run rs' s1 in
      (resp :: resps, s2)
  end.


(** *** Invariants of the reachable states *)

(** Both timestamps of [book] are clock readings taken before the
    [d]-th, the creation one not after the update one. *)
Definition stamped (d : nat) (book : Book.t) : Prop :=
  ∃ i j, (i ≤ j)%nat ∧ (j < d)%nat ∧
    Book.createdAt book = now i ∧ Book.updatedAt book = now j.

Definition wellFormed (s : State) : Prop :=
  distinctIds (books s) ∧
  distinctTitleAuthor (books s) ∧
  0 < nextId s ∧
  (∀ book, book ∈ books s → 0 < Book.id book < nextId s) ∧
  (∀ book, book ∈ books s → stamped (dateReads s) book).

(** The id [n] has been assigned and its record is gone. *)
Definition retired (n : Z) (s : State) : Prop :=
  n < nextId s ∧ ∀ book, book ∈ books s → Book.id book ≠ n.

(** Every id handed out so far, oldest first: the seed ids, then the id
    of each successful create among the requests [rs]. *)
Definition assignedIds (rs : list Request) : list Z :=
  (Book.id <$> books initial) ++ omap createdId (run rs initial).1.


(** *** What a later state keeps of an earlier one *)

(** Every record of [s'] either was created after [s] (its id is not
    below the counter of [s]) or continues a record of [s] with the same
    id and createdAt, untouched or re-stamped by a clock reading taken
    since [s]. *)
Definition continues (s s' : State) : Prop :=
  nextId s ≤ nextId s' ∧ (dateReads s ≤ dateReads s')%nat ∧
  ∀ book', book' ∈ books s' →
    nextId s ≤ Book.id book' ∨
    ∃ book, book ∈ books s ∧
      Book.id book = Book.id book' ∧
      Book.createdAt book = Book.createdAt book' ∧
      (book' = book ∨
       ∃ k, (dateReads s ≤ k)%nat ∧ (k < dateReads s')%nat ∧
            Book.updatedAt book' = now k).
(** ** Facts about the string primitives *)

(** Case analysis on the eight bits of a code unit. *)
Ltac code_unit_cases c := destruct c as [[] [] [] [] [] [] [] []].

(** A record found in the store although none can have the id. *)
Ltac found_but_absent Hfind Hnone :=
  let Hi := fresh in
  apply list_find_Some in Hfind as (Hi & ? & _);
  by destruct (Hnone _ (list_elem_of_lookup_2 _ _ _ Hi)).

Lemma isEmpty_true s : JS.isEmpty s = true ↔ s = EmptyString.
Proof. destruct s; simpl; split; congruence. Qed.

Lemma isEmpty_false s : JS.isEmpty s = false ↔ s ≠ EmptyString.
Proof. destruct s; simpl; split; congruence. Qed.

Lemma trimStart_head s :
  JS.trimStart s = EmptyString ∨
  ∃ c r, JS.trimStart s = String c r ∧ JS.isWhiteSpace c = false.
Proof.
  induction s as [|c s IH]; simpl; [by left|].
  destruct (JS.isWhiteSpace c) eqn:Hc; [exact IH|].
  right. by exists c, s.
Qed.

Lemma trimEnd_idempotent s : JS.trimEnd (JS.trimEnd s) = JS.trimEnd s.
Proof.
  induction s as [|c s IH]; simpl; [done|].
  destruct (JS.isWhiteSpace c && JS.isEmpty (JS.trimEnd s)) eqn:Hc; [done|].
  simpl. by rewrite IH, Hc.
Qed.

Lemma trimStart_trimEnd c r :
  JS.isWhiteSpace c = false →
  JS.trimStart (JS.trimEnd (String c r)) = JS.trimEnd (String c r).
Proof. intros Hc. simpl. rewrite Hc. simpl. by rewrite Hc. Qed.

Lemma trim_idempotent s : JS.trim (JS.trim s) = JS.trim s.
Proof.
  unfold JS.trim.
  destruct (trimStart_head s) as [->|(c & r & -> & Hc)]; [done|].
  by rewrite trimStart_trimEnd, trimEnd_idempotent.
Qed.

Lemma sanitized_trim_idempotent v :
  Value.sanitized JS.trim (Value.sanitized JS.trim v) =
  Value.sanitized JS.trim v.
Proof.
  destruct v as [s|l]; simpl; [by rewrite trim_idempotent|].
  f_equal. rewrite <- list_fmap_compose. apply list_fmap_ext.
  intros _ x _. simpl. apply trim_idempotent.
Qed.

Lemma sanitize_idempotent body : sanitize (sanitize body) = sanitize body.
Proof. unfold sanitize; simpl. by rewrite !sanitized_trim_idempotent. Qed.

(** A sanitized field that is a string is the trimmed string that was
    sent. *)
Lemma sanitized_text v t :
  Value.sanitized JS.trim v = Text t ↔ ∃ t0, v = Text t0 ∧ t = JS.trim t0.
Proof.
  destruct v as [s|l]; simpl; split.
  - intros [= <-]. eauto.
  - by intros (t0 & [= <-] & ->).
  - done.
  - by intros (t0 & ? & _).
Qed.

Lemma sanitized_items v l :
  Value.sanitized JS.trim v = Items l ↔
  ∃ l0, v = Items l0 ∧ l = JS.trim <$> l0.
Proof.
  destruct v as [s|l1]; simpl; split.
  - done.
  - by intros (l0 & ? & _).
  - intros [= <-]. eauto.
  - by intros (l0 & [= <-] & ->).
Qed.

Lemma startsWith_spec s q :
  JS.startsWith s q = true ↔ ∃ post, s = q +:+ post.
Proof.
  revert s. induction q as [|a q IH]; intros s; simpl.
  - destruct s; split; eauto.
  - destruct s as [|b s]; simpl.
    + split; [done|]. by intros [post ?].
    + rewrite andb_true_iff, IH, Ascii.eqb_eq. split.
      * intros [-> [post ->]]. by exists post.
      * intros [post [= -> ->]]. eauto.
Qed.

Lemma includes_spec s q : JS.includes s q = true ↔ isSubstring q s.
Proof.
  unfold isSubstring. induction s as [|c s IH].
  - cbn [JS.includes]. rewrite orb_false_r, startsWith_spec. split.
    + intros [post ->]. by exists EmptyString, post.
    + intros ([|? pre] & post & H); simpl in H; [eauto|done].
  - cbn [JS.includes]. rewrite orb_true_iff, startsWith_spec, IH. split.
    + intros [[post ->]|(pre & post & ->)].
      * by exists EmptyString, post.
      * by exists (String c pre), post.
    + intros ([|c' pre] & post & H); simpl in H.
      * left. eauto.
      * right. injection H as -> ->. eauto.
Qed.

Lemma matchesQuery_spec q book :
  matchesQuery q book = true ↔ containsQuery q book.
Proof.
  unfold matchesQuery, containsQuery.
  rewrite !orb_true_iff, !includes_spec. tauto.
Qed.

(** ** Decimal literals: [parseInt], the validator and the renderer *)

Lemma parseDigits_step R c s acc d :
  JS.digitValue c = Some d → d < R →
  JS.parseDigits R (String c s) acc =
  JS.parseDigits R s (Some (R * default 0 acc + d)).
Proof.
  intros Hc Hd. simpl. rewrite Hc.
  by destruct (Z.ltb_spec d R); [|lia].
Qed.

Lemma parseDigits_acc u acc :
  JS.parseDigits 10 (NilEmpty.string_of_uint u) (Some (Z.pos acc)) =
  Some (Z.pos (Pos.of_uint_acc u acc)).
Proof.
  revert acc. induction u; intros acc; [done|..];
    cbn [NilEmpty.string_of_uint Pos.of_uint_acc];
    (erewrite parseDigits_step; [|cbv; reflexivity|lia]);
    rewrite <- IHu; do 2 f_equal; simpl default; lia.
Qed.

Lemma parseDigits_zero u :
  JS.parseDigits 10 (NilEmpty.string_of_uint u) (Some 0) =
  Some (Z.of_N (N.of_uint u)).
Proof.
  induction u; [done|..];
    cbn [NilEmpty.string_of_uint N.of_uint Pos.of_uint];
    (erewrite parseDigits_step; [|cbv; reflexivity|lia]);
    simpl default; rewrite ?Z.mul_0_r, ?Z.add_0_l;
    [exact IHu | apply parseDigits_acc ..].
Qed.

Lemma parseDigits_uint u :
  u ≠ Decimal.Nil →
  JS.parseDigits 10 (NilEmpty.string_of_uint u) None =
  Some (Z.of_N (N.of_uint u)).
Proof.
  intros Hu. rewrite <- parseDigits_zero.
  destruct u; [done|..]; cbn [NilEmpty.string_of_uint];
    by (erewrite !parseDigits_step; [|cbv; reflexivity|lia|cbv; reflexivity|lia]).
Qed.

Lemma isDigit_digitValue c :
  Validator.isDigit c = true → ∃ d, JS.digitValue c = Some d ∧ 0 ≤ d < 10.
Proof.
  unfold Validator.isDigit, JS.digitValue. intros H. rewrite H.
  eexists; split; [done|].
  destruct (andb_prop _ _ H) as [?%N.leb_le ?%N.leb_le]. lia.
Qed.

Lemma isDigit_not_space c :
  Validator.isDigit c = true → JS.isWhiteSpace c = false.
Proof.
  unfold Validator.isDigit, JS.isWhiteSpace. intros H.
  destruct (andb_prop _ _ H) as [?%N.leb_le ?%N.leb_le].
  apply orb_false_iff; split; [apply orb_false_iff; split|].
  - apply andb_false_iff. right. apply N.leb_gt. lia.
  - apply N.eqb_neq. lia.
  - apply N.eqb_neq. lia.
Qed.

Lemma allDigits_string_of_uint u :
  Validator.allDigits (NilEmpty.string_of_uint u) = true.
Proof. induction u; simpl; [done|exact IHu..]. Qed.

Lemma allDigits_uint ds :
  Validator.allDigits ds = true ↔
  ∃ u, NilEmpty.uint_of_string ds = Some u.
Proof.
  split.
  - induction ds as [|c ds IH]; simpl; [eauto|].
    intros [Hc [u Hu]%IH]%andb_prop. rewrite Hu. clear -Hc.
    code_unit_cases c; try discriminate Hc;
      simpl; eauto.
  - intros [u <-%NilEmpty.sus]. apply allDigits_string_of_uint.
Qed.

(** On a non-empty string of decimal digits [parseInt] reads all of it,
    in radix 10. *)
Lemma parseInt_digits ds :
  ds ≠ EmptyString → Validator.allDigits ds = true →
  JS.stripHexPrefix ds = (10, ds) ∧ JS.stripSign ds = (1, ds) ∧
  JS.trimStart ds = ds.
Proof.
  destruct ds as [|c ds]; [done|]. intros _ [Hc Hds]%andb_prop.
  split_and!.
  - destruct ds as [|c' ds]; [by code_unit_cases c|].
    apply andb_prop in Hds as [Hc' _].
    code_unit_cases c; try done;
      code_unit_cases c'; done.
  - code_unit_cases c; done.
  - simpl. by rewrite (isDigit_not_space c Hc).
Qed.

Lemma decimalInt_denotes v n :
  Validator.decimalInt v = Some n ↔ denotesInteger v n.
Proof.
  unfold Validator.decimalInt, denotesInteger.
  destruct (JS.stripSign v) as [sign ds]. split.
  - destruct (negb (JS.isEmpty ds) && Validator.allDigits ds) eqn:H; [|done].
    apply andb_prop in H as [Hne%negb_true_iff%isEmpty_false Hds].
    destruct (proj1 (allDigits_uint ds) Hds) as [u Hu].
    pose proof (NilEmpty.sus _ _ Hu) as <-.
    rewrite parseDigits_uint by (by intros ->).
    intros [= <-]. exists sign, (NilEmpty.string_of_uint u), u.
    split_and!; try done. by destruct u.
  - intros (sign' & ds' & u & [= <- <-] & Hne & Hu & ->).
    assert (NilEmpty.uint_of_string ds = Some u) as Hu'
      by (by destruct ds).
    rewrite (proj2 (isEmpty_false ds) Hne).
    rewrite (proj2 (allDigits_uint ds)) by eauto. simpl.
    pose proof (NilEmpty.sus _ _ Hu') as <-.
    rewrite parseDigits_uint; [done|]. by intros ->.
Qed.

(** What the validator accepts as an integer, [parseInt] reads as the
    same integer. *)
Lemma decimalInt_parseInt v n :
  Validator.decimalInt v = Some n → JS.parseInt v = Some n.
Proof.
  unfold Validator.decimalInt, JS.parseInt.
  destruct (JS.stripSign v) as [sign ds] eqn:Hv.
  destruct (negb (JS.isEmpty ds) && Validator.allDigits ds) eqn:H; [|done].
  apply andb_prop in H as [Hne%negb_true_iff%isEmpty_false Hds].
  destruct (parseInt_digits ds Hne Hds) as (Hhex & Hsign & Htrim).
  assert (JS.stripSign (JS.trimStart v) = (sign, ds)) as ->.
  { destruct v as [|c v]; [done|]. destruct ds as [|d ds]; [done|].
    apply andb_prop in Hds as [Hd _].
    assert (JS.isWhiteSpace c = false) as Hc.
    { unfold JS.stripSign in Hv.
      code_unit_cases c; try reflexivity;
        simpl in Hv; simplify_eq; done. }
    simpl JS.trimStart. by rewrite Hc. }
  by rewrite Hhex.
Qed.

Lemma numberToString_digits n :
  JS.numberToString n ≠ EmptyString ∧
  Validator.allDigits (JS.numberToString n) = true ∧
  (0 ≤ n → JS.parseDigits 10 (JS.numberToString n) None = Some n).
Proof.
  unfold JS.numberToString.
  assert (N.to_uint (Z.to_N n) ≠ Decimal.Nil) as Hnil.
  { destruct (Z.to_N n); [done|]. apply DecimalPos.Unsigned.to_uint_nonnil. }
  assert (NilZero.string_of_uint (N.to_uint (Z.to_N n)) =
          NilEmpty.string_of_uint (N.to_uint (Z.to_N n))) as ->.
  { by destruct (N.to_uint (Z.to_N n)). }
  split_and!.
  - by destruct (N.to_uint (Z.to_N n)).
  - apply allDigits_string_of_uint.
  - intros Hn. rewrite parseDigits_uint by done.
    rewrite DecimalN.Unsigned.of_to. f_equal. lia.
Qed.

(** Round trip of a non-negative integer through its decimal rendering. *)
Lemma parseInt_numberToString n :
  0 ≤ n → JS.parseInt (JS.numberToString n) = Some n.
Proof.
  intros Hn. destruct (numberToString_digits n) as (Hne & Hds & Hparse).
  destruct (parseInt_digits _ Hne Hds) as (Hhex & Hsign & Htrim).
  unfold JS.parseInt. rewrite Htrim, Hsign, Hhex, Hparse by done.
  f_equal. lia.
Qed.

Lemma decimalInt_numberToString n :
  0 ≤ n → Validator.decimalInt (JS.numberToString n) = Some n.
Proof.
  intros Hn. destruct (numberToString_digits n) as (Hne & Hds & Hparse).
  destruct (parseInt_digits _ Hne Hds) as (_ & Hsign & _).
  unfold Validator.decimalInt. rewrite Hsign, Hds, Hparse by done.
  rewrite (proj2 (isEmpty_false _) Hne). simpl. f_equal. lia.
Qed.

Lemma digitValue_not_digit c :
  Validator.isDigit c = false →
  match JS.digitValue c with Some d => 10 ≤ d | None => True end.
Proof.
  unfold Validator.isDigit, JS.digitValue. cbv zeta. intros ->.
  destruct ((97 <=? JS.charCode c) && (JS.charCode c <=? 122))%N eqn:H1.
  { apply andb_prop in H1 as [?%N.leb_le _]. lia. }
  destruct ((65 <=? JS.charCode c) && (JS.charCode c <=? 90))%N eqn:H2.
  { apply andb_prop in H2 as [?%N.leb_le _]. lia. }
  done.
Qed.

Lemma parseDigits_stop c s acc :
  Validator.isDigit c = false → JS.parseDigits 10 (String c s) acc = acc.
Proof.
  intros Hc%digitValue_not_digit. simpl.
  destruct (JS.digitValue c) as [d|]; [|done].
  by destruct (Z.ltb_spec d 10); [lia|].
Qed.

Lemma parseDigits_prefix ds rest acc :
  Validator.allDigits ds = true → noDigitAhead rest →
  JS.parseDigits 10 (ds +:+ rest) acc = JS.parseDigits 10 ds acc.
Proof.
  intros Hds Hrest. revert acc.
  induction ds as [|c ds IH]; intros acc.
  - simpl. destruct rest as [|c r]; [done|]. by apply parseDigits_stop.
  - apply andb_prop in Hds as [Hc Hds].
    destruct (isDigit_digitValue c Hc) as (d & Hd & ?).
    change (String c ds +:+ rest) with (String c (ds +:+ rest)).
    rewrite !(parseDigits_step 10 c _ acc d) by (done || lia). by apply IH.
Qed.

Lemma append_assoc_char c s r : String c s +:+ r = String c (s +:+ r).
Proof. done. Qed.

(** A decimal integer literal followed by a comma is read by [parseInt]
    as the literal alone: this is how it reads an array from its first
    element. *)
Lemma decimalInt_parseInt_comma v r n :
  Validator.decimalInt v = Some n →
  JS.parseInt (v +:+ "," +:+ r) = Some n.
Proof.
  unfold Validator.decimalInt, JS.parseInt.
  destruct (JS.stripSign v) as [sign ds] eqn:Hv.
  destruct (negb (JS.isEmpty ds) && Validator.allDigits ds) eqn:H; [|done].
  apply andb_prop in H as [Hne%negb_true_iff%isEmpty_false Hds].
  assert (JS.parseDigits 10 (ds +:+ "," +:+ r) None =
          JS.parseDigits 10 ds None) as Hparse
    by (by apply parseDigits_prefix).
  destruct ds as [|d ds]; [done|].
  pose proof Hds as Hds'. apply andb_prop in Hds' as [Hd Hrest].
  assert (JS.stripHexPrefix (String d ds +:+ "," +:+ r) =
          (10, String d ds +:+ "," +:+ r)) as Hhex.
  { destruct ds as [|d' ds].
    - simpl. code_unit_cases d; done.
    - apply andb_prop in Hrest as [Hd' _]. simpl.
      code_unit_cases d; try done; code_unit_cases d'; done. }
  assert (JS.stripSign (JS.trimStart (v +:+ "," +:+ r)) =
          (sign, String d ds +:+ "," +:+ r)) as ->.
  { destruct v as [|c v]; [done|].
    assert (JS.isWhiteSpace c = false) as Hc.
    { unfold JS.stripSign in Hv.
      code_unit_cases c; try reflexivity;
        simpl in Hv; simplify_eq; done. }
    rewrite append_assoc_char. simpl JS.trimStart. rewrite Hc.
    unfold JS.stripSign in Hv |- *.
    code_unit_cases c; simpl in Hv |- *; simplify_eq; try done. }
  rewrite Hhex, Hparse. done.
Qed.

Lemma parseInt_join_head x rest n :
  Validator.decimalInt x = Some n →
  JS.parseInt (JS.join (x :: rest)) = Some n.
Proof.
  intros Hx. destruct rest as [|y rest].
  - by apply decimalInt_parseInt.
  - cbn [JS.join]. by apply decimalInt_parseInt_comma.
Qed.
(** ** The validation chain *)

Lemma elem_of_runChain e field v rules :
  e ∈ runChain field v rules ↔
  ∃ (r : Rule) x,
    r ∈ rules ∧ x ∈ Value.elements v ∧ r.1 x = false ∧
    e = {| path := field; msg := r.2 |}.
Proof.
  unfold runChain. rewrite list_elem_of_In, in_flat_map. split.
  - intros (r & Hr%list_elem_of_In & (x & Hx%list_elem_of_In & He)%in_flat_map).
    destruct (r.1 x) eqn:Hrx; [done|].
    destruct He as [<-|[]]. by exists r, x.
  - intros (r & x & Hr & Hx & Hrx & ->). exists r.
    split; [by apply list_elem_of_In|]. apply in_flat_map. exists x.
    split; [by apply list_elem_of_In|]. rewrite Hrx. by left.
Qed.

Lemma runChain_reports field field' v rules :
  (∃ m, {| path := field; msg := m |} ∈ runChain field' v rules) ↔
  field = field' ∧
  ∃ (r : Rule) x, r ∈ rules ∧ x ∈ Value.elements v ∧ r.1 x = false.
Proof.
  split.
  - intros (m & (r & x & ? & ? & ? & [= -> ->])%elem_of_runChain).
    split; [done|]. by exists r, x.
  - intros [-> (r & x & ? & ? & ?)]. exists r.2.
    apply elem_of_runChain. by exists r, x.
Qed.

Lemma notEmpty_spec s : Validator.notEmpty s = true ↔ s ≠ EmptyString.
Proof. unfold Validator.notEmpty. by rewrite negb_true_iff, isEmpty_false. Qed.

Lemma isLength_spec min max s :
  Validator.isLength min max s = true ↔
  (min ≤ String.length s ≤ max)%nat.
Proof.
  unfold Validator.isLength. cbv zeta.
  by rewrite andb_true_iff, !Nat.leb_le.
Qed.

Lemma length_nonempty s : s ≠ EmptyString ↔ (1 ≤ String.length s)%nat.
Proof. destruct s; simpl; split; try done; lia. Qed.

Lemma runChain_elem field m field' v rules :
  {| path := field; msg := m |} ∈ runChain field' v rules →
  field = field' ∧
  ∃ (r : Rule) x, r ∈ rules ∧ x ∈ Value.elements v ∧ r.1 x = false.
Proof. intros H. apply runChain_reports. eauto. Qed.

Lemma elements_sanitized f v :
  Value.elements (Value.sanitized f v) = f <$> Value.elements v.
Proof. by destruct v. Qed.

Lemma fieldOk_elements rule v :
  fieldOk rule v ↔ ∀ x, x ∈ Value.elements v → rule x.
Proof.
  destruct v as [s|l]; simpl.
  - split; [by intros ? x ->%list_elem_of_singleton|].
    intros H. apply H. by apply list_elem_of_singleton.
  - apply Forall_forall.
Qed.

#[local] Instance fieldOk_dec rule v :
  (∀ x, Decision (rule x)) → Decision (fieldOk rule v).
Proof. intros ?. destruct v; simpl; apply _. Defined.

(** A chain whose validators, run on [f x], reject exactly the strings
    that break [rule], rejects some element of a field sanitized by [f]
    exactly when the field breaks the rule. *)
Lemma chain_fieldOk (rules : list Rule) (rule : string → Prop) f v :
  (∀ x, Decision (rule x)) →
  (∀ x, (∃ r : Rule, r ∈ rules ∧ r.1 (f x) = false) ↔ ¬ rule x) →
  (∃ (r : Rule) y,
     r ∈ rules ∧ y ∈ f <$> Value.elements v ∧ r.1 y = false) ↔
  ¬ fieldOk rule v.
Proof.
  intros Hdec Hrules. rewrite fieldOk_elements. split.
  - intros (r & y & Hr & (x & -> & Hx)%list_elem_of_fmap & Hy) Hall.
    apply (proj1 (Hrules x)); eauto.
  - intros Hno.
    destruct (decide (Exists (λ x, ¬ rule x) (Value.elements v)))
      as [Hex|Hnex].
    + apply Exists_exists in Hex as (x & Hx & Hbad).
      apply Hrules in Hbad as (r & Hr & Hrx).
      exists r, (f x). split; [done|]. split; [|done].
      apply list_elem_of_fmap. eauto.
    + destruct Hno. intros x Hx.
      destruct (decide (rule x)) as [|Hbad]; [done|].
      destruct Hnex. apply Exists_exists. eauto.
Qed.

Lemma text_rules_ok max v m1 m2 :
  (∃ r : Rule,
     r ∈ [(Validator.notEmpty, m1); (Validator.isLength 1 max, m2)] ∧
     r.1 (JS.trim v) = false) ↔ ¬ textOk max v.
Proof.
  unfold textOk. split.
  - intros (r & Hr & Hv) [Hne Hlen].
    apply elem_of_cons in Hr as [->|Hr];
      [|apply list_elem_of_singleton in Hr as ->]; simpl in Hv.
    + apply notEmpty_spec in Hne. congruence.
    + apply length_nonempty in Hne.
      assert (Validator.isLength 1 max (JS.trim v) = true)
        by (by apply isLength_spec).
      congruence.
  - intros Hno. destruct (decide (JS.trim v = EmptyString)) as [He|Hne].
    + exists (Validator.notEmpty, m1). split; [apply elem_of_cons; auto|].
      simpl. by rewrite He.
    + exists (Validator.isLength 1 max, m2).
      split; [apply elem_of_cons; right; apply elem_of_cons; auto|].
      simpl. apply not_true_is_false. intros [_ ?]%isLength_spec. auto.
Qed.

Lemma genre_rules_ok v m1 m2 :
  (∃ r : Rule,
     r ∈ [(Validator.notEmpty, m1); (Validator.isIn genres, m2)] ∧
     r.1 (JS.trim v) = false) ↔ ¬ genreOk v.
Proof.
  unfold genreOk, Validator.isIn. split.
  - intros (r & Hr & Hv) Hin.
    apply elem_of_cons in Hr as [->|Hr];
      [|apply list_elem_of_singleton in Hr as ->]; simpl in Hv.
    + apply negb_false_iff, isEmpty_true in Hv. rewrite Hv in Hin.
      by apply (bool_decide_pack _) in Hin.
    + by apply bool_decide_eq_false in Hv.
  - intros Hno. exists (Validator.isIn genres, m2).
    split; [apply elem_of_cons; right; apply elem_of_cons; auto|].
    by apply bool_decide_eq_false.
Qed.

Lemma isInt_spec lo hi v :
  Validator.isInt lo hi v = true ↔
  ∃ n, denotesInteger v n ∧ lo ≤ n ≤ hi.
Proof.
  unfold Validator.isInt. split.
  - destruct (Validator.decimalInt v) as [n|] eqn:Hv; [|done].
    intros [?%Z.leb_le ?%Z.leb_le]%andb_prop.
    exists n. by rewrite <- decimalInt_denotes.
  - intros (n & ->%decimalInt_denotes & ? & ?).
    apply andb_true_iff. split; apply Z.leb_le; done.
Qed.

Lemma year_rules_ok v m :
  (∃ r : Rule,
     r ∈ [(Validator.isInt 1000 currentYear, m)] ∧ r.1 v = false) ↔
  ¬ yearOk currentYear v.
Proof.
  unfold yearOk. rewrite <- isInt_spec. split.
  - intros (r & ->%list_elem_of_singleton & Hv). simpl in Hv. congruence.
  - intros Hno%not_true_is_false.
    eexists; split; [by apply list_elem_of_singleton|done].
Qed.

#[local] Instance textOk_dec max v : Decision (textOk max v).
Proof. unfold textOk. apply _. Defined.

#[local] Instance genreOk_dec v : Decision (genreOk v).
Proof. unfold genreOk. apply _. Defined.

Lemma yearOk_dec v : Decision (yearOk currentYear v).
Proof.
  destruct (Validator.isInt 1000 currentYear v) eqn:H; [left|right].
  - by apply isInt_spec.
  - intros H'%isInt_spec. congruence.
Defined.

Lemma title_chain_ok max v m1 m2 :
  (∃ (r : Rule) y,
     r ∈ [(Validator.notEmpty, m1); (Validator.isLength 1 max, m2)] ∧
     y ∈ Value.elements (Value.sanitized JS.trim v) ∧ r.1 y = false) ↔
  ¬ fieldOk (textOk max) v.
Proof.
  rewrite elements_sanitized. apply chain_fieldOk; [apply _|].
  intros x. apply text_rules_ok.
Qed.

Lemma genre_chain_ok v m1 m2 :
  (∃ (r : Rule) y,
     r ∈ [(Validator.notEmpty, m1); (Validator.isIn genres, m2)] ∧
     y ∈ Value.elements (Value.sanitized JS.trim v) ∧ r.1 y = false) ↔
  ¬ fieldOk genreOk v.
Proof.
  rewrite elements_sanitized. apply chain_fieldOk; [apply _|].
  intros x. apply genre_rules_ok.
Qed.

Lemma year_chain_ok v m :
  (∃ (r : Rule) y,
     r ∈ [(Validator.isInt 1000 currentYear, m)] ∧
     y ∈ Value.elements v ∧ r.1 y = false) ↔
  ¬ fieldOk (yearOk currentYear) v.
Proof.
  rewrite <- (list_fmap_id (Value.elements v)).
  apply (chain_fieldOk _ _ id); [exact yearOk_dec|].
  intros x. apply year_rules_ok.
Qed.

Lemma bookValidation_reports body field :
  (∃ m, {| path := field; msg := m |} ∈ bookValidation body) ↔
  Violation currentYear body field.
Proof.
  unfold bookValidation. cbv zeta.
  unfold sanitize; cbn [Body.title Body.author Body.genre
    Body.publicationYear Body.description].
  split.
  - intros (m & Hin). rewrite !elem_of_app in Hin.
    destruct Hin as [Hin|[Hin|[Hin|[Hin|Hin]]]];
      apply runChain_elem in Hin as [-> H].
    + by apply title_chain_ok, (bad_title currentYear) in H.
    + by apply title_chain_ok, (bad_author currentYear) in H.
    + by apply genre_chain_ok, (bad_genre currentYear) in H.
    + by apply year_chain_ok, (bad_publicationYear currentYear) in H.
    + by apply title_chain_ok, (bad_description currentYear) in H.
  - intros [H|H|H|H|H];
      [eapply title_chain_ok in H | eapply title_chain_ok in H
      |eapply genre_chain_ok in H | eapply year_chain_ok in H
      |eapply title_chain_ok in H];
      match goal with
      | |- ∃ m, {| path := ?f; msg := _ |} ∈ _ =>
          destruct (proj2 (runChain_reports f _ _ _) (conj eq_refl H))
            as [m Hm]
      end;
      exists m; rewrite !elem_of_app; eauto 6.
Qed.

Lemma bookValidation_nil body :
  bookValidation body = [] ↔
  fieldOk (textOk 200) (Body.title body) ∧
  fieldOk (textOk 100) (Body.author body) ∧
  fieldOk genreOk (Body.genre body) ∧
  fieldOk (yearOk currentYear) (Body.publicationYear body) ∧
  fieldOk (textOk 1000) (Body.description body).
Proof.
  split.
  - intros Hnil.
    assert (∀ f, ¬ Violation currentYear body f) as Hno.
    { intros f [m Hm]%bookValidation_reports.
      rewrite Hnil in Hm. by apply elem_of_nil in Hm. }
    split_and!.
    + destruct (decide (fieldOk (textOk 200) (Body.title body)))
        as [|H]; [done|].
      by apply (bad_title currentYear), Hno in H.
    + destruct (decide (fieldOk (textOk 100) (Body.author body)))
        as [|H]; [done|].
      by apply (bad_author currentYear), Hno in H.
    + destruct (decide (fieldOk genreOk (Body.genre body)))
        as [|H]; [done|].
      by apply (bad_genre currentYear), Hno in H.
    + destruct (fieldOk_dec (yearOk currentYear)
                  (Body.publicationYear body) yearOk_dec) as [|H]; [done|].
      by apply (bad_publicationYear currentYear), Hno in H.
    + destruct (decide (fieldOk (textOk 1000) (Body.description body)))
        as [|H]; [done|].
      by apply (bad_description currentYear), Hno in H.
  - intros (Ht & Ha & Hg & Hy & Hd).
    destruct (bookValidation body) as [|[f m] errs] eqn:Hb; [done|].
    assert (Violation currentYear body f) as Hv.
    { apply bookValidation_reports. exists m. rewrite Hb. apply elem_of_cons; auto. }
    destruct Hv; done.
Qed.

(** ** The handlers, one request at a time *)

Lemma handle_post_valid body s :
  bookValidation body = [] →
  handle (PostBook body) s = createBook (sanitize body) s.
Proof. intros H. simpl. unfold handleValidationErrors. by rewrite H. Qed.

Lemma handle_put_valid id body s :
  bookValidation body = [] →
  handle (PutBook id body) s = updateBook id (sanitize body) s.
Proof. intros H. simpl. unfold handleValidationErrors. by rewrite H. Qed.


Lemma findBookById_Some bks id book :
  findBookById bks id = Some book ↔
  ∃ i, list_find (hasId (JS.parseInt id)) bks = Some (i, book).
Proof.
  unfold findBookById.
  destruct (list_find _ bks) as [[i b]|]; simpl; split.
  - intros [= ->]. eauto.
  - by intros [? [= _ ->]].
  - done.
  - by intros [? ?].
Qed.

(** The year stored by a handler for a body that passed validation. *)
Lemma valid_year body :
  bookValidation body = [] →
  yearRead (Body.publicationYear body)
    (Value.parseInt (Body.publicationYear body)) ∧
  (∀ year, Value.parseInt (Body.publicationYear body) = Some year →
           1000 ≤ year ≤ currentYear) ∧
  (Body.publicationYear body ≠ Items [] →
   ∃ year, Value.parseInt (Body.publicationYear body) = Some year).
Proof.
  intros (_ & _ & _ & Hy & _)%bookValidation_nil.
  unfold Value.parseInt.
  destruct (Body.publicationYear body) as [v|[|x rest]];
    cbn [fieldOk yearRead Value.toString] in *.
  - destruct Hy as (n & Hn & ?).
    assert (JS.parseInt v = Some n) as ->
      by (by apply decimalInt_parseInt, decimalInt_denotes).
    split_and!; [by exists n|by intros ? [= <-]|by exists n].
  - split_and!; [done|done|done].
  - apply Forall_cons in Hy as [(n & Hn & ?) _].
    assert (JS.parseInt (JS.join (x :: rest)) = Some n) as ->
      by (by apply parseInt_join_head, decimalInt_denotes).
    split_and!; [by exists n|by intros ? [= <-]|by exists n].
Qed.

(** The four text properties computed for a body that passed
    validation. *)
Lemma valid_texts body title author genre description :
  bookValidation body = [] →
  textFields body title author genre description →
  textOk 200 title ∧ textOk 100 author ∧ genreOk genre ∧
  textOk 1000 description.
Proof.
  intros (Ht & Ha & Hg & _ & Hd)%bookValidation_nil (Et & Ea & Eg & Ed).
  rewrite Et in Ht. rewrite Ea in Ha. rewrite Eg in Hg. rewrite Ed in Hd.
  done.
Qed.


(** ** Distinct keys under the three array updates *)

Lemma distinctBy_snoc {K} (key : Book.t → K) bks book :
  distinctBy key bks →
  (∀ other, other ∈ bks → key other ≠ key book) →
  distinctBy key (bks ++ [book]).
Proof.
  intros Hd Hnew i j b1 b2 H1 H2 Hk.
  apply lookup_app_Some in H1 as [H1|[Hi H1]];
    apply lookup_app_Some in H2 as [H2|[Hj H2]].
  - eauto.
  - apply list_lookup_singleton_Some in H2 as [_ <-].
    apply list_elem_of_lookup_2 in H1. by destruct (Hnew b1).
  - apply list_lookup_singleton_Some in H1 as [_ <-].
    apply list_elem_of_lookup_2 in H2. by destruct (Hnew b2).
  - apply list_lookup_singleton_Some in H1 as [? _].
    apply list_lookup_singleton_Some in H2 as [? _]. lia.
Qed.

Lemma distinctBy_delete {K} (key : Book.t → K) bks k :
  distinctBy key bks → distinctBy key (delete k bks).
Proof.
  intros Hd i j b1 b2 H1 H2 Hk.
  rewrite list_lookup_delete in H1, H2.
  repeat case_decide; pose proof (Hd _ _ _ _ H1 H2 Hk); lia.
Qed.

Lemma distinctBy_insert {K} (key : Book.t → K) bks k book :
  distinctBy key bks →
  (∀ j other, j ≠ k → bks !! j = Some other → key other ≠ key book) →
  distinctBy key (<[k := book]> bks).
Proof.
  intros Hd Hnew i j b1 b2 H1 H2 Hk.
  apply list_lookup_insert_Some in H1 as [(<- & <- & _)|[Hi H1]];
    apply list_lookup_insert_Some in H2 as [(<- & <- & _)|[Hj H2]].
  - done.
  - by destruct (Hnew j b2).
  - by destruct (Hnew i b1).
  - eauto.
Qed.

Lemma sameTitleAuthor_key title author book :
  sameTitleAuthor title author book ↔
  titleAuthorKey book = (JS.toLowerCase title, JS.toLowerCase author).
Proof.
  unfold sameTitleAuthor, titleAuthorKey. split.
  - by intros [-> ->].
  - by intros [= -> ->].
Qed.

(** ** [find] with a callback that may throw *)

Lemma arrayFind_found callback bks book :
  arrayFind callback bks = Some (Some book) →
  book ∈ bks ∧ callback book = Some true.
Proof.
  induction bks as [|b bks IH]; simpl; [done|].
  destruct (callback b) as [[]|] eqn:Hb; [| |done].
  - intros [= <-]. split; [apply elem_of_cons; auto|done].
  - intros [Hin ?]%IH. split; [apply elem_of_cons; auto|done].
Qed.

Lemma arrayFind_absent callback bks :
  arrayFind callback bks = Some None ↔
  ∀ book, book ∈ bks → callback book = Some false.
Proof.
  induction bks as [|b bks IH]; simpl.
  - split; [by intros _ book ?%elem_of_nil|done].
  - split.
    + destruct (callback b) as [[]|] eqn:Hb; [done| |done].
      intros Hrest book [->|Hin]%elem_of_cons; [done|].
      by apply (proj1 IH Hrest).
    + intros Hall. rewrite (Hall b) by (apply elem_of_cons; auto).
      apply IH. intros book Hin. apply Hall, elem_of_cons. auto.
Qed.

(** With a callback that never throws, [find] is the pure search. *)
Lemma arrayFind_pure callback (P : Book.t → Prop)
    `{!∀ book, Decision (P book)} bks :
  (∀ book, book ∈ bks → callback book = Some (bool_decide (P book))) →
  arrayFind callback bks = Some (snd <$> list_find P bks).
Proof.
  induction bks as [|b bks IH]; intros Hall; simpl; [done|].
  rewrite (Hall b) by (apply elem_of_cons; auto).
  case_bool_decide as Hb.
  - by rewrite decide_True.
  - rewrite decide_False by done.
    rewrite IH by (intros book Hin; apply Hall, elem_of_cons; auto).
    by destruct (list_find P bks) as [[i x]|].
Qed.

Lemma titleAuthorMatch_text title author book :
  titleAuthorMatch (Text title) (Text author) book =
  Some (bool_decide (sameTitleAuthor title author book)).
Proof.
  unfold titleAuthorMatch, sameTitleAuthor. simpl.
  clear currentYear now. repeat case_bool_decide; try done; tauto.
Qed.

Lemma titleAuthorMatch_true title author book :
  titleAuthorMatch title author book = Some true →
  ∃ t a, title = Text t ∧ author = Text a ∧ sameTitleAuthor t a book.
Proof.
  destruct title as [t|?]; [|done]. destruct author as [a|?].
  - rewrite titleAuthorMatch_text. intros [= H%bool_decide_eq_true].
    by exists t, a.
  - unfold titleAuthorMatch. simpl. by case_bool_decide.
Qed.

(** ** The object literals *)

Lemma newBook_Some id body t1 t2 book :
  newBook id body t1 t2 = Some book ↔
  ∃ title author genre description,
    textFields body title author genre description ∧
    book =
      {| Book.id := id;
         Book.title := JS.trim title;
         Book.author := JS.trim author;
         Book.genre := JS.trim genre;
         Book.publicationYear := Value.parseInt (Body.publicationYear body);
         Book.description := JS.trim description;
         Book.createdAt := t1;
         Book.updatedAt := t2 |}.
Proof.
  unfold newBook, textFields.
  destruct (Body.title body) as [t|?], (Body.author body) as [a|?],
    (Body.genre body) as [g|?], (Body.description body) as [d|?];
    simpl; split;
    try done; try (by intros (? & ? & ? & ? & (? & ? & ? & ?) & _)).
  - intros [= <-]. by exists t, a, g, d.
  - by intros (? & ? & ? & ? & ([= <-] & [= <-] & [= <-] & [= <-]) & ->).
Qed.

Lemma newBook_None id body t1 t2 :
  newBook id body t1 t2 = None ↔ arrayField body.
Proof.
  unfold newBook, arrayField.
  destruct (Body.title body) as [t|lt], (Body.author body) as [a|la],
    (Body.genre body) as [g|lg], (Body.description body) as [d|ld];
    simpl; split; try done; try (intros _; eexists; eauto; fail).
  by intros (l & [|[|[|]]]).
Qed.

Lemma updatedBook_Some current body t book :
  updatedBook current body t = Some book ↔
  ∃ title author genre description,
    textFields body title author genre description ∧
    book =
      {| Book.id := Book.id current;
         Book.title := JS.trim title;
         Book.author := JS.trim author;
         Book.genre := JS.trim genre;
         Book.publicationYear := Value.parseInt (Body.publicationYear body);
         Book.description := JS.trim description;
         Book.createdAt := Book.createdAt current;
         Book.updatedAt := t |}.
Proof.
  unfold updatedBook, textFields.
  destruct (Body.title body) as [ti|?], (Body.author body) as [a|?],
    (Body.genre body) as [g|?], (Body.description body) as [d|?];
    simpl; split;
    try done; try (by intros (? & ? & ? & ? & (? & ? & ? & ?) & _)).
  - intros [= <-]. by exists ti, a, g, d.
  - by intros (? & ? & ? & ? & ([= <-] & [= <-] & [= <-] & [= <-]) & ->).
Qed.

Lemma updatedBook_None current body t :
  updatedBook current body t = None ↔ arrayField body.
Proof.
  unfold updatedBook, arrayField.
  destruct (Body.title body) as [ti|lt], (Body.author body) as [a|la],
    (Body.genre body) as [g|lg], (Body.description body) as [d|ld];
    simpl; split; try done; try (intros _; eexists; eauto; fail).
  by intros (l & [|[|[|]]]).
Qed.


(** The callback of [find] throws only on an array. *)
Lemma arrayFind_thrown title author (skip : Book.t → Prop)
    `{!∀ book, Decision (skip book)} bks :
  arrayFind (λ book, if decide (skip book) then Some false
                     else titleAuthorMatch title author book) bks = None →
  ∃ l, title = Items l ∨ author = Items l.
Proof.
  destruct title as [t|l]; [|eauto]. destruct author as [a|l]; [|eauto].
  rewrite (arrayFind_pure _ (λ book, ¬ skip book ∧ sameTitleAuthor t a book));
    [done|].
  clear currentYear now. intros book _. case_decide.
  - by rewrite bool_decide_eq_false_2 by tauto.
  - rewrite titleAuthorMatch_text. apply f_equal, bool_decide_ext. tauto.
Qed.

Lemma arrayFind_create_thrown title author bks :
  arrayFind (titleAuthorMatch title author) bks = None →
  ∃ l, title = Items l ∨ author = Items l.
Proof.
  destruct title as [t|l]; [|eauto]. destruct author as [a|l]; [|eauto].
  rewrite (arrayFind_pure _ (sameTitleAuthor t a)); [done|].
  intros book _. apply titleAuthorMatch_text.
Qed.

(** ** The outcomes of the three mutating handlers *)

Lemma createBook_cases body s :
  (createBook body s = (conflict, s) ∧
   ∃ title author book,
     Body.title body = Text title ∧ Body.author body = Text author ∧
     book ∈ books s ∧ sameTitleAuthor title author book) ∨
  (createBook body s = (failed "Failed to create book", s) ∧
   arrayField body) ∨
  (createBook body s =
     (failed "Failed to create book",
      {| books := books s; nextId := nextId s + 1;
         dateReads := dateReads s |}) ∧
   arrayField body) ∨
  (∃ title author genre description,
     textFields body title author genre description ∧
     let book :=
       {| Book.id := nextId s;
          Book.title := JS.trim title;
          Book.author := JS.trim author;
          Book.genre := JS.trim genre;
          Book.publicationYear := Value.parseInt (Body.publicationYear body);
          Book.description := JS.trim description;
          Book.createdAt := now (dateReads s);
          Book.updatedAt := now (S (dateReads s)) |} in
     createBook body s =
       ({| status := 201; success := true;
           message := Some "Book created successfully";
           data := OneBook book |},
        {| books := books s ++ [book]; nextId := nextId s + 1;
           dateReads := S (S (dateReads s)) |}) ∧
     ∀ other, other ∈ books s → ¬ sameTitleAuthor title author other).
Proof.
  unfold createBook.
  destruct (arrayFind _ (books s)) as [[existing|]|] eqn:Hfind.
  - left. split; [done|].
    apply arrayFind_found in Hfind as [Hin (t & a & ? & ? & ?)%titleAuthorMatch_true].
    by exists t, a, existing.
  - destruct (newBook _ _ _ _) as [book|] eqn:Hnew.
    + do 3 right. apply newBook_Some in Hnew as (t & a & g & d & Hf & ->).
      exists t, a, g, d. split; [done|]. split; [done|].
      intros other Hin Hsame. destruct Hf as (Ht & Ha & _).
      rewrite Ht, Ha in Hfind.
      pose proof (proj1 (arrayFind_absent _ _) Hfind other Hin) as Hno.
      rewrite titleAuthorMatch_text in Hno.
      injection Hno as Hno%bool_decide_eq_false. done.
    + right. right. left. split; [done|]. by apply newBook_None in Hnew.
  - right. left. split; [done|].
    apply arrayFind_create_thrown in Hfind as (l & [H|H]);
      exists l; auto.
Qed.

Lemma updateBook_cases id body s :
  (updateBook id body s = (notFound, s) ∧
   ∀ book, book ∈ books s → ¬ hasId (JS.parseInt id) book) ∨
  (∃ i current,
     list_find (hasId (JS.parseInt id)) (books s) = Some (i, current) ∧
     ((updateBook id body s = (conflict, s) ∧
       ∃ title author other,
         Body.title body = Text title ∧ Body.author body = Text author ∧
         other ∈ books s ∧ Book.id other ≠ Book.id current ∧
         sameTitleAuthor title author other) ∨
      (updateBook id body s = (failed "Failed to update book", s) ∧
       arrayField body) ∨
      (∃ title author genre description,
         textFields body title author genre description ∧
         let book :=
           {| Book.id := Book.id current;
              Book.title := JS.trim title;
              Book.author := JS.trim author;
              Book.genre := JS.trim genre;
              Book.publicationYear :=
                Value.parseInt (Body.publicationYear body);
              Book.description := JS.trim description;
              Book.createdAt := Book.createdAt current;
              Book.updatedAt := now (dateReads s) |} in
         updateBook id body s =
           (ok (Some "Book updated successfully") (OneBook book),
            {| books := <[i := book]> (books s); nextId := nextId s;
               dateReads := S (dateReads s) |}) ∧
         ∀ other, other ∈ books s →
           sameTitleAuthor title author other →
           Book.id other = Book.id current))).
Proof.
  unfold updateBook.
  destruct (list_find (hasId _) (books s)) as [[i current]|] eqn:Hfind.
  - right. exists i, current. split; [done|].
    apply list_find_Some in Hfind as (Hi & Hcur & _). unfold hasId in Hcur.
    destruct (arrayFind _ (books s)) as [[existing|]|] eqn:Hdup.
    + left. split; [done|].
      apply arrayFind_found in Hdup as [Hin Hmatch].
      case_decide as Hid; [done|].
      apply titleAuthorMatch_true in Hmatch as (t & a & ? & ? & ?).
      exists t, a, existing. split_and!; try done.
      intros Heq. apply Hid. unfold hasId. by rewrite Heq.
    + destruct (updatedBook _ _ _) as [book|] eqn:Hnew.
      * right. right.
        apply updatedBook_Some in Hnew as (t & a & g & d & Hf & ->).
        exists t, a, g, d. split; [done|]. split; [done|].
        intros other Hin Hsame. destruct Hf as (Ht & Ha & _).
        rewrite Ht, Ha in Hdup.
        pose proof (proj1 (arrayFind_absent _ _) Hdup other Hin) as Hno.
        simpl in Hno. case_decide as Hid.
        -- unfold hasId in Hid. congruence.
        -- rewrite titleAuthorMatch_text in Hno.
           injection Hno as Hno%bool_decide_eq_false. done.
      * right. left. split; [done|]. by apply updatedBook_None in Hnew.
    + right. left. split; [done|].
      apply arrayFind_thrown in Hdup as (l & [H|H]); exists l; auto.
  - left. split; [done|]. intros book Hin. apply list_find_None in Hfind.
    by apply (proj1 (Forall_forall _ _) Hfind).
Qed.

(** With a title and an author that are strings the duplicate checks
    never throw and are the pure searches. *)
Lemma createBook_find body s title author :
  Body.title body = Text title → Body.author body = Text author →
  arrayFind (titleAuthorMatch (Body.title body) (Body.author body))
    (books s) =
  Some (snd <$> list_find (sameTitleAuthor title author) (books s)).
Proof.
  intros -> ->. apply arrayFind_pure. intros book _.
  apply titleAuthorMatch_text.
Qed.

Lemma updateBook_find id body s title author :
  Body.title body = Text title → Body.author body = Text author →
  arrayFind
    (λ book, if decide (hasId (JS.parseInt id) book) then Some false
             else titleAuthorMatch (Body.title body) (Body.author body) book)
    (books s) =
  Some (snd <$> list_find
          (λ book, ¬ hasId (JS.parseInt id) book ∧
                   sameTitleAuthor title author book) (books s)).
Proof.
  intros -> ->. apply arrayFind_pure. clear currentYear now.
  intros book _. case_decide.
  - by rewrite bool_decide_eq_false_2 by tauto.
  - rewrite titleAuthorMatch_text. apply f_equal, bool_decide_ext. tauto.
Qed.

Lemma deleteBook_cases id s :
  (deleteBook id s = (notFound, s) ∧
   ∀ book, book ∈ books s → ¬ hasId (JS.parseInt id) book) ∨
  (∃ i book,
     list_find (hasId (JS.parseInt id)) (books s) = Some (i, book) ∧
     deleteBook id s =
       (ok (Some "Book deleted successfully") (OneBook book),
        {| books := delete i (books s); nextId := nextId s;
           dateReads := dateReads s |})).
Proof.
  unfold deleteBook.
  destruct (list_find (hasId _) (books s)) as [[i book]|] eqn:Hfind.
  - right. by exists i, book.
  - left. split; [done|]. intros book Hin. apply list_find_None in Hfind.
    by apply (proj1 (Forall_forall _ _) Hfind).
Qed.

Lemma getBook_cases id s :
  (getBook id s = (notFound, s) ∧
   ∀ book, book ∈ books s → ¬ hasId (JS.parseInt id) book) ∨
  (∃ i book,
     list_find (hasId (JS.parseInt id)) (books s) = Some (i, book) ∧
     getBook id s = (ok None (OneBook book), s)).
Proof.
  unfold getBook, findBookById.
  destruct (list_find (hasId _) (books s)) as [[i book]|] eqn:Hfind; simpl.
  - right. by exists i, book.
  - left. split; [done|]. intros book Hin. apply list_find_None in Hfind.
    by apply (proj1 (Forall_forall _ _) Hfind).
Qed.

(** The text fields the handlers see are the trimmed fields that were
    sent. *)
Lemma sanitize_fields body title author genre description :
  textFields (sanitize body) title author genre description ↔
  ∃ title0 author0 genre0 description0,
    textFields body title0 author0 genre0 description0 ∧
    title = JS.trim title0 ∧ author = JS.trim author0 ∧
    genre = JS.trim genre0 ∧ description = JS.trim description0.
Proof.
  unfold textFields, sanitize.
  cbn [Body.title Body.author Body.genre Body.description].
  rewrite !sanitized_text. split.
  - intros ((t0 & ? & ?) & (a0 & ? & ?) & (g0 & ? & ?) & (d0 & ? & ?)).
    by exists t0, a0, g0, d0.
  - intros (t0 & a0 & g0 & d0 & (? & ? & ? & ?) & ? & ? & ? & ?).
    split_and!; eauto.
Qed.

Lemma sanitize_fields_trimmed body title author genre description :
  textFields (sanitize body) title author genre description →
  JS.trim title = title ∧ JS.trim author = author ∧
  JS.trim genre = genre ∧ JS.trim description = description.
Proof.
  intros (t0 & a0 & g0 & d0 & _ & -> & -> & -> & ->)%sanitize_fields.
  by rewrite !trim_idempotent.
Qed.

Lemma sanitize_arrayField body : arrayField (sanitize body) ↔ arrayField body.
Proof.
  unfold arrayField, sanitize.
  cbn [Body.title Body.author Body.genre Body.description]. split.
  - intros (l & [H|[H|[H|H]]]);
      apply sanitized_items in H as (l0 & ? & _); exists l0; auto.
  - intros (l & [H|[H|[H|H]]]); exists (JS.trim <$> l);
      rewrite H; simpl; auto.
Qed.

(** ** Create and update with a body that passed validation *)

Lemma handle_post_text body s title author genre description :
  bookValidation body = [] →
  textFields body title author genre description →
  ((∃ book, book ∈ books s ∧
      sameTitleAuthor (JS.trim title) (JS.trim author) book) →
   handle (PostBook body) s = (conflict, s)) ∧
  ((∀ book, book ∈ books s →
      ¬ sameTitleAuthor (JS.trim title) (JS.trim author) book) →
   let created :=
     {| Book.id := nextId s;
        Book.title := JS.trim title;
        Book.author := JS.trim author;
        Book.genre := JS.trim genre;
        Book.publicationYear := Value.parseInt (Body.publicationYear body);
        Book.description := JS.trim description;
        Book.createdAt := now (dateReads s);
        Book.updatedAt := now (S (dateReads s)) |} in
   handle (PostBook body) s =
     ({| status := 201; success := true;
         message := Some "Book created successfully";
         data := OneBook created |},
      {| books := books s ++ [created]; nextId := nextId s + 1;
         dateReads := S (S (dateReads s)) |})).
Proof.
  intros Hvalid Hf. rewrite (handle_post_valid _ _ Hvalid).
  assert (textFields (sanitize body) (JS.trim title) (JS.trim author)
            (JS.trim genre) (JS.trim description)) as Hfs
    by (apply sanitize_fields; by exists title, author, genre, description).
  unfold createBook.
  rewrite (createBook_find _ s (JS.trim title) (JS.trim author))
    by apply Hfs.
  split.
  - intros (book & Hin & Hsame).
    by destruct (list_find_elem_of _ _ _ Hin Hsame) as [[i b] ->].
  - intros Hnone.
    assert (list_find (sameTitleAuthor (JS.trim title) (JS.trim author))
              (books s) = None) as ->.
    { apply list_find_None, Forall_forall. intros book Hin. by apply Hnone. }
    cbn [fmap option_fmap option_map].
    erewrite (proj2 (newBook_Some _ _ _ _ _));
      [|eexists _, _, _, _; split; [exact Hfs|reflexivity]].
    cbv zeta. by rewrite !trim_idempotent.
Qed.

Lemma handle_put_text id body s i current title author genre description :
  bookValidation body = [] →
  list_find (hasId (JS.parseInt id)) (books s) = Some (i, current) →
  textFields body title author genre description →
  ((∃ other, other ∈ books s ∧ Book.id other ≠ Book.id current ∧
      sameTitleAuthor (JS.trim title) (JS.trim author) other) →
   handle (PutBook id body) s = (conflict, s)) ∧
  ((∀ other, other ∈ books s →
      sameTitleAuthor (JS.trim title) (JS.trim author) other →
      Book.id other = Book.id current) →
   let updated :=
     {| Book.id := Book.id current;
        Book.title := JS.trim title;
        Book.author := JS.trim author;
        Book.genre := JS.trim genre;
        Book.publicationYear := Value.parseInt (Body.publicationYear body);
        Book.description := JS.trim description;
        Book.createdAt := Book.createdAt current;
        Book.updatedAt := now (dateReads s) |} in
   handle (PutBook id body) s =
     (ok (Some "Book updated successfully") (OneBook updated),
      {| books := <[i := updated]> (books s); nextId := nextId s;
         dateReads := S (dateReads s) |})).
Proof.
  intros Hvalid Hfind Hf. rewrite (handle_put_valid _ _ _ Hvalid).
  assert (textFields (sanitize body) (JS.trim title) (JS.trim author)
            (JS.trim genre) (JS.trim description)) as Hfs
    by (apply sanitize_fields; by exists title, author, genre, description).
  pose proof Hfind as Hfind'.
  apply list_find_Some in Hfind' as (Hi & Hcur & _). unfold hasId in Hcur.
  unfold updateBook. rewrite Hfind.
  rewrite (updateBook_find id _ s (JS.trim title) (JS.trim author))
    by apply Hfs.
  split.
  - intros (other & Hin & Hne & Hsame).
    assert (¬ hasId (JS.parseInt id) other ∧
            sameTitleAuthor (JS.trim title) (JS.trim author) other) as Hboth.
    { split; [|done]. unfold hasId. rewrite Hcur. by intros [= ?]. }
    by destruct (list_find_elem_of
                   (λ book, ¬ hasId (JS.parseInt id) book ∧
                      sameTitleAuthor (JS.trim title) (JS.trim author) book)
                   _ _ Hin Hboth) as [[j b] ->].
  - intros Honly.
    assert (list_find
              (λ book, ¬ hasId (JS.parseInt id) book ∧
                 sameTitleAuthor (JS.trim title) (JS.trim author) book)
              (books s) = None) as ->.
    { apply list_find_None, Forall_forall. intros book Hin [Hid Hsame].
      apply Hid. unfold hasId. rewrite Hcur. f_equal. symmetry.
      by apply Honly. }
    cbn [fmap option_fmap option_map].
    erewrite (proj2 (updatedBook_Some _ _ _ _));
      [|eexists _, _, _, _; split; [exact Hfs|reflexivity]].
    cbv zeta. by rewrite !trim_idempotent.
Qed.



(** What a 201 and a 200 say about the request. *)
Lemma handle_post_created body s r s' :
  handle (PostBook body) s = (r, s') → status r = 201%nat →
  ∃ title author genre description,
    textFields body title author genre description ∧
    let book :=
      {| Book.id := nextId s;
         Book.title := JS.trim title;
         Book.author := JS.trim author;
         Book.genre := JS.trim genre;
         Book.publicationYear := Value.parseInt (Body.publicationYear body);
         Book.description := JS.trim description;
         Book.createdAt := now (dateReads s);
         Book.updatedAt := now (S (dateReads s)) |} in
    bookValidation body = [] ∧
    data r = OneBook book ∧
    s' = {| books := books s ++ [book]; nextId := nextId s + 1;
            dateReads := S (S (dateReads s)) |} ∧
    ∀ other, other ∈ books s →
      ¬ sameTitleAuthor (JS.trim title) (JS.trim author) other.
Proof.
  intros Hpost Hstatus. cbn [handle] in Hpost.
  unfold handleValidationErrors in Hpost.
  destruct (bookValidation body); [|by injection Hpost as <- _].
  destruct (createBook_cases (sanitize body) s)
    as [[Hc _]|[[Hc _]|[[Hc _]|(t & a & g & d & Hf & Hc & Hfresh)]]];
    rewrite Hc in Hpost; injection Hpost as <- <-; try done.
  apply sanitize_fields in Hf as (t0 & a0 & g0 & d0 & Hf0 & -> & -> & -> & ->).
  exists t0, a0, g0, d0. split; [done|]. cbv zeta.
  rewrite !trim_idempotent. by split_and!.
Qed.

Lemma handle_put_updated id body s r s' :
  handle (PutBook id body) s = (r, s') → status r = 200%nat →
  ∃ i current title author genre description,
    list_find (hasId (JS.parseInt id)) (books s) = Some (i, current) ∧
    textFields body title author genre description ∧
    let book :=
      {| Book.id := Book.id current;
         Book.title := JS.trim title;
         Book.author := JS.trim author;
         Book.genre := JS.trim genre;
         Book.publicationYear := Value.parseInt (Body.publicationYear body);
         Book.description := JS.trim description;
         Book.createdAt := Book.createdAt current;
         Book.updatedAt := now (dateReads s) |} in
    bookValidation body = [] ∧
    data r = OneBook book ∧
    s' = {| books := <[i := book]> (books s); nextId := nextId s;
            dateReads := S (dateReads s) |}.
Proof.
  intros Hput Hstatus. cbn [handle] in Hput.
  unfold handleValidationErrors in Hput.
  destruct (bookValidation body); [|by injection Hput as <- _].
  destruct (updateBook_cases id (sanitize body) s)
    as [[Hu _]|(i & current & Hfind &
          [[Hu _]|[[Hu _]|(t & a & g & d & Hf & Hu & _)]])];
    rewrite Hu in Hput; injection Hput as <- <-; try done.
  apply sanitize_fields in Hf as (t0 & a0 & g0 & d0 & Hf0 & -> & -> & -> & ->).
  exists i, current, t0, a0, g0, d0. split; [done|]. split; [done|].
  cbv zeta. rewrite !trim_idempotent. by split_and!.
Qed.
(** ** Reachable states are well formed *)

Lemma stamped_later d d' book :
  (d ≤ d')%nat → stamped d book → stamped d' book.
Proof.
  intros Hd (i & j & ? & ? & ? & ?). exists i, j.
  split_and!; [done|lia|done..].
Qed.

Lemma stamped_ordered d book :
  monotone now → stamped d book →
  Book.createdAt book ≤ Book.updatedAt book.
Proof. intros Hmono (i & j & ? & _ & -> & ->). by apply Hmono. Qed.

Lemma wellFormed_initial : wellFormed initial.
Proof.
  split_and!.
  - intros i j b1 b2 H1 H2 Hk.
    destruct i as [|[|[|i]]]; destruct j as [|[|[|j]]];
      simpl in H1, H2; simplify_eq; done.
  - intros i j b1 b2 H1 H2 Hk.
    destruct i as [|[|[|i]]]; destruct j as [|[|[|j]]];
      simpl in H1, H2; simplify_eq; try done; vm_compute in Hk; done.
  - done.
  - intros book Hin. simpl in Hin.
    repeat (apply elem_of_cons in Hin as [->|Hin]; [simpl; lia|]).
    by apply elem_of_nil in Hin.
  - intros book Hin. simpl in Hin.
    apply elem_of_cons in Hin as [->|Hin];
      [exists 0%nat, 1%nat; simpl; split_and!; (lia || done)|].
    apply elem_of_cons in Hin as [->|Hin];
      [exists 2%nat, 3%nat; simpl; split_and!; (lia || done)|].
    apply elem_of_cons in Hin as [->|Hin];
      [exists 4%nat, 5%nat; simpl; split_and!; (lia || done)|].
    by apply elem_of_nil in Hin.
Qed.

Lemma wellFormed_create body s :
  wellFormed s → wellFormed (createBook (sanitize body) s).2.
Proof.
  intros (Hids & Hkeys & Hpos & Hrange & Hstamps).
  destruct (createBook_cases (sanitize body) s)
    as [[-> _]|[[-> _]|[[-> _]|(t & a & g & d & Hf & -> & Hfresh)]]];
    [done|done| |].
  { cbn [snd]. split_and!; cbn [books nextId dateReads]; try done; [lia|].
    intros book Hin. specialize (Hrange book Hin). lia. }
  destruct (sanitize_fields_trimmed _ _ _ _ _ Hf) as (Ht & Ha & _).
  cbn [snd]. split_and!; cbn [books nextId dateReads].
  - apply distinctBy_snoc; [done|]. intros other Hin. simpl.
    specialize (Hrange other Hin). lia.
  - apply distinctBy_snoc; [done|]. intros other Hin Hk.
    apply (Hfresh other Hin), sameTitleAuthor_key. rewrite Hk.
    unfold titleAuthorKey; simpl. by rewrite Ht, Ha.
  - lia.
  - intros book [Hin|Hin]%elem_of_app.
    + specialize (Hrange book Hin). lia.
    + apply list_elem_of_singleton in Hin as ->. simpl. lia.
  - intros book [Hin|Hin]%elem_of_app.
    + eapply stamped_later; [|by apply Hstamps]. lia.
    + apply list_elem_of_singleton in Hin as ->.
      exists (dateReads s), (S (dateReads s)).
      simpl. split_and!; (lia || done).
Qed.

Lemma wellFormed_update id body s :
  wellFormed s → wellFormed (updateBook id (sanitize body) s).2.
Proof.
  intros (Hids & Hkeys & Hpos & Hrange & Hstamps).
  destruct (updateBook_cases id (sanitize body) s)
    as [[-> _]|(k & current & Hfind &
          [[-> _]|[[-> _]|(t & a & g & d & Hf & -> & Hfresh)]])];
    [done..|].
  destruct (sanitize_fields_trimmed _ _ _ _ _ Hf) as (Ht & Ha & _).
  apply list_find_Some in Hfind as (Hk & Hcur & _).
  pose proof (list_elem_of_lookup_2 _ _ _ Hk) as Hin.
  cbn [snd]. split_and!; cbn [books nextId dateReads].
  - apply distinctBy_insert; [done|]. intros j other Hj Hother Heq.
    apply Hj. by apply (Hids _ _ _ _ Hother Hk).
  - apply distinctBy_insert; [done|]. intros j other Hj Hother Heq.
    apply Hj, (Hids _ _ _ _ Hother Hk), Hfresh;
      [by eapply list_elem_of_lookup_2|].
    apply sameTitleAuthor_key. rewrite Heq.
    unfold titleAuthorKey; simpl. by rewrite Ht, Ha.
  - done.
  - intros book [j Hj]%list_elem_of_lookup_1.
    apply list_lookup_insert_Some in Hj as [(_ & <- & _)|[_ Hj]].
    + simpl. by apply Hrange.
    + by eapply Hrange, list_elem_of_lookup_2.
  - intros book [j Hj]%list_elem_of_lookup_1.
    apply list_lookup_insert_Some in Hj as [(_ & <- & _)|[_ Hj]].
    + destruct (Hstamps current Hin) as (i0 & j0 & ? & ? & Hc & _).
      exists i0, (dateReads s). simpl. split_and!; (lia || done).
    + eapply stamped_later; [|by eapply Hstamps, list_elem_of_lookup_2]. lia.
Qed.

Lemma wellFormed_delete id s :
  wellFormed s → wellFormed (deleteBook id s).2.
Proof.
  intros (Hids & Hkeys & Hpos & Hrange & Hstamps).
  destruct (deleteBook_cases id s) as [[-> _]|(k & book & _ & ->)]; [done|].
  cbn [snd]. split_and!; cbn [books nextId dateReads].
  - by apply distinctBy_delete.
  - by apply distinctBy_delete.
  - done.
  - intros b Hin%list_elem_of_delete_inv. by apply Hrange.
  - intros b Hin%list_elem_of_delete_inv. by apply Hstamps.
Qed.

Lemma handleValidationErrors_cases body next s :
  handleValidationErrors (bookValidation body) next s = next s ∨
  handleValidationErrors (bookValidation body) next s =
    (validationFailed (bookValidation body), s).
Proof.
  unfold handleValidationErrors. destruct (bookValidation body); auto.
Qed.

Lemma searchBooks_state param s : (searchBooks param s).2 = s.
Proof. unfold searchBooks. cbv zeta. by destruct (JS.isEmpty _). Qed.

Lemma getBook_state id s : (getBook id s).2 = s.
Proof. unfold getBook. by destruct (findBookById _ _). Qed.

Lemma wellFormed_handle r s : wellFormed s → wellFormed (handle r s).2.
Proof.
  intros Hwf. destruct r as [| |id|body|id body|id|query]; simpl.
  - destruct Hwf as (Hids & Hkeys & Hpos & Hrange & Hstamps).
    split_and!; try done. intros book Hin.
    eapply stamped_later; [|by apply Hstamps]. simpl. lia.
  - done.
  - by rewrite getBook_state.
  - destruct (handleValidationErrors_cases body
      (createBook (sanitize body)) s) as [-> | ->];
      [by apply wellFormed_create|done].
  - destruct (handleValidationErrors_cases body
      (updateBook id (sanitize body)) s) as [-> | ->];
      [by apply wellFormed_update|done].
  - by apply wellFormed_delete.
  - by rewrite searchBooks_state.
Qed.

Lemma run_cons r rs s :
  run (r :: rs) s =
  ((handle r s).1 :: (run rs (handle r s).2).1, (run rs (handle r s).2).2).
Proof.
  cbn [run]. destruct (handle r s) as [resp s1]. cbn [fst snd].
  by destruct (run rs s1).
Qed.

Lemma run_app rs1 rs2 s :
  run (rs1 ++ rs2) s =
  ((run rs1 s).1 ++ (run rs2 (run rs1 s).2).1, (run rs2 (run rs1 s).2).2).
Proof.
  revert s. induction rs1 as [|r rs1 IH]; intros s.
  - simpl. by destruct (run rs2 s).
  - rewrite <- app_comm_cons, !run_cons, IH. done.
Qed.

Lemma wellFormed_run rs s : wellFormed s → wellFormed (run rs s).2.
Proof.
  revert s. induction rs as [|r rs IH]; intros s Hwf; [done|].
  rewrite run_cons. cbn [snd]. by apply IH, wellFormed_handle.
Qed.

(** C1: after any sequence of requests served from the seed state, the
    live records have pairwise distinct ids, no two of them have the same
    (title, author) pair compared case-insensitively, and, the clock never
    running backwards, every record has createdAt <= updatedAt. *)
Theorem store_invariants rs :
  let s := (run rs initial).2 in
  distinctIds (books s) ∧
  distinctTitleAuthor (books s) ∧
  (monotone now → timestampsOrdered (books s)).
Proof.
  cbv zeta.
  destruct (wellFormed_run rs initial wellFormed_initial)
    as (Hids & Hkeys & _ & _ & Hstamps).
  split_and!; [done..|].
  intros Hmono book Hin. eapply stamped_ordered; [done|]. by apply Hstamps.
Qed.

(** ** The id counter *)

Lemma handle_nextId r s :
  nextId s ≤ nextId (handle r s).2 ∧
  ∀ n, createdId (handle r s).1 = Some n →
       n = nextId s ∧ nextId (handle r s).2 = nextId s + 1.
Proof.
  destruct r as [| |id|body|id body|id|query]; cbn [handle].
  - by split; [simpl; lia|].
  - by split; [simpl; lia|].
  - by destruct (getBook_cases id s) as [[-> _]|(? & ? & _ & ->)];
      (split; [simpl; lia|]).
  - destruct (handleValidationErrors_cases body
      (createBook (sanitize body)) s) as [-> | ->];
      [|by split; [simpl; lia|]].
    destruct (createBook_cases (sanitize body) s)
      as [[-> _]|[[-> _]|[[-> _]|(t & a & g & d & _ & -> & _)]]].
    + by split; [simpl; lia|].
    + by split; [simpl; lia|].
    + by split; [simpl; lia|].
    + split; [simpl; lia|]. by intros n [= <-].
  - destruct (handleValidationErrors_cases body
      (updateBook id (sanitize body)) s) as [-> | ->];
      [|by split; [simpl; lia|]].
    by destruct (updateBook_cases id (sanitize body) s)
      as [[-> _]|(? & ? & _ &
            [[-> _]|[[-> _]|(t & a & g & d & _ & -> & _)]])];
      (split; [simpl; lia|]).
  - by destruct (deleteBook_cases id s) as [[-> _]|(? & ? & _ & ->)];
      (split; [simpl; lia|]).
  - unfold searchBooks. cbv zeta.
    by destruct (JS.isEmpty _); (split; [simpl; lia|]).
Qed.

Lemma run_created_sorted rs s :
  nextId s ≤ nextId (run rs s).2 ∧
  Forall (λ n, nextId s ≤ n) (omap createdId (run rs s).1) ∧
  StronglySorted Z.lt (omap createdId (run rs s).1).
Proof.
  revert s. induction rs as [|r rs IH]; intros s.
  - simpl. split_and!; [lia|constructor..].
  - rewrite run_cons. cbn [fst snd omap list_omap].
    destruct (IH (handle r s).2) as (Hle & Hall & Hsorted).
    destruct (handle_nextId r s) as [Hstep Hnew].
    split; [lia|].
    assert (Forall (λ n, nextId s ≤ n)
              (omap createdId (run rs (handle r s).2).1)) as Hall'.
    { eapply Forall_impl; [exact Hall|]. simpl. intros. lia. }
    destruct (createdId (handle r s).1) as [n|]; [|done].
    destruct (Hnew n eq_refl) as [-> Hnext]. split.
    + constructor; [lia|done].
    + apply StronglySorted_cons. split; [|done].
      eapply Forall_impl; [exact Hall|]. simpl. intros. lia.
Qed.

(** C5: in every sequence of requests served from the seed state, the
    ids handed out (the seed's 1, 2, 3 and then the id returned by each
    successful create, in order) are strictly increasing: each create
    returns an id greater than every id assigned before it, whether or
    not that record was deleted since, and no id is assigned twice. *)
Theorem created_ids_strictly_increase rs :
  StronglySorted Z.lt (assignedIds rs) ∧ NoDup (assignedIds rs).
Proof.
  assert (StronglySorted Z.lt (assignedIds rs)) as Hsorted.
  { unfold assignedIds.
    destruct (run_created_sorted rs initial) as (_ & Hall & Hsorted).
    apply StronglySorted_app. split_and!; [|by repeat constructor|done].
    intros x y Hx Hy.
    pose proof (proj1 (Forall_forall _ _) Hall y Hy) as Hy'. simpl in Hy'.
    simpl in Hx.
    repeat (apply elem_of_cons in Hx as [->|Hx]; [lia|]).
    by apply elem_of_nil in Hx. }
  split; [done|].
  induction Hsorted as [|n l _ IH Hall]; constructor; [|done].
  intros Hin. pose proof (proj1 (Forall_forall _ _) Hall n Hin). lia.
Qed.

(** ** Retired ids *)

Lemma retired_handle n r s : retired n s → retired n (handle r s).2.
Proof.
  intros [Hlt Hgone].
  destruct r as [| |id|body|id body|id|query]; cbn [handle].
  - done.
  - done.
  - by rewrite getBook_state.
  - destruct (handleValidationErrors_cases body
      (createBook (sanitize body)) s) as [-> | ->]; [|done].
    destruct (createBook_cases (sanitize body) s)
      as [[-> _]|[[-> _]|[[-> _]|(t & a & g & d & _ & -> & _)]]];
      [done|done|by split; cbn [snd nextId books]; [lia|]|].
    split; cbn [snd nextId books]; [lia|].
    intros book [Hin|Hin]%elem_of_app; [by apply Hgone|].
    apply list_elem_of_singleton in Hin as ->. simpl. lia.
  - destruct (handleValidationErrors_cases body
      (updateBook id (sanitize body)) s) as [-> | ->]; [|done].
    destruct (updateBook_cases id (sanitize body) s)
      as [[-> _]|(k & current & Hfind &
            [[-> _]|[[-> _]|(t & a & g & d & _ & -> & _)]])]; [done..|].
    apply list_find_Some in Hfind as (Hk & _ & _).
    split; cbn [snd nextId books]; [done|].
    intros book [j Hj]%list_elem_of_lookup_1.
    apply list_lookup_insert_Some in Hj as [(_ & <- & _)|[_ Hj]].
    + simpl. by eapply Hgone, list_elem_of_lookup_2.
    + by eapply Hgone, list_elem_of_lookup_2.
  - destruct (deleteBook_cases id s) as [[-> _]|(k & book & _ & ->)]; [done|].
    split; cbn [snd nextId books]; [done|].
    intros b Hin%list_elem_of_delete_inv. by apply Hgone.
  - by rewrite searchBooks_state.
Qed.

Lemma retired_run n rs s : retired n s → retired n (run rs s).2.
Proof.
  revert s. induction rs as [|r rs IH]; intros s H; [done|].
  rewrite run_cons. cbn [snd]. by apply IH, retired_handle.
Qed.

(** A response only carries records of the store, as it was before or
    as it is after the request. *)
Lemma booksOf_handle r s book :
  book ∈ booksOf (handle r s).1 →
  book ∈ books s ∨ book ∈ books (handle r s).2.
Proof.
  destruct r as [| |id|body|id body|id|query]; cbn [handle].
  - by intros ?%elem_of_nil.
  - auto.
  - destruct (getBook_cases id s) as [[-> _]|(k & b & Hfind & ->)].
    + by intros ?%elem_of_nil.
    + intros ->%list_elem_of_singleton. left.
      apply list_find_Some in Hfind as (Hk & _).
      by eapply list_elem_of_lookup_2.
  - destruct (handleValidationErrors_cases body
      (createBook (sanitize body)) s) as [-> | ->];
      [|by intros ?%elem_of_nil].
    destruct (createBook_cases (sanitize body) s)
      as [[-> _]|[[-> _]|[[-> _]|(t & a & g & d & _ & -> & _)]]];
      [by intros ?%elem_of_nil..|].
    intros ->%list_elem_of_singleton. right. cbn [snd books].
    apply elem_of_app. right. by apply list_elem_of_singleton.
  - destruct (handleValidationErrors_cases body
      (updateBook id (sanitize body)) s) as [-> | ->];
      [|by intros ?%elem_of_nil].
    destruct (updateBook_cases id (sanitize body) s)
      as [[-> _]|(k & current & Hfind &
            [[-> _]|[[-> _]|(t & a & g & d & _ & -> & _)]])];
      [by intros ?%elem_of_nil..|].
    intros ->%list_elem_of_singleton. right. cbn [snd books].
    apply list_find_Some in Hfind as (Hk & _).
    apply list_elem_of_insert. by eapply lookup_lt_Some.
  - destruct (deleteBook_cases id s) as [[-> _]|(k & b & Hfind & ->)].
    + by intros ?%elem_of_nil.
    + intros ->%list_elem_of_singleton. left.
      apply list_find_Some in Hfind as (Hk & _).
      by eapply list_elem_of_lookup_2.
  - unfold searchBooks. cbv zeta. destruct (JS.isEmpty _).
    + by intros ?%elem_of_nil.
    + cbn [fst booksOf data ok]. intros [_ ?]%list_elem_of_filter. by left.
Qed.

Lemma retired_responses n rs s resp book :
  retired n s → resp ∈ (run rs s).1 → book ∈ booksOf resp →
  Book.id book ≠ n.
Proof.
  revert s. induction rs as [|r rs IH]; intros s Hret.
  - by intros ?%elem_of_nil.
  - rewrite run_cons. cbn [fst].
    intros [->|Hin]%elem_of_cons Hbook.
    + destruct Hret as [? Hgone].
      destruct (booksOf_handle r s book Hbook) as [?|Hafter];
        [by apply Hgone|].
      by apply (retired_handle n r s (conj H Hgone)).
    + by apply (IH (handle r s).2 (retired_handle n r s Hret)).
Qed.

(** ** Update, delete and search *)




(** C8: deleting an existing id takes exactly that record out of the
    store, the others keeping their order, and answers 200 with the
    removed record; deleting an absent id answers 404 and leaves the
    store unchanged; and once a record of a reachable store is deleted,
    whatever requests follow, a get by that id answers 404 and no
    response (list, search or other) carries a record with that id. *)
Theorem delete_removes_exactly_that_record id s :
  ((∃ book, book ∈ books s ∧ hasId (JS.parseInt id) book) →
   ∃ book l1 l2 r s',
     hasId (JS.parseInt id) book ∧ books s = l1 ++ book :: l2 ∧
     handle (DeleteBook id) s = (r, s') ∧
     status r = 200%nat ∧ data r = OneBook book ∧
     books s' = l1 ++ l2) ∧
  ((∀ book, book ∈ books s → ¬ hasId (JS.parseInt id) book) →
   handle (DeleteBook id) s = (notFound, s)) ∧
  (∀ rs0 r s1,
     s = (run rs0 initial).2 →
     handle (DeleteBook id) s = (r, s1) → status r = 200%nat →
     ∀ rs,
       handle (GetBook id) (run rs s1).2 = (notFound, (run rs s1).2) ∧
       (∀ book, book ∈ books (run rs s1).2 → ¬ hasId (JS.parseInt id) book) ∧
       (∀ resp book, resp ∈ (run rs s1).1 → book ∈ booksOf resp →
          ¬ hasId (JS.parseInt id) book)).
Proof.
  cbn [handle]. split_and!.
  - intros (book & Hin & Hid).
    destruct (deleteBook_cases id s) as [[_ Hnone]|(i & b & Hfind & ->)];
      [by destruct (Hnone book)|].
    apply list_find_Some in Hfind as (Hi & Hb & _).
    exists b, (take i (books s)), (drop (S i) (books s)). eexists _, _.
    split_and!; try done.
    + by rewrite take_drop_middle.
    + apply delete_take_drop.
  - intros Hnone.
    destruct (deleteBook_cases id s) as [[-> _]|(i & b & Hfind & _)]; [done|].
    found_but_absent Hfind Hnone.
  - intros rs0 r s1 -> Hdel Hstatus rs.
    pose proof (wellFormed_run rs0 initial wellFormed_initial)
      as (Hids & _ & _ & Hrange & _).
    destruct (deleteBook_cases id (run rs0 initial).2)
      as [[Hd _]|(i & b & Hfind & Hd)];
      rewrite Hd in Hdel; injection Hdel as <- Hs1; [done|].
    apply list_find_Some in Hfind as (Hi & Hb & _). unfold hasId in Hb.
    assert (retired (Book.id b) s1) as Hret.
    { subst s1. split; cbn [books nextId].
      - by apply Hrange, (list_elem_of_lookup_2 _ i).
      - intros book [j Hj]%list_elem_of_lookup_1 Heq.
        rewrite list_lookup_delete in Hj.
        case_decide; pose proof (Hids _ _ _ _ Hj Hi Heq); lia. }
    clear Hs1 Hd.
    assert (∀ book, book ∈ books (run rs s1).2 →
              ¬ hasId (JS.parseInt id) book) as Hgone.
    { intros book Hin. unfold hasId. rewrite Hb. intros [= Heq].
      by apply (proj2 (retired_run _ rs _ Hret) book Hin). }
    split_and!; [|done|].
    + destruct (getBook_cases id (run rs s1).2)
        as [[-> _]|(j & book & Hfind & _)]; [done|].
      apply list_find_Some in Hfind as (Hj & Hbook & _).
      by destruct (Hgone book (list_elem_of_lookup_2 _ _ _ Hj)).
    + intros resp book Hresp Hbook. unfold hasId. rewrite Hb. intros [= Heq].
      by apply (retired_responses _ rs _ resp book Hret).
Qed.

Lemma distinctBy_sublist {K} (key : Book.t → K) l1 l2 :
  l1 `sublist_of` l2 → distinctBy key l2 → distinctBy key l1.
Proof.
  intros Hsub. induction Hsub as [|x l1 l2 Hsub IH|x l1 l2 Hsub IH];
    intros Hd; [done| |].
  - assert (distinctBy key l1) as Hd1.
    { apply IH. intros i j b1 b2 H1 H2 Hk.
      assert (S i = S j) by (by eapply Hd). lia. }
    intros [|i] [|j] b1 b2 H1 H2 Hk; simpl in H1, H2; simplify_eq.
    + done.
    + apply list_elem_of_lookup_2 in H2.
      apply (elem_of_sublist _ _ _ H2), list_elem_of_lookup_1 in Hsub
        as [j' Hj'].
      by assert (0%nat = S j') by (by eapply Hd).
    + apply list_elem_of_lookup_2 in H1.
      apply (elem_of_sublist _ _ _ H1), list_elem_of_lookup_1 in Hsub
        as [i' Hi'].
      by assert (S i' = 0%nat) by (by eapply Hd).
    + f_equal. by eapply Hd1.
  - apply IH. intros i j b1 b2 H1 H2 Hk.
    assert (S i = S j) by (by eapply Hd). lia.
Qed.

(** C6: a search whose query is empty once lower-cased and trimmed is
    answered with 400; any other search succeeds with exactly the live
    records that contain the lower-cased, trimmed query in their
    lower-cased title, author, genre or description, in store order and
    without repetition, and with count equal to the number of results;
    when no record matches the result is empty and the count 0. *)
Theorem search_returns_matching_records_in_order param s :
  let query := JS.trim (JS.toLowerCase param) in
  (query = EmptyString →
   ∃ r, handle (SearchBooks param) s = (r, s) ∧ status r = 400%nat) ∧
  (query ≠ EmptyString →
   ∃ results,
     handle (SearchBooks param) s =
       (ok None (SearchHits results (length results) param), s) ∧
     (∀ book, book ∈ results ↔ book ∈ books s ∧ containsQuery query book) ∧
     results `sublist_of` books s ∧
     (distinctIds (books s) → distinctIds results) ∧
     ((∀ book, book ∈ books s → ¬ containsQuery query book) →
      results = [] ∧ length results = 0%nat)).
Proof.
  cbv zeta. cbn [handle]. unfold searchBooks. cbv zeta. split.
  - intros ->. simpl. by eexists.
  - intros Hne. rewrite (proj2 (isEmpty_false _) Hne).
    eexists. split; [done|]. split_and!.
    + intros book. rewrite list_elem_of_filter, matchesQuery_spec. tauto.
    + apply sublist_filter.
    + apply distinctBy_sublist, sublist_filter.
    + intros Hnone.
      assert (filter (λ book, matchesQuery (JS.trim (JS.toLowerCase param))
                book = true) (books s) = []) as ->; [|done].
      apply elem_of_nil_inv. intros book [Hm Hin]%list_elem_of_filter.
      by apply (Hnone book Hin), matchesQuery_spec.
Qed.

(** ** The [:id] path segment *)

Lemma parseInt_decimal_prefix ds rest u :
  NilZero.uint_of_string ds = Some u →
  noDigitAhead rest → ¬ hexAhead ds rest →
  JS.parseInt (ds +:+ rest) = Some (Z.of_N (N.of_uint u)).
Proof.
  intros Hu Hrest Hhex.
  assert (ds ≠ EmptyString) as Hne by (by intros ->).
  assert (NilEmpty.uint_of_string ds = Some u) as Hu' by (by destruct ds).
  assert (Validator.allDigits ds = true) as Hds
    by (apply allDigits_uint; eauto).
  pose proof (NilEmpty.sus _ _ Hu') as Hstr.
  assert (JS.parseDigits 10 (ds +:+ rest) None = Some (Z.of_N (N.of_uint u)))
    as Hparse.
  { rewrite parseDigits_prefix by done. rewrite <- Hstr.
    apply parseDigits_uint. intros ->. by rewrite <- Hstr in Hne. }
  destruct ds as [|c ds]; [done|]. apply andb_prop in Hds as [Hc Hds].
  unfold JS.parseInt.
  change (String c ds +:+ rest) with (String c (ds +:+ rest)) in *.
  assert (JS.trimStart (String c (ds +:+ rest)) = String c (ds +:+ rest))
    as -> by (simpl; by rewrite (isDigit_not_space c Hc)).
  assert (JS.stripSign (String c (ds +:+ rest)) = (1, String c (ds +:+ rest)))
    as -> by (by code_unit_cases c).
  assert (JS.stripHexPrefix (String c (ds +:+ rest)) =
          (10, String c (ds +:+ rest))) as ->.
  { destruct ds as [|c' ds].
    - destruct rest as [|c' r]; [by code_unit_cases c|].
      simpl. simpl in Hrest.
      code_unit_cases c; try done;
        code_unit_cases c'; try done;
        destruct Hhex; split; eauto.
    - apply andb_prop in Hds as [Hc' _]. simpl.
      code_unit_cases c; try done;
        code_unit_cases c'; done. }
  rewrite Hparse. f_equal. lia.
Qed.

Lemma parseInt_no_number c rest :
  Validator.isDigit c = false → JS.isWhiteSpace c = false →
  c ≠ "+"%char → c ≠ "-"%char →
  JS.parseInt (String c rest) = None.
Proof.
  intros Hc Hws Hplus Hminus. unfold JS.parseInt.
  simpl JS.trimStart. rewrite Hws.
  assert (JS.stripSign (String c rest) = (1, String c rest)) as ->.
  { simpl. code_unit_cases c; done. }
  assert (JS.stripHexPrefix (String c rest) = (10, String c rest)) as ->.
  { simpl. code_unit_cases c; try done;
      destruct rest as [|[[] [] [] [] [] [] [] []] ?]; done. }
  by rewrite parseDigits_stop.
Qed.

Lemma handle_same_id id id' s :
  JS.parseInt id = JS.parseInt id' →
  handle (GetBook id) s = handle (GetBook id') s ∧
  handle (DeleteBook id) s = handle (DeleteBook id') s ∧
  ∀ body, handle (PutBook id body) s = handle (PutBook id' body) s.
Proof.
  intros Heq. cbn [handle].
  unfold getBook, findBookById, deleteBook, updateBook.
  rewrite Heq. split_and!; try done.
Qed.

(** C10: get, update and delete read the id segment with
    parseInt: white space at its start and one sign are skipped, and 0x or
    0X announces hexadecimal digits.  When parseInt finds no number the
    answer is 404 (for an update: once the payload is valid), never 400
    on account of the id; this is so for the empty segment and for any
    segment whose first character is not a digit, a sign or white space.
    When the segment is a run of decimal digits followed by something
    that does not begin with a digit, and is not 0 followed by x or X,
    the request is served exactly as with the digits alone: on the record
    whose id is their value. *)
Theorem id_segment_read_by_parseInt id s :
  (JS.parseInt id = None →
   handle (GetBook id) s = (notFound, s) ∧
   handle (DeleteBook id) s = (notFound, s) ∧
   ∀ body, bookValidation body = [] →
     handle (PutBook id body) s = (notFound, s)) ∧
  (id = EmptyString ∨
   (∃ c rest, id = String c rest ∧
      Validator.isDigit c = false ∧ JS.isWhiteSpace c = false ∧
      c ≠ "+"%char ∧ c ≠ "-"%char) →
   JS.parseInt id = None) ∧
  (∀ ds rest u,
     id = ds +:+ rest → NilZero.uint_of_string ds = Some u →
     noDigitAhead rest → ¬ hexAhead ds rest →
     JS.parseInt id = Some (Z.of_N (N.of_uint u)) ∧
     JS.parseInt ds = Some (Z.of_N (N.of_uint u)) ∧
     handle (GetBook id) s = handle (GetBook ds) s ∧
     handle (DeleteBook id) s = handle (DeleteBook ds) s ∧
     (∀ body, handle (PutBook id body) s = handle (PutBook ds body) s) ∧
     (∀ book, findBookById (books s) id = Some book →
        Book.id book = Z.of_N (N.of_uint u))).
Proof.
  split_and!.
  - intros Hnan.
    assert (∀ book, book ∈ books s → ¬ hasId (JS.parseInt id) book) as Hnone.
    { intros book _. unfold hasId. by rewrite Hnan. }
    split_and!.
    + cbn [handle].
      destruct (getBook_cases id s) as [[-> _]|(i & b & Hfind & _)]; [done|].
      found_but_absent Hfind Hnone.
    + cbn [handle].
      destruct (deleteBook_cases id s) as [[-> _]|(i & b & Hfind & _)]; [done|].
      found_but_absent Hfind Hnone.
    + intros body Hvalid. rewrite (handle_put_valid _ _ _ Hvalid).
      destruct (updateBook_cases id (sanitize body) s)
        as [[-> _]|(i & b & Hfind & _)]; [done|].
      found_but_absent Hfind Hnone.
  - intros [->|(c & rest & -> & ? & ? & ? & ?)]; [done|].
    by apply parseInt_no_number.
  - intros ds rest u -> Hu Hrest Hhex.
    pose proof (parseInt_decimal_prefix ds rest u Hu Hrest Hhex) as Hid.
    assert (JS.parseInt ds = Some (Z.of_N (N.of_uint u))) as Hds.
    { pose proof (parseInt_decimal_prefix ds EmptyString u Hu I) as H.
      assert (ds +:+ EmptyString = ds) as Heq.
      { clear. induction ds as [|c ds IH]; [done|].
        change (String c ds +:+ EmptyString)
          with (String c (ds +:+ EmptyString)).
        by rewrite IH. }
      rewrite Heq in H. apply H. by intros [_ [r [?|?]]]. }
    destruct (handle_same_id (ds +:+ rest) ds s) as (Hg & Hd & Hp);
      [congruence|].
    split_and!; try done.
    intros book [i Hfind]%findBookById_Some.
    apply list_find_Some in Hfind as (_ & Hb & _). unfold hasId in Hb.
    congruence.
Qed.

(** ** Create, then get, then update *)

Lemma getBook_unique id s book :
  distinctIds (books s) → book ∈ books s → hasId (JS.parseInt id) book →
  getBook id s = (ok None (OneBook book), s).
Proof.
  intros Hids [k Hk]%list_elem_of_lookup_1 Hid.
  destruct (getBook_cases id s) as [[_ Hnone]|(i & b & Hfind & ->)].
  - by destruct (Hnone book (list_elem_of_lookup_2 _ _ _ Hk)).
  - apply list_find_Some in Hfind as (Hi & Hb & _). unfold hasId in *.
    assert (i = k) as -> by (eapply Hids; [done..|congruence]).
    congruence.
Qed.



(** ** Case folding and trimming *)

Lemma lowerChar_idempotent c : JS.lowerChar (JS.lowerChar c) = JS.lowerChar c.
Proof. code_unit_cases c; reflexivity. Qed.

Lemma isWhiteSpace_lowerChar c :
  JS.isWhiteSpace (JS.lowerChar c) = JS.isWhiteSpace c.
Proof. code_unit_cases c; reflexivity. Qed.

Lemma toLowerCase_idempotent s :
  JS.toLowerCase (JS.toLowerCase s) = JS.toLowerCase s.
Proof.
  induction s as [|c s IH]; simpl; [done|].
  by rewrite lowerChar_idempotent, IH.
Qed.

Lemma isEmpty_toLowerCase s : JS.isEmpty (JS.toLowerCase s) = JS.isEmpty s.
Proof. by destruct s. Qed.

Lemma trimStart_toLowerCase s :
  JS.trimStart (JS.toLowerCase s) = JS.toLowerCase (JS.trimStart s).
Proof.
  induction s as [|c s IH]; [done|].
  cbn [JS.toLowerCase JS.trimStart]. rewrite isWhiteSpace_lowerChar.
  by destruct (JS.isWhiteSpace c).
Qed.

Lemma trimEnd_toLowerCase s :
  JS.trimEnd (JS.toLowerCase s) = JS.toLowerCase (JS.trimEnd s).
Proof.
  induction s as [|c s IH]; [done|].
  cbn [JS.toLowerCase JS.trimEnd].
  rewrite isWhiteSpace_lowerChar, IH, isEmpty_toLowerCase.
  by destruct (JS.isWhiteSpace c && JS.isEmpty (JS.trimEnd s)).
Qed.

Lemma trim_toLowerCase s :
  JS.trim (JS.toLowerCase s) = JS.toLowerCase (JS.trim s).
Proof. unfold JS.trim. by rewrite trimStart_toLowerCase, trimEnd_toLowerCase. Qed.

Lemma append_empty s : s +:+ EmptyString = s.
Proof.
  induction s as [|c s IH]; [done|].
  change (String c s +:+ EmptyString) with (String c (s +:+ EmptyString)).
  by rewrite IH.
Qed.

Lemma includes_self s : JS.includes s s = true.
Proof.
  apply includes_spec. exists EmptyString, EmptyString.
  by rewrite append_empty.
Qed.

(** ** Every stored record is valid *)

Lemma textOk_valid max v : textOk max v → textValid max (JS.trim v).
Proof.
  intros [Hne Hlen]. unfold textValid. by rewrite !trim_idempotent.
Qed.

Lemma genres_trimmed g : g ∈ genres → JS.trim g = g.
Proof.
  unfold genres. intros Hin.
  repeat (apply elem_of_cons in Hin as [->|Hin]; [reflexivity|]).
  by apply elem_of_nil in Hin.
Qed.

Lemma validRecord_NaN M book : validRecord M book → validButForNaN M book.
Proof.
  intros (? & ? & ? & ? & (year & Hyear & ?) & ?).
  split_and!; try done. intros y. rewrite Hyear. by intros [= <-].
Qed.

Lemma validButForNaN_weaken M M' book :
  M ≤ M' → validButForNaN M book → validButForNaN M' book.
Proof.
  intros HM (? & ? & ? & ? & Hyear & ?).
  split_and!; try done. intros year Hy. specialize (Hyear year Hy). lia.
Qed.

Lemma validRecord_weaken M M' book :
  M ≤ M' → validRecord M book → validRecord M' book.
Proof.
  intros HM (? & ? & ? & ? & (year & ? & ?) & ?).
  split_and!; try done. exists year. split; [done|lia].
Qed.

Lemma validRecord_initial book :
  book ∈ books initial → validRecord 1960 book.
Proof.
  assert (∀ t, t ∈ ["Fiction"; "Dystopian Fiction"] → t ∈ genres) as Hg.
  { intros t Ht. unfold genres.
    apply elem_of_cons in Ht as [->|Ht]; [apply elem_of_cons; auto|].
    apply list_elem_of_singleton in Ht as ->.
    do 8 (apply elem_of_cons; right). apply elem_of_cons. auto. }
  intros Hin. simpl in Hin.
  apply elem_of_cons in Hin as [->|Hin].
  { unfold validRecord, textValid; simpl; split_and!;
      try reflexivity; try done; try lia.
    - apply Hg, elem_of_cons. auto.
    - eexists. split; [reflexivity|lia]. }
  apply elem_of_cons in Hin as [->|Hin].
  { unfold validRecord, textValid; simpl; split_and!;
      try reflexivity; try done; try lia.
    - apply Hg, elem_of_cons. auto.
    - eexists. split; [reflexivity|lia]. }
  apply list_elem_of_singleton in Hin as ->.
  unfold validRecord, textValid; simpl; split_and!;
    try reflexivity; try done; try lia.
  - apply Hg, elem_of_cons. right. apply elem_of_cons. auto.
  - eexists. split; [reflexivity|lia].
Qed.

(** A property of records that holds of every record a create or an
    update can build from a validated body holds of every record of the
    next state. *)
Lemma stored_handle (Q : Book.t → Prop) r s :
  (∀ book, book ∈ books s → Q book) →
  (∀ body id0 created t title author genre description,
     (r = PostBook body ∨ ∃ id, r = PutBook id body) →
     bookValidation body = [] →
     textFields body title author genre description →
     (id0 = nextId s ∨ ∃ current, current ∈ books s ∧ id0 = Book.id current) →
     Q {| Book.id := id0;
          Book.title := JS.trim title;
          Book.author := JS.trim author;
          Book.genre := JS.trim genre;
          Book.publicationYear := Value.parseInt (Body.publicationYear body);
          Book.description := JS.trim description;
          Book.createdAt := created;
          Book.updatedAt := t |}) →
  ∀ book, book ∈ books (handle r s).2 → Q book.
Proof.
  intros Hall Hnew.
  destruct r as [| |id|body|id body|id|query].
  - done.
  - done.
  - cbn [handle]. by rewrite getBook_state.
  - destruct (handle (PostBook body) s) as [r1 s1] eqn:Hpost.
    destruct (decide (status r1 = 201%nat)) as [H201|Hno].
    + destruct (handle_post_created _ _ _ _ Hpost H201)
        as (t & a & g & d & Hf & Hvalid & _ & -> & _).
      cbn [snd books]. intros book [Hin|Hin]%elem_of_app; [by apply Hall|].
      apply list_elem_of_singleton in Hin as ->.
      apply Hnew; eauto.
    + cbn [handle] in Hpost.
      destruct (handleValidationErrors_cases body
        (createBook (sanitize body)) s) as [Hv|Hv]; rewrite Hv in Hpost;
        [|by injection Hpost as <- <-].
      destruct (createBook_cases (sanitize body) s)
        as [[Hc _]|[[Hc _]|[[Hc _]|(t & a & g & d & _ & Hc & _)]]];
        rewrite Hc in Hpost; injection Hpost as <- <-; done.
  - destruct (handle (PutBook id body) s) as [r1 s1] eqn:Hput.
    destruct (decide (status r1 = 200%nat)) as [H200|Hno].
    + destruct (handle_put_updated _ _ _ _ _ Hput H200)
        as (i & current & t & a & g & d & Hfind & Hf & Hvalid & _ & ->).
      apply list_find_Some in Hfind as (Hk & _ & _).
      cbn [snd books]. intros book [j Hj]%list_elem_of_lookup_1.
      apply list_lookup_insert_Some in Hj as [(_ & <- & _)|[_ Hj]];
        [|by eapply Hall, list_elem_of_lookup_2].
      apply Hnew; eauto. right. exists current.
      split; [by eapply list_elem_of_lookup_2|done].
    + cbn [handle] in Hput.
      destruct (handleValidationErrors_cases body
        (updateBook id (sanitize body)) s) as [Hv|Hv]; rewrite Hv in Hput;
        [|by injection Hput as <- <-].
      destruct (updateBook_cases id (sanitize body) s)
        as [[Hu _]|(k & current & _ &
              [[Hu _]|[[Hu _]|(t & a & g & d & _ & Hu & _)]])];
        rewrite Hu in Hput; injection Hput as <- <-; done.
  - cbn [handle].
    destruct (deleteBook_cases id s) as [[-> _]|(k & b & _ & ->)]; [done|].
    cbn [snd books]. intros book Hin%list_elem_of_delete_inv. by apply Hall.
  - cbn [handle]. by rewrite searchBooks_state.
Qed.

Lemma validButForNaN_handle M r s :
  currentYear ≤ M → wellFormed s →
  (∀ book, book ∈ books s → validButForNaN M book) →
  ∀ book, book ∈ books (handle r s).2 → validButForNaN M book.
Proof.
  intros HM (_ & _ & Hpos & _ & _) Hall. apply stored_handle; [done|].
  intros body id0 created t title author genre description _ Hvalid Hf Hid.
  destruct (valid_texts _ _ _ _ _ Hvalid Hf) as (Ht & Ha & Hg & Hd).
  destruct (valid_year body Hvalid) as (_ & Hyear & _).
  split_and!; cbn.
  - destruct Hid as [->|(current & Hin & ->)]; [done|]. by apply Hall.
  - by apply textOk_valid.
  - by apply textOk_valid.
  - done.
  - intros year Hy. specialize (Hyear year Hy). lia.
  - by apply textOk_valid.
Qed.

Lemma validRecords_handle M r s :
  currentYear ≤ M → wellFormed s → ¬ emptyYear r →
  (∀ book, book ∈ books s → validRecord M book) →
  ∀ book, book ∈ books (handle r s).2 → validRecord M book.
Proof.
  intros HM (_ & _ & Hpos & _ & _) Hyes Hall. apply stored_handle; [done|].
  intros body id0 created t title author genre description Hr Hvalid Hf Hid.
  destruct (valid_texts _ _ _ _ _ Hvalid Hf) as (Ht & Ha & Hg & Hd).
  destruct (valid_year body Hvalid) as (_ & Hrange & Hyear).
  destruct Hyear as [year Hyear].
  { intros Hempty. apply Hyes. by destruct Hr as [->|[id ->]]. }
  split_and!; cbn.
  - destruct Hid as [->|(current & Hin & ->)]; [done|]. by apply Hall.
  - by apply textOk_valid.
  - by apply textOk_valid.
  - done.
  - exists year. split; [done|]. specialize (Hrange year Hyear). lia.
  - by apply textOk_valid.
Qed.

Lemma validButForNaN_run M rs s :
  currentYear ≤ M → wellFormed s →
  (∀ book, book ∈ books s → validButForNaN M book) →
  ∀ book, book ∈ books (run rs s).2 → validButForNaN M book.
Proof.
  intros HM. revert s. induction rs as [|r rs IH]; intros s Hwf Hall; [done|].
  rewrite run_cons. cbn [snd]. apply IH.
  - by apply wellFormed_handle.
  - by apply validButForNaN_handle.
Qed.

Lemma validRecords_run M rs s :
  currentYear ≤ M → wellFormed s →
  (∀ r, r ∈ rs → ¬ emptyYear r) →
  (∀ book, book ∈ books s → validRecord M book) →
  ∀ book, book ∈ books (run rs s).2 → validRecord M book.
Proof.
  intros HM. revert s.
  induction rs as [|r rs IH]; intros s Hwf Hyes Hall; [done|].
  rewrite run_cons. cbn [snd]. apply IH.
  - by apply wellFormed_handle.
  - intros r' Hr'. apply Hyes, elem_of_cons. auto.
  - apply validRecords_handle; [done..| |done].
    apply Hyes, elem_of_cons. auto.
Qed.

Lemma validButForNaN_reachable rs book :
  book ∈ books (run rs initial).2 →
  validButForNaN (Z.max currentYear 1960) book.
Proof.
  apply validButForNaN_run; [lia|apply wellFormed_initial|].
  intros b Hb. eapply validButForNaN_weaken;
    [|by apply validRecord_NaN, validRecord_initial]. lia.
Qed.

Lemma validRecords_reachable rs book :
  (∀ r, r ∈ rs → ¬ emptyYear r) →
  book ∈ books (run rs initial).2 →
  validRecord (Z.max currentYear 1960) book.
Proof.
  intros Hyes. apply validRecords_run; [lia|apply wellFormed_initial|done|].
  intros b Hb. eapply validRecord_weaken; [|by apply validRecord_initial]. lia.
Qed.

(** X1: every record of a reachable store satisfies the rules of the
    data model: a positive id, a trimmed non-empty title, author and
    description of at most 200, 100 and 1000 code units, a genre of the
    fixed list, and a publication year that, when it is a number, lies
    between 1000 and the current year (or 1960, the latest year of the
    unvalidated seed, should the current year be earlier).  The year is a
    number, not NaN, as long as no request has carried the empty array as
    publicationYear, which validation lets through. *)
Theorem stored_records_are_valid rs book :
  book ∈ books (run rs initial).2 →
  validButForNaN (Z.max currentYear 1960) book ∧
  (1960 ≤ currentYear → validButForNaN currentYear book) ∧
  ((∀ r, r ∈ rs → ¬ emptyYear r) →
   validRecord (Z.max currentYear 1960) book ∧
   (1960 ≤ currentYear → validRecord currentYear book)).
Proof.
  intros Hin. pose proof (validButForNaN_reachable rs book Hin) as Hlax.
  split_and!.
  - done.
  - intros Hyear.
    by replace (Z.max currentYear 1960) with currentYear in Hlax by lia.
  - intros Hyes. pose proof (validRecords_reachable rs book Hyes Hin) as Hvalid.
    split; [done|]. intros Hyear.
    by replace (Z.max currentYear 1960) with currentYear in Hvalid by lia.
Qed.

(** ** The store is kept in id order *)

Lemma StronglySorted_sublist_of {A} (R : A → A → Prop) l1 l2 :
  l1 `sublist_of` l2 → StronglySorted R l2 → StronglySorted R l1.
Proof.
  intros Hsub. induction Hsub as [|x l1 l2 Hsub IH|x l1 l2 Hsub IH].
  - done.
  - intros [Hall Hs]%StronglySorted_cons. apply StronglySorted_cons.
    split; [|by apply IH]. apply Forall_forall. intros y Hy.
    eapply (proj1 (Forall_forall _ _) Hall), elem_of_sublist; done.
  - intros [_ Hs]%StronglySorted_cons. by apply IH.
Qed.

Lemma idsSorted_handle r s :
  wellFormed s →
  StronglySorted Z.lt (Book.id <$> books s) →
  StronglySorted Z.lt (Book.id <$> books (handle r s).2).
Proof.
  intros (_ & _ & _ & Hrange & _) Hsorted.
  destruct r as [| |id|body|id body|id|query]; cbn [handle].
  - done.
  - done.
  - by rewrite getBook_state.
  - destruct (handleValidationErrors_cases body
      (createBook (sanitize body)) s) as [-> | ->]; [|done].
    destruct (createBook_cases (sanitize body) s)
      as [[-> _]|[[-> _]|[[-> _]|(t & a & g & d & _ & -> & _)]]];
      [done..|].
    cbn [snd books]. rewrite fmap_snoc. apply StronglySorted_app.
    split_and!; [|done|by repeat constructor].
    intros x y [b [-> Hb]]%list_elem_of_fmap ->%list_elem_of_singleton.
    simpl. by apply Hrange.
  - destruct (handleValidationErrors_cases body
      (updateBook id (sanitize body)) s) as [-> | ->]; [|done].
    destruct (updateBook_cases id (sanitize body) s)
      as [[-> _]|(k & current & Hfind &
            [[-> _]|[[-> _]|(t & a & g & d & _ & -> & _)]])]; [done..|].
    apply list_find_Some in Hfind as (Hk & _ & _).
    cbn [snd books]. rewrite list_fmap_insert. simpl.
    rewrite list_insert_id; [done|]. by rewrite list_lookup_fmap, Hk.
  - destruct (deleteBook_cases id s) as [[-> _]|(k & b & _ & ->)]; [done|].
    cbn [snd books]. rewrite list_fmap_delete.
    eapply StronglySorted_sublist_of; [apply sublist_delete|done].
  - by rewrite searchBooks_state.
Qed.

Lemma idsSorted_run rs s :
  wellFormed s →
  StronglySorted Z.lt (Book.id <$> books s) →
  StronglySorted Z.lt (Book.id <$> books (run rs s).2).
Proof.
  revert s. induction rs as [|r rs IH]; intros s Hwf Hsorted; [done|].
  rewrite run_cons. cbn [snd]. apply IH.
  - by apply wellFormed_handle.
  - by apply idsSorted_handle.
Qed.

(** X2: the store is always in ascending id order, that is, in order of
    creation; so the list of all books, and the hits of every search,
    come out sorted by id. *)
Theorem store_sorted_by_id rs param :
  let s := (run rs initial).2 in
  StronglySorted Z.lt (Book.id <$> books s) ∧
  StronglySorted Z.lt (Book.id <$> booksOf (handle GetBooks s).1) ∧
  StronglySorted Z.lt (Book.id <$> booksOf (handle (SearchBooks param) s).1).
Proof.
  cbv zeta.
  assert (StronglySorted Z.lt (Book.id <$> books (run rs initial).2)) as Hs.
  { apply idsSorted_run; [apply wellFormed_initial|].
    simpl. by repeat constructor. }
  split_and!; [done..|].
  cbn [handle]. unfold searchBooks. cbv zeta.
  destruct (JS.isEmpty _); [constructor|].
  cbn [fst booksOf data ok].
  eapply StronglySorted_sublist_of; [|exact Hs].
  apply fmap_sublist, sublist_filter.
Qed.

(** ** What never changes in a record *)

Lemma continues_refl s : continues s s.
Proof.
  split_and!; [lia..|]. intros book Hin. right. exists book. auto.
Qed.

Lemma continues_trans s1 s2 s3 :
  continues s1 s2 → continues s2 s3 → continues s1 s3.
Proof.
  intros (Hn12 & Hd12 & H12) (Hn23 & Hd23 & H23).
  split_and!; [lia..|]. intros b3 Hin3.
  destruct (H23 b3 Hin3) as [?|(b2 & Hin2 & Hid & Hc & Hu)]; [left; lia|].
  destruct (H12 b2 Hin2) as [?|(b1 & Hin1 & Hid' & Hc' & Hu')];
    [left; lia|].
  right. exists b1. split_and!; [done|congruence..|].
  destruct Hu as [->|(k & ? & ? & ?)].
  - destruct Hu' as [->|(k & ? & ? & ?)]; [by left|].
    right. exists k. split_and!; [done|lia|done].
  - right. exists k. split_and!; [lia|done..].
Qed.

Lemma continues_handle r s : continues s (handle r s).2.
Proof.
  destruct r as [| |id|body|id body|id|query]; cbn [handle].
  - split_and!; simpl; [lia..|]. intros book Hin. right. exists book. auto.
  - apply continues_refl.
  - rewrite getBook_state. apply continues_refl.
  - destruct (handleValidationErrors_cases body
      (createBook (sanitize body)) s) as [-> | ->];
      [|apply continues_refl].
    destruct (createBook_cases (sanitize body) s)
      as [[-> _]|[[-> _]|[[-> _]|(t & a & g & d & _ & -> & _)]]];
      [apply continues_refl..| |].
    + split_and!; cbn [snd books nextId dateReads]; [lia..|].
      intros book Hin. right. exists book. auto.
    + split_and!; cbn [snd books nextId dateReads]; [lia..|].
      intros book [Hin|Hin]%elem_of_app.
      * right. exists book. auto.
      * apply list_elem_of_singleton in Hin as ->. left. simpl. lia.
  - destruct (handleValidationErrors_cases body
      (updateBook id (sanitize body)) s) as [-> | ->];
      [|apply continues_refl].
    destruct (updateBook_cases id (sanitize body) s)
      as [[-> _]|(k & current & Hfind &
            [[-> _]|[[-> _]|(t & a & g & d & _ & -> & _)]])];
      [apply continues_refl..|].
    apply list_find_Some in Hfind as (Hk & _ & _).
    split_and!; cbn [snd books nextId dateReads]; [lia..|].
    intros book [j Hj]%list_elem_of_lookup_1. right.
    apply list_lookup_insert_Some in Hj as [(_ & <- & _)|[_ Hj]].
    + exists current. split_and!; [by eapply list_elem_of_lookup_2|done..|].
      right. exists (dateReads s). split_and!; [lia..|done].
    + exists book. split_and!; [by eapply list_elem_of_lookup_2|auto..].
  - destruct (deleteBook_cases id s) as [[-> _]|(k & b & _ & ->)];
      [apply continues_refl|].
    split_and!; cbn [snd books nextId dateReads]; [lia..|].
    intros book Hin%list_elem_of_delete_inv. right. exists book. auto.
  - rewrite searchBooks_state. apply continues_refl.
Qed.

Lemma continues_run rs s : continues s (run rs s).2.
Proof.
  revert s. induction rs as [|r rs IH]; intros s; [apply continues_refl|].
  rewrite run_cons. cbn [snd].
  eapply continues_trans; [apply continues_handle|apply IH].
Qed.

(** X3: along any run, a record keeps its id and its createdAt for as
    long as it lives: a record found later under the same id has the same
    createdAt, and it is either the very same record or its updatedAt is
    a clock reading taken in between, hence not earlier than before when
    the clock never runs backwards. *)
Theorem createdAt_is_immutable rs0 rs book book' :
  book ∈ books (run rs0 initial).2 →
  book' ∈ books (run rs (run rs0 initial).2).2 →
  Book.id book' = Book.id book →
  Book.createdAt book' = Book.createdAt book ∧
  (book' = book ∨
   ∃ k, (dateReads (run rs0 initial).2 ≤ k)%nat ∧
        (k < dateReads (run rs (run rs0 initial).2).2)%nat ∧
        Book.updatedAt book' = now k) ∧
  (monotone now → Book.updatedAt book ≤ Book.updatedAt book').
Proof.
  intros Hin Hin' Hid.
  pose proof (wellFormed_run rs0 initial wellFormed_initial)
    as (Hids & _ & _ & Hrange & Hstamps).
  destruct (continues_run rs (run rs0 initial).2) as (_ & _ & Hcont).
  destruct (Hcont book' Hin') as [Hnew|(b & Hb & Hidb & Hc & Hu)].
  { specialize (Hrange book Hin). lia. }
  assert (b = book) as ->.
  { apply list_elem_of_lookup_1 in Hb as [i Hi].
    apply list_elem_of_lookup_1 in Hin as [j Hj].
    assert (i = j) as -> by (eapply Hids; [done..|congruence]).
    congruence. }
  split_and!; [done|done|].
  intros Hmono. destruct Hu as [->|(k & ? & _ & ->)]; [lia|].
  destruct (Hstamps book Hin) as (i & j & _ & ? & _ & ->).
  apply Hmono. lia.
Qed.

(** ** The response envelope, and what the browser makes of it *)

Lemma handle_failure r s :
  success (handle r s).1 = false →
  ((handle r s).2 = s ∨
   status (handle r s).1 = 500%nat ∧ (∃ body, r = PostBook body) ∧
   (handle r s).2 =
     {| books := books s; nextId := nextId s + 1;
        dateReads := dateReads s |}) ∧
  (status (handle r s).1 = 400%nat ∨ status (handle r s).1 = 404%nat ∨
   status (handle r s).1 = 409%nat ∨
   status (handle r s).1 = 500%nat ∧
   ∃ body, bookValidation body = [] ∧ arrayField body ∧
     (r = PostBook body ∨ ∃ id, r = PutBook id body)) ∧
  booksOf (handle r s).1 = [] ∧
  ∃ m, message (handle r s).1 = Some m ∧ m ≠ EmptyString.
Proof.
  destruct r as [| |id|body|id body|id|query]; cbn [handle].
  - done.
  - done.
  - destruct (getBook_cases id s) as [[-> _]|(? & ? & _ & ->)]; [|done].
    intros _. split_and!; [auto|auto|done|by eexists].
  - destruct (bookValidation body) eqn:Hvalid; cbn [handleValidationErrors].
    + destruct (createBook_cases (sanitize body) s)
        as [[-> _]|[[-> Harr]|[[-> Harr]|(t & a & g & d & _ & -> & _)]]];
        [| | |done]; intros _.
      * split_and!; [auto|auto|done|by eexists].
      * apply (proj1 (sanitize_arrayField body)) in Harr.
        split_and!; [auto| |done|by eexists].
        do 3 right. split; [done|]. exists body. split_and!; auto.
      * apply (proj1 (sanitize_arrayField body)) in Harr.
        split_and!; [|  |done|by eexists].
        -- right. split_and!; [done|by exists body|done].
        -- do 3 right. split; [done|]. exists body. split_and!; auto.
    + intros _. split_and!; [auto|auto|done|by eexists].
  - destruct (bookValidation body) eqn:Hvalid; cbn [handleValidationErrors].
    + destruct (updateBook_cases id (sanitize body) s)
        as [[-> _]|(? & ? & _ &
              [[-> _]|[[-> Harr]|(t & a & g & d & _ & -> & _)]])];
        [| | |done]; intros _.
      * split_and!; [auto|auto|done|by eexists].
      * split_and!; [auto|auto|done|by eexists].
      * apply (proj1 (sanitize_arrayField body)) in Harr.
        split_and!; [auto| |done|by eexists].
        do 3 right. split; [done|]. exists body. split_and!; eauto.
    + intros _. split_and!; [auto|auto|done|by eexists].
  - destruct (deleteBook_cases id s) as [[-> _]|(? & ? & _ & ->)]; [|done].
    intros _. split_and!; [auto|auto|done|by eexists].
  - unfold searchBooks. cbv zeta. destruct (JS.isEmpty _); [|done].
    intros _. split_and!; [auto|auto|done|by eexists].
Qed.

Lemma handle_success r s :
  success (handle r s).1 = true →
  status (handle r s).1 = 200%nat ∨
  status (handle r s).1 = 201%nat ∧ ∃ body, r = PostBook body.
Proof.
  destruct r as [| |id|body|id body|id|query]; cbn [handle].
  - auto.
  - auto.
  - destruct (getBook_cases id s) as [[-> _]|(? & ? & _ & ->)]; [done|auto].
  - destruct (handleValidationErrors_cases body
      (createBook (sanitize body)) s) as [-> | ->]; [|done].
    destruct (createBook_cases (sanitize body) s)
      as [[-> _]|[[-> _]|[[-> _]|(t & a & g & d & _ & -> & _)]]];
      [done..|]. intros _. right. split; [done|by eexists].
  - destruct (handleValidationErrors_cases body
      (updateBook id (sanitize body)) s) as [-> | ->]; [|done].
    destruct (updateBook_cases id (sanitize body) s)
      as [[-> _]|(? & ? & _ &
            [[-> _]|[[-> _]|(t & a & g & d & _ & -> & _)]])];
      [done..|auto].
  - destruct (deleteBook_cases id s) as [[-> _]|(? & ? & _ & ->)];
      [done|auto].
  - unfold searchBooks. cbv zeta. destruct (JS.isEmpty _); [done|auto].
Qed.

(** X4: a request that is answered with a failure leaves the books and
    the count of clock readings as they were, and it changes nothing at
    all unless it is a create answered 500, which has used up an id (the
    counter is one higher); a failed update, whatever its status, changes
    nothing.  A read (list, get, search) changes nothing, whatever its
    answer, and the health check leaves the books and the id counter
    alone. *)
Theorem failures_keep_the_books r s :
  (success (handle r s).1 = false →
     books (handle r s).2 = books s ∧
     dateReads (handle r s).2 = dateReads s ∧
     ((handle r s).2 = s ∨
      status (handle r s).1 = 500%nat ∧ (∃ body, r = PostBook body) ∧
      nextId (handle r s).2 = nextId s + 1)) ∧
  (success (handle r s).1 = false → status (handle r s).1 ≠ 500%nat →
     (handle r s).2 = s) ∧
  (success (handle r s).1 = false → (∃ id body, r = PutBook id body) →
     (handle r s).2 = s) ∧
  (handle GetBooks s).2 = s ∧
  (∀ id, (handle (GetBook id) s).2 = s) ∧
  (∀ param, (handle (SearchBooks param) s).2 = s) ∧
  books (handle GetHealth s).2 = books s ∧
  nextId (handle GetHealth s).2 = nextId s.
Proof.
  split_and!; try done.
  - intros ([->|(? & ? & ->)] & _)%handle_failure; [by auto|].
    cbn [books dateReads nextId]. split_and!; [done..|]. right. by split_and!.
  - intros ([?|(? & _)] & _)%handle_failure; done.
  - intros ([?|(_ & [b ->] & _)] & _)%handle_failure [id [body [=]]]. done.
  - intros id. apply getBook_state.
  - intros param. apply searchBooks_state.
Qed.


Lemma handleAPIError_thrown m :
  m ≠ EmptyString →
  handleAPIError {| Error.name := "Error"; Error.message := m |} =
  {| ErrorResult.success := false; ErrorResult.error := m |}.
Proof.
  intros Hm. unfold handleAPIError. simpl.
  by rewrite (proj2 (isEmpty_false m) Hm).
Qed.

(** X6: the browser's service accepts exactly the successful answers of
    the server; for every failure it throws an Error whose message is the
    server's own message, never the generic "HTTP error" text, and
    handleAPIError passes that message on unchanged.  Whatever Error it
    is given, handleAPIError reports a failure with a non-empty text. *)
Theorem client_shows_server_message r s :
  (success (handle r s).1 = true →
     handleResponse (handle r s).1 = inr (handle r s).1) ∧
  (success (handle r s).1 = false →
     ∃ m, message (handle r s).1 = Some m ∧
       handleResponse (handle r s).1 =
         inl {| Error.name := "Error"; Error.message := m |} ∧
       handleAPIError {| Error.name := "Error"; Error.message := m |} =
         {| ErrorResult.success := false; ErrorResult.error := m |}) ∧
  (∀ error,
     ErrorResult.success (handleAPIError error) = false ∧
     ErrorResult.error (handleAPIError error) ≠ EmptyString).
Proof.
  split_and!.
  - intros Hs. unfold handleResponse, responseOk.
    by destruct (handle_success r s Hs) as [Hst|[Hst _]]; rewrite Hst.
  - intros Hs. destruct (handle_failure r s Hs) as (_ & Hst & _ & m & Hm & Hne).
    exists m. split; [done|]. split; [|by apply handleAPIError_thrown].
    unfold handleResponse, responseOk. rewrite Hm.
    destruct Hst as [Hst|[Hst|[Hst|[Hst _]]]]; rewrite Hst; simpl;
      by rewrite (proj2 (isEmpty_false m) Hne).
  - intros error. unfold handleAPIError.
    destruct (_ && _); simpl; [done|]. split; [done|].
    by destruct (Error.message error).
Qed.

(** ** How the operations compose *)

(** X7: every record of a reachable store is returned, as it is, by a
    get on its id written in decimal, and on any other segment that
    parseInt reads as its id. *)
Theorem get_returns_every_live_record rs book id :
  book ∈ books (run rs initial).2 →
  JS.parseInt id = Some (Book.id book) →
  handle (GetBook id) (run rs initial).2 =
    (ok None (OneBook book), (run rs initial).2) ∧
  handle (GetBook (JS.numberToString (Book.id book))) (run rs initial).2 =
    (ok None (OneBook book), (run rs initial).2).
Proof.
  intros Hin Hid.
  pose proof (wellFormed_run rs initial wellFormed_initial)
    as (Hids & _ & _ & Hrange & _).
  cbn [handle]. split; (apply getBook_unique; [done..|]); unfold hasId.
  - done.
  - apply parseInt_numberToString. specialize (Hrange book Hin). lia.
Qed.

Lemma handle_delete_removed id s r s' :
  handle (DeleteBook id) s = (r, s') → status r = 200%nat →
  ∃ i book,
    books s !! i = Some book ∧ JS.parseInt id = Some (Book.id book) ∧
    data r = OneBook book ∧
    s' = {| books := delete i (books s); nextId := nextId s;
            dateReads := dateReads s |}.
Proof.
  intros Hdel Hstatus. cbn [handle] in Hdel.
  destruct (deleteBook_cases id s) as [[Hd _]|(i & b & Hfind & Hd)];
    rewrite Hd in Hdel; injection Hdel as <- <-; [done|].
  apply list_find_Some in Hfind as (Hi & Hb & _).
  by exists i, b.
Qed.

Lemma lookup_delete_other {A} (l : list A) i j x :
  delete i l !! j = Some x → ∃ j', j' ≠ i ∧ l !! j' = Some x.
Proof.
  rewrite list_lookup_delete. case_decide; intros Hx.
  - exists j. split; [lia|done].
  - exists (S j). split; [lia|done].
Qed.

(** X8: deleting a record of a reachable store frees its title and
    author: a valid create with the same pair, in any letter case, and
    with strings as its four text fields, right after the delete is
    answered 201, and the new record gets an id above the deleted one. *)
Theorem delete_frees_title_and_author rs id r s1 removed body
    title author genre description :
  handle (DeleteBook id) (run rs initial).2 = (r, s1) →
  status r = 200%nat → data r = OneBook removed →
  bookValidation body = [] →
  textFields body title author genre description →
  sameTitleAuthor (JS.trim title) (JS.trim author) removed →
  ∃ r2 s2 created,
    handle (PostBook body) s1 = (r2, s2) ∧ status r2 = 201%nat ∧
    data r2 = OneBook created ∧ Book.id removed < Book.id created ∧
    Book.title created = JS.trim title ∧
    Book.author created = JS.trim author ∧
    books s2 = books s1 ++ [created].
Proof.
  intros Hdel Hstatus Hdata Hvalid Hf Hsame.
  pose proof (wellFormed_run rs initial wellFormed_initial)
    as (_ & Hkeys & _ & Hrange & _).
  destruct (handle_delete_removed _ _ _ _ Hdel Hstatus)
    as (i & b & Hi & _ & Hb & ->).
  rewrite Hdata in Hb. injection Hb as <-.
  destruct (handle_post_text body
              {| books := delete i (books (run rs initial).2);
                 nextId := nextId (run rs initial).2;
                 dateReads := dateReads (run rs initial).2 |}
              _ _ _ _ Hvalid Hf) as [_ Hnew].
  rewrite Hnew.
  - eexists _, _, _. split; [done|]. split_and!; try done.
    simpl. pose proof (Hrange removed (list_elem_of_lookup_2 _ _ _ Hi)). lia.
  - cbn [books]. intros other [j Hj]%list_elem_of_lookup_1 Hother.
    apply lookup_delete_other in Hj as (j' & Hne & Hj').
    destruct Hne. eapply Hkeys; [done..|].
    apply sameTitleAuthor_key in Hsame, Hother. congruence.
Qed.

(** X9: repeating a successful update on a reachable store succeeds
    again and changes nothing but updatedAt, which moves to the new clock
    reading. *)
Theorem repeated_update_only_moves_updatedAt rs id body r1 s1 :
  handle (PutBook id body) (run rs initial).2 = (r1, s1) →
  status r1 = 200%nat →
  ∃ i first second s2,
    data r1 = OneBook first ∧ books s1 !! i = Some first ∧
    handle (PutBook id body) s1 =
      (ok (Some "Book updated successfully") (OneBook second), s2) ∧
    second =
      {| Book.id := Book.id first;
         Book.title := Book.title first;
         Book.author := Book.author first;
         Book.genre := Book.genre first;
         Book.publicationYear := Book.publicationYear first;
         Book.description := Book.description first;
         Book.createdAt := Book.createdAt first;
         Book.updatedAt := now (dateReads s1) |} ∧
    books s2 = <[i := second]> (books s1) ∧
    nextId s2 = nextId s1.
Proof.
  intros Hput Hstatus.
  pose proof (wellFormed_run rs initial wellFormed_initial) as Hwf.
  pose proof (wellFormed_handle (PutBook id body) _ Hwf) as Hwf1.
  rewrite Hput in Hwf1. cbn [snd] in Hwf1.
  destruct Hwf1 as (Hids & Hkeys & _).
  destruct (handle_put_updated _ _ _ _ _ Hput Hstatus)
    as (i & current & t & a & g & d & Hfind & Hf & Hvalid & Hfirst & Hs1).
  apply list_find_Some in Hfind as (Hi & Hcur & _). unfold hasId in Hcur.
  cbv zeta in Hfirst, Hs1.
  set (first :=
         {| Book.id := Book.id current;
            Book.title := JS.trim t;
            Book.author := JS.trim a;
            Book.genre := JS.trim g;
            Book.publicationYear := Value.parseInt (Body.publicationYear body);
            Book.description := JS.trim d;
            Book.createdAt := Book.createdAt current;
            Book.updatedAt := now (dateReads (run rs initial).2) |}) in *.
  assert (books s1 !! i = Some first) as Hi1.
  { rewrite Hs1. cbn [books]. apply list_lookup_insert_eq.
    by eapply lookup_lt_Some. }
  assert (∀ j b, books s1 !! j = Some b →
            JS.parseInt id = Some (Book.id b) → j = i ∧ b = first) as Honly.
  { intros j b Hj Hb.
    assert (j = i) as -> by (eapply Hids; [done..|simpl; congruence]).
    split; [done|congruence]. }
  exists i, first.
  destruct (updateBook_cases id (sanitize body) s1)
    as [[_ Hnone]|(i' & current' & Hfind' & _)].
  { destruct (Hnone first (list_elem_of_lookup_2 _ _ _ Hi1)).
    unfold hasId. by rewrite Hcur. }
  pose proof Hfind' as Hfind1.
  apply list_find_Some in Hfind1 as (Hi' & Hcur' & _).
  destruct (Honly _ _ Hi' Hcur') as [-> ->].
  destruct (handle_put_text id body s1 i first _ _ _ _ Hvalid Hfind' Hf)
    as [_ Hnew].
  rewrite Hnew.
  - by eexists _, _.
  - intros other [j Hj]%list_elem_of_lookup_1 Hsame.
    assert (j = i) as ->; [|congruence].
    eapply Hkeys; [done..|]. apply sameTitleAuthor_key in Hsame.
    by rewrite Hsame.
Qed.

(** X10: once a record of a reachable store is deleted, whatever
    requests follow, a delete and a valid update on that id are answered
    404 and change nothing. *)
Theorem deleted_id_stays_not_found rs0 id r s1 rs :
  handle (DeleteBook id) (run rs0 initial).2 = (r, s1) →
  status r = 200%nat →
  handle (DeleteBook id) (run rs s1).2 = (notFound, (run rs s1).2) ∧
  ∀ body, bookValidation body = [] →
    handle (PutBook id body) (run rs s1).2 = (notFound, (run rs s1).2).
Proof.
  intros Hdel Hstatus.
  pose proof (wellFormed_run rs0 initial wellFormed_initial)
    as (Hids & _ & _ & Hrange & _).
  destruct (handle_delete_removed _ _ _ _ Hdel Hstatus)
    as (i & b & Hi & Hb & _ & Hs1).
  assert (retired (Book.id b) s1) as Hret.
  { subst s1. split; cbn [books nextId].
    - by apply Hrange, (list_elem_of_lookup_2 _ i).
    - intros book [j Hj]%list_elem_of_lookup_1 Heq.
      apply lookup_delete_other in Hj as (j' & Hne & Hj').
      destruct Hne. by eapply Hids. }
  assert (∀ book, book ∈ books (run rs s1).2 →
            ¬ hasId (JS.parseInt id) book) as Hnone.
  { intros book Hin. unfold hasId. rewrite Hb. intros [= Heq].
    by apply (proj2 (retired_run _ rs _ Hret) book Hin). }
  split.
  - cbn [handle].
    destruct (deleteBook_cases id (run rs s1).2)
      as [[-> _]|(j & book & Hfind & _)]; [done|].
    found_but_absent Hfind Hnone.
  - intros body Hvalid. rewrite (handle_put_valid _ _ _ Hvalid).
    destruct (updateBook_cases id (sanitize body) (run rs s1).2)
      as [[-> _]|(j & book & Hfind & _)]; [done|].
    found_but_absent Hfind Hnone.
Qed.

(** X11: a successful create takes its title and author: a valid create
    with the same pair, in any letter case and with any padding, right
    after it is answered 409 and changes nothing. *)
Theorem created_pair_is_taken body body' s r1 s1
    title author title' author' :
  handle (PostBook body) s = (r1, s1) → status r1 = 201%nat →
  bookValidation body' = [] →
  Body.title body = Text title → Body.author body = Text author →
  Body.title body' = Text title' → Body.author body' = Text author' →
  JS.toLowerCase (JS.trim title') = JS.toLowerCase (JS.trim title) →
  JS.toLowerCase (JS.trim author') = JS.toLowerCase (JS.trim author) →
  handle (PostBook body') s1 = (conflict, s1).
Proof.
  intros Hpost Hstatus Hvalid' Etitle Eauthor Etitle' Eauthor' Ht Ha.
  destruct (handle_post_created _ _ _ _ Hpost Hstatus)
    as (t & a & g & d & (Et & Ea & _) & _ & _ & Hs1 & _).
  rewrite Etitle in Et. rewrite Eauthor in Ea.
  injection Et as <-. injection Ea as <-.
  rewrite (handle_post_valid _ _ Hvalid'). unfold createBook.
  rewrite (createBook_find _ s1 (JS.trim title') (JS.trim author'));
    [|unfold sanitize; cbn [Body.title Body.author];
      by rewrite ?Etitle', ?Eauthor'..].
  match goal with
  | |- context [list_find ?P ?l] =>
      destruct (list_find P l) as [[j b]|] eqn:Hfind; [done|]
  end.
  apply list_find_None in Hfind.
  rewrite Hs1 in Hfind. cbn [books] in Hfind.
  apply Forall_app in Hfind as [_ Hlast].
  apply (proj1 (Forall_singleton _ _)) in Hlast. exfalso. apply Hlast.
  unfold sameTitleAuthor; simpl. by rewrite Ht, Ha.
Qed.

(** ** More on search *)

Lemma toLowerCase_empty s :
  JS.toLowerCase s = EmptyString ↔ s = EmptyString.
Proof. by destruct s. Qed.

Lemma search_query_blank param :
  JS.trim (JS.toLowerCase param) = EmptyString ↔
  JS.trim param = EmptyString.
Proof. by rewrite trim_toLowerCase, toLowerCase_empty. Qed.

Lemma searchBooks_same_query param param' s :
  JS.trim (JS.toLowerCase param) = JS.trim (JS.toLowerCase param') →
  status (searchBooks param s).1 = status (searchBooks param' s).1 ∧
  booksOf (searchBooks param s).1 = booksOf (searchBooks param' s).1.
Proof.
  unfold searchBooks. cbv zeta. intros ->.
  by destruct (JS.isEmpty _).
Qed.

(** X12: the search handler answers 400 exactly when the term is blank
    (empty once trimmed), which is exactly when the browser's service
    refuses to send it; any other term is answered 200, and the service
    sends it trimmed, which is answered 200 with the same hits. *)
Theorem search_rejects_exactly_blank_terms param s :
  (JS.trim param = EmptyString →
     status (handle (SearchBooks param) s).1 = 400%nat ∧
     searchTerm param =
       inl {| Error.name := "Error";
              Error.message := "Search query is required" |}) ∧
  (JS.trim param ≠ EmptyString →
     status (handle (SearchBooks param) s).1 = 200%nat ∧
     searchTerm param = inr (JS.trim param) ∧
     status (handle (SearchBooks (JS.trim param)) s).1 = 200%nat ∧
     booksOf (handle (SearchBooks (JS.trim param)) s).1 =
       booksOf (handle (SearchBooks param) s).1).
Proof.
  cbn [handle]. split.
  - intros Hblank. split.
    + unfold searchBooks. cbv zeta.
      by rewrite (proj2 (search_query_blank param) Hblank).
    + unfold searchTerm. rewrite Hblank. simpl. by rewrite orb_true_r.
  - intros Hterm.
    assert (status (searchBooks param s).1 = 200%nat) as Hok.
    { unfold searchBooks. cbv zeta.
      assert (JS.trim (JS.toLowerCase param) ≠ EmptyString) as Hq
        by (by rewrite search_query_blank).
      by rewrite (proj2 (isEmpty_false _) Hq). }
    destruct (searchBooks_same_query (JS.trim param) param s) as [Hst Hhits].
    { by rewrite !trim_toLowerCase, trim_idempotent. }
    split_and!; [done| |congruence|done].
    unfold searchTerm. rewrite (proj2 (isEmpty_false _) Hterm).
    destruct param; [done|]. done.
Qed.

(** X13: the hits of a search depend on the term only through its
    lower-cased, trimmed form: two terms that agree on it get the same
    status and the same hits; in particular a term, its lower-cased form
    and its trimmed form are answered alike. *)
Theorem search_ignores_case_and_padding param s :
  (∀ param',
     JS.trim (JS.toLowerCase param) = JS.trim (JS.toLowerCase param') →
     status (handle (SearchBooks param) s).1 =
       status (handle (SearchBooks param') s).1 ∧
     booksOf (handle (SearchBooks param) s).1 =
       booksOf (handle (SearchBooks param') s).1) ∧
  booksOf (handle (SearchBooks (JS.toLowerCase param)) s).1 =
    booksOf (handle (SearchBooks param) s).1 ∧
  booksOf (handle (SearchBooks (JS.trim param)) s).1 =
    booksOf (handle (SearchBooks param) s).1.
Proof.
  cbn [handle]. split_and!.
  - intros param'. apply searchBooks_same_query.
  - apply searchBooks_same_query. by rewrite toLowerCase_idempotent.
  - apply searchBooks_same_query.
    by rewrite !trim_toLowerCase, trim_idempotent.
Qed.

Lemma genres_not_empty g : g ∈ genres → g ≠ EmptyString.
Proof.
  unfold genres. intros Hin.
  repeat (apply elem_of_cons in Hin as [->|Hin]; [done|]).
  by apply elem_of_nil in Hin.
Qed.

Lemma search_by_own_text v book s :
  JS.trim v = v → v ≠ EmptyString → book ∈ books s →
  matchesQuery (JS.toLowerCase v) book = true →
  book ∈ booksOf (searchBooks v s).1.
Proof.
  intros Htrim Hne Hin Hmatch. unfold searchBooks. cbv zeta.
  rewrite trim_toLowerCase, Htrim.
  assert (JS.toLowerCase v ≠ EmptyString) as Hq
    by (by rewrite toLowerCase_empty).
  rewrite (proj2 (isEmpty_false _) Hq). cbn [fst booksOf data ok].
  by apply list_elem_of_filter.
Qed.

(** X14: in a reachable store every record is among the hits of a search
    for its own title, author, genre or description, typed as stored. *)
Theorem search_finds_record_by_its_own_fields rs book :
  book ∈ books (run rs initial).2 →
  let s := (run rs initial).2 in
  book ∈ booksOf (handle (SearchBooks (Book.title book)) s).1 ∧
  book ∈ booksOf (handle (SearchBooks (Book.author book)) s).1 ∧
  book ∈ booksOf (handle (SearchBooks (Book.genre book)) s).1 ∧
  book ∈ booksOf (handle (SearchBooks (Book.description book)) s).1.
Proof.
  intros Hin. cbv zeta. cbn [handle].
  destruct (validButForNaN_reachable rs book Hin)
    as (_ & (? & ? & _) & (? & ? & _) & Hg & _ & (? & ? & _)).
  split_and!; (apply search_by_own_text;
    [done || by apply genres_trimmed
    |done || by apply genres_not_empty
    |done
    |unfold matchesQuery; rewrite includes_self;
     by rewrite ?orb_true_r]).
Qed.

(** ** Padding and blank fields in a payload *)

Lemma whiteSpaceOnly_trimStart w :
  whiteSpaceOnly w ↔ JS.trimStart w = EmptyString.
Proof.
  unfold whiteSpaceOnly, JS.trim. split; [|by intros ->].
  destruct (trimStart_head w) as [->|(c & r & -> & Hc)]; [done|].
  simpl. by rewrite Hc.
Qed.

Lemma trimStart_app_blank l x :
  whiteSpaceOnly l → JS.trimStart (l +:+ x) = JS.trimStart x.
Proof.
  rewrite whiteSpaceOnly_trimStart.
  induction l as [|c l IH]; [done|].
  change (String c l +:+ x) with (String c (l +:+ x)). simpl.
  by destruct (JS.isWhiteSpace c).
Qed.

Lemma trimEnd_blank r : whiteSpaceOnly r → JS.trimEnd r = EmptyString.
Proof.
  rewrite whiteSpaceOnly_trimStart.
  induction r as [|c r IH]; [done|]. simpl.
  destruct (JS.isWhiteSpace c); [|done].
  intros Hr. by rewrite (IH Hr).
Qed.

Lemma trimEnd_app_blank x r :
  whiteSpaceOnly r → JS.trimEnd (x +:+ r) = JS.trimEnd x.
Proof.
  intros Hr. induction x as [|c x IH]; [by apply trimEnd_blank|].
  change (String c x +:+ r) with (String c (x +:+ r)).
  cbn [JS.trimEnd]. by rewrite IH.
Qed.

Lemma trim_app_blank x r :
  whiteSpaceOnly r → JS.trim (x +:+ r) = JS.trim x.
Proof.
  intros Hr. unfold JS.trim. induction x as [|c x IH].
  - change (EmptyString +:+ r) with r.
    apply whiteSpaceOnly_trimStart in Hr. by rewrite Hr.
  - change (String c x +:+ r) with (String c (x +:+ r)).
    cbn [JS.trimStart]. destruct (JS.isWhiteSpace c); [done|].
    by apply (trimEnd_app_blank (String c x)).
Qed.

Lemma trim_padded v v' : padded v v' → JS.trim v' = JS.trim v.
Proof.
  intros (l & r & Hl & Hr & ->).
  unfold JS.trim at 1. rewrite trimStart_app_blank by done.
  by apply trim_app_blank.
Qed.

Lemma handle_same_sanitized body body' s :
  sanitize body = sanitize body' →
  handle (PostBook body) s = handle (PostBook body') s ∧
  ∀ id, handle (PutBook id body) s = handle (PutBook id body') s.
Proof.
  intros Heq. cbn [handle]. unfold bookValidation. cbv zeta.
  by rewrite Heq.
Qed.

Lemma sanitized_padded v v' :
  paddedValue v v' → Value.sanitized JS.trim v' = Value.sanitized JS.trim v.
Proof.
  destruct v as [s|l], v' as [s'|l']; simpl; try done.
  - by intros ->%trim_padded.
  - intros Hall. f_equal.
    induction Hall as [|x x' l l' Hx _ IH]; [done|].
    rewrite !fmap_cons. by rewrite IH, (trim_padded _ _ Hx).
Qed.

(** X15: white space added around the title, author, genre or
    description of a payload (around each element, when the field is an
    array) never matters: the create and the update give the same answer
    and lead to the same state as without it. *)
Theorem padding_never_matters body body' s :
  paddedValue (Body.title body) (Body.title body') →
  paddedValue (Body.author body) (Body.author body') →
  paddedValue (Body.genre body) (Body.genre body') →
  paddedValue (Body.description body) (Body.description body') →
  Body.publicationYear body' = Body.publicationYear body →
  handle (PostBook body') s = handle (PostBook body) s ∧
  ∀ id, handle (PutBook id body') s = handle (PutBook id body) s.
Proof.
  intros Ht Ha Hg Hd Hy. apply handle_same_sanitized.
  unfold sanitize.
  by rewrite (sanitized_padded _ _ Ht), (sanitized_padded _ _ Ha),
    (sanitized_padded _ _ Hg), (sanitized_padded _ _ Hd), Hy.
Qed.

Lemma errorsFor_elements field field' (r : Rule) xs :
  errorsFor field
    (flat_map (λ x, if r.1 x then []
                    else [{| path := field'; msg := r.2 |}]) xs) =
  if decide (field' = field)
  then flat_map (λ x, if r.1 x then []
                      else [{| path := field'; msg := r.2 |}]) xs
  else [].
Proof.
  unfold errorsFor.
  induction xs as [|x xs IH]; simpl; [by case_decide|].
  rewrite filter_app, IH. destruct (r.1 x); simpl; [done|].
  rewrite filter_cons. simpl. by repeat case_decide.
Qed.

Lemma errorsFor_runChain field field' v rules :
  errorsFor field (runChain field' v rules) =
  if decide (field' = field) then runChain field' v rules else [].
Proof.
  unfold runChain.
  induction rules as [|r rules IH]; simpl; [by case_decide|].
  pose proof (errorsFor_elements field field' r (Value.elements v)) as Hr.
  unfold errorsFor in *. rewrite filter_app, IH, Hr.
  by case_decide.
Qed.

Lemma errorsFor_app field es1 es2 :
  errorsFor field (es1 ++ es2) = errorsFor field es1 ++ errorsFor field es2.
Proof. apply filter_app. Qed.

Lemma text_chain_blank field v required tooLong max :
  v = EmptyString →
  runChain field (Text v)
    [(Validator.notEmpty, required); (Validator.isLength 1 max, tooLong)] =
  [{| path := field; msg := required |};
   {| path := field; msg := tooLong |}].
Proof. by intros ->. Qed.

Lemma text_chain_too_long field v required tooLong max :
  (max < String.length v)%nat →
  runChain field (Text v)
    [(Validator.notEmpty, required); (Validator.isLength 1 max, tooLong)] =
  [{| path := field; msg := tooLong |}].
Proof.
  intros Hlen. unfold runChain. simpl.
  assert (Validator.notEmpty v = true) as ->
    by (apply notEmpty_spec; intros ->; simpl in Hlen; lia).
  assert (Validator.isLength 1 max v = false) as ->; [|done].
  apply not_true_is_false. intros [_ ?]%isLength_spec. lia.
Qed.

Lemma errorsFor_title body :
  errorsFor "title" (bookValidation body) =
  runChain "title" (Value.sanitized JS.trim (Body.title body))
    [(Validator.notEmpty, "Title is required");
     (Validator.isLength 1 200,
      "Title must be between 1 and 200 characters")].
Proof.
  unfold bookValidation. cbv zeta.
  rewrite !errorsFor_app, !errorsFor_runChain.
  repeat case_decide; try done. by rewrite !app_nil_r.
Qed.

Lemma errorsFor_author body :
  errorsFor "author" (bookValidation body) =
  runChain "author" (Value.sanitized JS.trim (Body.author body))
    [(Validator.notEmpty, "Author is required");
     (Validator.isLength 1 100,
      "Author must be between 1 and 100 characters")].
Proof.
  unfold bookValidation. cbv zeta.
  rewrite !errorsFor_app, !errorsFor_runChain.
  repeat case_decide; try done. by rewrite !app_nil_r.
Qed.

Lemma errorsFor_genre body :
  errorsFor "genre" (bookValidation body) =
  runChain "genre" (Value.sanitized JS.trim (Body.genre body))
    [(Validator.notEmpty, "Genre is required");
     (Validator.isIn genres, "Invalid genre")].
Proof.
  unfold bookValidation. cbv zeta.
  rewrite !errorsFor_app, !errorsFor_runChain.
  repeat case_decide; try done. by rewrite !app_nil_r.
Qed.

Lemma errorsFor_description body :
  errorsFor "description" (bookValidation body) =
  runChain "description" (Value.sanitized JS.trim (Body.description body))
    [(Validator.notEmpty, "Description is required");
     (Validator.isLength 1 1000,
      "Description must be between 1 and 1000 characters")].
Proof.
  unfold bookValidation. cbv zeta.
  rewrite !errorsFor_app, !errorsFor_runChain.
  repeat case_decide; try done.
Qed.

Lemma length_elements field (r : Rule) xs :
  (length (flat_map (λ x, if r.1 x then []
                          else [{| path := field; msg := r.2 |}]) xs)
   ≤ length xs)%nat.
Proof.
  induction xs as [|x xs IH]; simpl; [done|].
  rewrite length_app. destruct (r.1 x); simpl; lia.
Qed.

Lemma length_runChain field v rules :
  (length (runChain field v rules) ≤
   length rules * length (Value.elements v))%nat.
Proof.
  unfold runChain. induction rules as [|r rules IH]; simpl; [done|].
  rewrite length_app.
  pose proof (length_elements field r (Value.elements v)). lia.
Qed.

Lemma length_runChain_two field v (r1 r2 : Rule) f :
  (length (runChain field (Value.sanitized f v) [r1; r2]) ≤
   2 * length (Value.elements v))%nat.
Proof.
  pose proof (length_runChain field (Value.sanitized f v) [r1; r2]) as H.
  rewrite elements_sanitized, length_fmap in H. exact H.
Qed.

Lemma length_runChain_one field v (r : Rule) :
  (length (runChain field v [r]) ≤ length (Value.elements v))%nat.
Proof.
  pose proof (length_runChain field v [r]) as H.
  change (length (runChain field v [r]) ≤
          1 * length (Value.elements v))%nat in H. lia.
Qed.

(** X16: a text field that is blank (missing, empty or white space
    only) is reported twice, as required and as out of its length range,
    and a blank genre as required and as invalid; a text field that is
    too long is reported once, as out of range.  No validator reports
    more often than the field has elements, so a payload without arrays
    gets at most nine entries. *)
Theorem blank_fields_are_reported_twice body :
  (∀ w, Body.title body = Text w → whiteSpaceOnly w →
     errorsFor "title" (bookValidation body) =
     [{| path := "title"; msg := "Title is required" |};
      {| path := "title";
         msg := "Title must be between 1 and 200 characters" |}]) ∧
  (∀ w, Body.author body = Text w → whiteSpaceOnly w →
     errorsFor "author" (bookValidation body) =
     [{| path := "author"; msg := "Author is required" |};
      {| path := "author";
         msg := "Author must be between 1 and 100 characters" |}]) ∧
  (∀ w, Body.description body = Text w → whiteSpaceOnly w →
     errorsFor "description" (bookValidation body) =
     [{| path := "description"; msg := "Description is required" |};
      {| path := "description";
         msg := "Description must be between 1 and 1000 characters" |}]) ∧
  (∀ w, Body.genre body = Text w → whiteSpaceOnly w →
     errorsFor "genre" (bookValidation body) =
     [{| path := "genre"; msg := "Genre is required" |};
      {| path := "genre"; msg := "Invalid genre" |}]) ∧
  (∀ v, Body.title body = Text v →
     (200 < String.length (JS.trim v))%nat →
     errorsFor "title" (bookValidation body) =
     [{| path := "title";
         msg := "Title must be between 1 and 200 characters" |}]) ∧
  (∀ v, Body.author body = Text v →
     (100 < String.length (JS.trim v))%nat →
     errorsFor "author" (bookValidation body) =
     [{| path := "author";
         msg := "Author must be between 1 and 100 characters" |}]) ∧
  (∀ v, Body.description body = Text v →
     (1000 < String.length (JS.trim v))%nat →
     errorsFor "description" (bookValidation body) =
     [{| path := "description";
         msg := "Description must be between 1 and 1000 characters" |}]) ∧
  (length (bookValidation body) ≤
   2 * length (Value.elements (Body.title body)) +
   2 * length (Value.elements (Body.author body)) +
   2 * length (Value.elements (Body.genre body)) +
   length (Value.elements (Body.publicationYear body)) +
   2 * length (Value.elements (Body.description body)))%nat ∧
  (∀ title author genre description year,
     textFields body title author genre description →
     Body.publicationYear body = Text year →
     (length (bookValidation body) ≤ 9)%nat).
Proof.
  assert (length (bookValidation body) ≤
          2 * length (Value.elements (Body.title body)) +
          2 * length (Value.elements (Body.author body)) +
          2 * length (Value.elements (Body.genre body)) +
          length (Value.elements (Body.publicationYear body)) +
          2 * length (Value.elements (Body.description body)))%nat as Hlen.
  { unfold bookValidation. cbv zeta. rewrite !length_app.
    unfold sanitize.
    cbn [Body.title Body.author Body.genre Body.publicationYear
         Body.description].
    pose proof (length_runChain_two "title" (Body.title body)) as H1.
    pose proof (length_runChain_two "author" (Body.author body)) as H2.
    pose proof (length_runChain_two "genre" (Body.genre body)) as H3.
    pose proof (length_runChain_one "publicationYear"
      (Body.publicationYear body)) as H4.
    pose proof (length_runChain_two "description"
      (Body.description body)) as H5.
    match goal with
    | |- (length (runChain _ _ [?a1; ?a2]) +
          (length (runChain _ _ [?b1; ?b2]) +
           (length (runChain _ _ [?c1; ?c2]) +
            (length (runChain _ _ [?d1]) +
             length (runChain _ _ [?e1; ?e2])))) ≤ _)%nat =>
        specialize (H1 a1 a2 JS.trim); specialize (H2 b1 b2 JS.trim);
        specialize (H3 c1 c2 JS.trim); specialize (H4 d1);
        specialize (H5 e1 e2 JS.trim)
    end.
    assert (∀ a b c d e A B C D E : nat,
      (a ≤ A → b ≤ B → c ≤ C → d ≤ D → e ≤ E →
       a + (b + (c + (d + e))) ≤ A + B + C + D + E)%nat) as Hsum
      by (intros; lia).
    apply Hsum; [exact H1|exact H2|exact H3|exact H4|exact H5]. }
  unfold whiteSpaceOnly. split_and!.
  - intros w E H. rewrite errorsFor_title, E. by apply text_chain_blank.
  - intros w E H. rewrite errorsFor_author, E. by apply text_chain_blank.
  - intros w E H. rewrite errorsFor_description, E. by apply text_chain_blank.
  - intros w E H. rewrite errorsFor_genre, E. simpl. rewrite H. reflexivity.
  - intros v E H. rewrite errorsFor_title, E. by apply text_chain_too_long.
  - intros v E H. rewrite errorsFor_author, E. by apply text_chain_too_long.
  - intros v E H. rewrite errorsFor_description, E.
    by apply text_chain_too_long.
  - exact Hlen.
  - intros title author genre description year (Et & Ea & Eg & Ed) Ey.
    rewrite Et, Ea, Eg, Ey, Ed in Hlen. simpl in Hlen. lia.
Qed.

(** ** Counting records *)

Lemma handle_size r s :
  (length (books (handle r s).2) + one (removedOne r (handle r s).1) =
   length (books s) + one (bool_decide (is_Some (createdId (handle r s).1))))%nat ∧
  nextId s +
    Z.of_nat (one (bool_decide (is_Some (createdId (handle r s).1))))
  ≤ nextId (handle r s).2
  ≤ nextId s +
    Z.of_nat (one (bool_decide (is_Some (createdId (handle r s).1)))) +
    Z.of_nat (one (crashedCreate r (handle r s).1)).
Proof.
  destruct r as [| |id|body|id body|id|query]; cbn [handle].
  - simpl. split; lia.
  - simpl. split; lia.
  - destruct (getBook_cases id s) as [[-> _]|(? & ? & _ & ->)];
      simpl; split; lia.
  - destruct (handleValidationErrors_cases body
      (createBook (sanitize body)) s) as [-> | ->];
      [|simpl; split; lia].
    destruct (createBook_cases (sanitize body) s)
      as [[-> _]|[[-> _]|[[-> _]|(t & a & g & d & _ & -> & _)]]];
      [simpl; split; lia..|].
    cbn [fst snd books nextId removedOne one]. rewrite length_app.
    simpl. split; lia.
  - destruct (handleValidationErrors_cases body
      (updateBook id (sanitize body)) s) as [-> | ->];
      [|simpl; split; lia].
    destruct (updateBook_cases id (sanitize body) s)
      as [[-> _]|(? & ? & _ &
            [[-> _]|[[-> _]|(t & a & g & d & _ & -> & _)]])];
      [simpl; split; lia..|].
    cbn [fst snd books nextId removedOne one]. rewrite length_insert.
    simpl. split; lia.
  - destruct (deleteBook_cases id s) as [[-> _]|(k & b & Hfind & ->)];
      [simpl; split; lia|].
    apply list_find_Some in Hfind as (Hk & _ & _).
    cbn [fst snd books nextId removedOne success ok one].
    rewrite length_delete by eauto.
    pose proof (lookup_lt_Some _ _ _ Hk). simpl. split; lia.
  - rewrite searchBooks_state. unfold searchBooks. cbv zeta.
    destruct (JS.isEmpty _); simpl; split; lia.
Qed.

Lemma creations_cons resp resps :
  creations (resp :: resps) =
  (one (bool_decide (is_Some (createdId resp))) + creations resps)%nat.
Proof.
  unfold creations. cbn [omap list_omap].
  by destruct (createdId resp).
Qed.

Lemma removals_cons r rs resp resps :
  removals (r :: rs) (resp :: resps) =
  (one (removedOne r resp) + removals rs resps)%nat.
Proof.
  unfold removals. cbn [zip zip_with]. rewrite filter_cons. cbn [fst snd].
  case_decide as H; [by rewrite H|].
  by apply not_true_is_false in H as ->.
Qed.

Lemma crashes_cons r rs resp resps :
  crashes (r :: rs) (resp :: resps) =
  (one (crashedCreate r resp) + crashes rs resps)%nat.
Proof.
  unfold crashes. cbn [zip zip_with]. rewrite filter_cons. cbn [fst snd].
  case_decide as H; [by rewrite H|].
  by apply not_true_is_false in H as ->.
Qed.

Lemma run_size rs s :
  (length (books (run rs s).2) + removals rs (run rs s).1 =
   length (books s) + creations (run rs s).1)%nat ∧
  nextId s + Z.of_nat (creations (run rs s).1)
  ≤ nextId (run rs s).2
  ≤ nextId s + Z.of_nat (creations (run rs s).1) +
    Z.of_nat (crashes rs (run rs s).1).
Proof.
  revert s. induction rs as [|r rs IH]; intros s.
  - simpl. unfold creations, removals, crashes. simpl. split; lia.
  - rewrite run_cons. cbn [fst snd].
    rewrite creations_cons, removals_cons, crashes_cons.
    destruct (IH (handle r s).2) as [Hlen Hnext].
    destruct (handle_size r s) as [Hlen1 Hnext1]. split; lia.
Qed.

(** X17: along any run from the seed, the number of live records is 3
    plus the creates answered 201 minus the deletes answered 200; the id
    counter is at least 4 plus the number of those creates and exceeds it
    by no more than the number of creates answered 500, each of which may
    have used up an id; so it is exactly 4 plus the creates answered 201
    when no create was answered 500. *)
Theorem store_size_accounting rs :
  (length (books (run rs initial).2) + removals rs (run rs initial).1 =
   3 + creations (run rs initial).1)%nat ∧
  4 + Z.of_nat (creations (run rs initial).1)
  ≤ nextId (run rs initial).2
  ≤ 4 + Z.of_nat (creations (run rs initial).1) +
    Z.of_nat (crashes rs (run rs initial).1) ∧
  (crashes rs (run rs initial).1 = 0%nat →
   nextId (run rs initial).2 = 4 + Z.of_nat (creations (run rs initial).1)).
Proof.
  destruct (run_size rs initial) as [Hlen Hnext].
  split; [exact Hlen|]. split; [exact Hnext|].
  intros Hnone. rewrite Hnone in Hnext. simpl in Hnext. simpl. lia.
Qed.

(** ** Undoing a create, and renaming *)

(** X19: in a reachable store, a create answered 201 followed by a
    delete on the returned id gives back the list of books as it was
    before the create, in the same order; only the id counter stays
    advanced, so that id is not handed out again. *)
Theorem create_then_delete_restores_books rs body id r1 s1 created :
  handle (PostBook body) (run rs initial).2 = (r1, s1) →
  status r1 = 201%nat → data r1 = OneBook created →
  JS.parseInt id = Some (Book.id created) →
  ∃ s2,
    handle (DeleteBook id) s1 =
      (ok (Some "Book deleted successfully") (OneBook created), s2) ∧
    books s2 = books (run rs initial).2 ∧
    nextId s2 = nextId (run rs initial).2 + 1.
Proof.
  intros Hpost Hstatus Hdata Hid.
  pose proof (wellFormed_run rs initial wellFormed_initial) as Hwf.
  pose proof (wellFormed_handle (PostBook body) _ Hwf) as Hwf1.
  rewrite Hpost in Hwf1. cbn [snd] in Hwf1. destruct Hwf1 as (Hids & _).
  destruct (handle_post_created _ _ _ _ Hpost Hstatus)
    as (t & a & g & d & _ & _ & Hnew & Hs1 & _).
  rewrite Hdata in Hnew. injection Hnew as Hcreated.
  assert (books s1 !! length (books (run rs initial).2) = Some created)
    as Hlast.
  { rewrite Hs1, Hcreated. cbn [books]. by apply list_lookup_middle. }
  cbn [handle].
  destruct (deleteBook_cases id s1) as [[_ Hnone]|(i & b & Hfind & ->)].
  { destruct (Hnone created (list_elem_of_lookup_2 _ _ _ Hlast)). done. }
  apply list_find_Some in Hfind as (Hi & Hb & _). unfold hasId in Hb.
  assert (i = length (books (run rs initial).2)) as ->
    by (eapply Hids; [done..|congruence]).
  assert (b = created) as -> by congruence.
  eexists. split; [done|]. rewrite Hs1. cbn [books nextId].
  split; [|done].
  rewrite delete_take_drop, take_app_length, drop_app_ge by lia.
  replace (S (length (books (run rs initial).2)) -
           length (books (run rs initial).2))%nat with 1%nat by lia.
  simpl. by rewrite app_nil_r.
Qed.

(** X20: a successful update that gives a record of a reachable store
    another title or author frees the pair it had: a valid create with
    the old pair, in any letter case, and with strings as its four text
    fields, right after the update is answered 201 and appends the
    record. *)
Theorem update_frees_old_title_and_author rs id body r1 s1 old body'
    title author genre description title' author' genre' description' :
  findBookById (books (run rs initial).2) id = Some old →
  handle (PutBook id body) (run rs initial).2 = (r1, s1) →
  status r1 = 200%nat →
  textFields body title author genre description →
  ¬ sameTitleAuthor (JS.trim title) (JS.trim author) old →
  bookValidation body' = [] →
  textFields body' title' author' genre' description' →
  sameTitleAuthor (JS.trim title') (JS.trim author') old →
  ∃ r2 s2 created,
    handle (PostBook body') s1 = (r2, s2) ∧ status r2 = 201%nat ∧
    data r2 = OneBook created ∧
    Book.title created = JS.trim title' ∧
    Book.author created = JS.trim author' ∧
    books s2 = books s1 ++ [created].
Proof.
  intros [k Hfind]%findBookById_Some Hput Hstatus Hf Hrenamed Hvalid' Hf' Hold.
  pose proof (wellFormed_run rs initial wellFormed_initial)
    as (_ & Hkeys & _).
  destruct (handle_put_updated _ _ _ _ _ Hput Hstatus)
    as (i & current & t & a & g & d & Hfind' & (Et & Ea & _) & _ & _ & Hs1).
  rewrite Hfind in Hfind'. injection Hfind' as <- <-.
  destruct Hf as (Etitle & Eauthor & _).
  rewrite Etitle in Et. rewrite Eauthor in Ea.
  injection Et as <-. injection Ea as <-.
  apply list_find_Some in Hfind as (Hk & _ & _).
  destruct (handle_post_text body' s1 _ _ _ _ Hvalid' Hf') as [_ Hnew].
  rewrite Hnew.
  - by eexists _, _, _.
  - intros other Hin Hother.
    apply sameTitleAuthor_key in Hold, Hother.
    rewrite Hs1 in Hin. cbn [books] in Hin.
    apply list_elem_of_lookup_1 in Hin as [j Hj].
    apply list_lookup_insert_Some in Hj as [(_ & <- & _)|[Hne Hj]].
    + destruct Hrenamed. apply sameTitleAuthor_key. rewrite Hold, <- Hother.
      done.
    + destruct Hne. symmetry. eapply Hkeys; [done..|congruence].
Qed.
End Server.


(** ** The theorems at concrete inputs *)

Lemma ticking_monotone : monotone ticking.
Proof. intros i j Hij. unfold ticking. lia. Qed.



Lemma store_invariants_witness :
  monotone ticking ∧
  timestampsOrdered
    (books (run 2026 ticking
              [PostBook dune; PutBook "4" dune; DeleteBook "2"]
              (initial ticking)).2).
Proof.
  assert (monotone ticking) as H by (intros i j Hij; unfold ticking; lia).
  split; [exact H|].
  exact (proj2 (proj2 (store_invariants 2026 ticking
           [PostBook dune; PutBook "4" dune; DeleteBook "2"])) H).
Defined.




Lemma search_returns_matching_records_in_order_witness :
  JS.trim (JS.toLowerCase " JAZZ ") ≠ EmptyString ∧
  ∃ results,
    handle 2026 ticking (SearchBooks " JAZZ ") (initial ticking) =
      (ok None (SearchHits results (length results) " JAZZ "),
       initial ticking) ∧
    (∀ book, book ∈ results ↔
       book ∈ books (initial ticking) ∧ containsQuery "jazz" book) ∧
    results `sublist_of` books (initial ticking) ∧
    (distinctIds (books (initial ticking)) → distinctIds results) ∧
    ((∀ book, book ∈ books (initial ticking) →
        ¬ containsQuery "jazz" book) →
     results = [] ∧ length results = 0%nat).
Proof.
  assert (JS.trim (JS.toLowerCase " JAZZ ") ≠ EmptyString) as Hne
    by (vm_compute; discriminate).
  split; [exact Hne|].
  exact (proj2 (search_returns_matching_records_in_order 2026 ticking
                  " JAZZ " (initial ticking)) Hne).
Defined.


Lemma delete_removes_exactly_that_record_witness :
  (∃ book, book ∈ books (initial ticking) ∧ hasId (JS.parseInt "2") book) ∧
  ∃ book l1 l2 r s',
    hasId (JS.parseInt "2") book ∧
    books (initial ticking) = l1 ++ book :: l2 ∧
    handle 2026 ticking (DeleteBook "2") (initial ticking) = (r, s') ∧
    status r = 200%nat ∧ data r = OneBook book ∧
    books s' = l1 ++ l2.
Proof.
  assert (∃ book, book ∈ books (initial ticking) ∧
                  hasId (JS.parseInt "2") book) as Hex.
  { eexists. split.
    - simpl. apply elem_of_cons. right. apply elem_of_cons. left. reflexivity.
    - reflexivity. }
  split; [exact Hex|].
  exact (proj1 (delete_removes_exactly_that_record 2026 ticking "2"
                  (initial ticking)) Hex).
Defined.


Lemma id_segment_read_by_parseInt_witness :
  JS.parseInt "abc" = None ∧
  handle 2026 ticking (GetBook "abc") (initial ticking) =
    (notFound, initial ticking) ∧
  handle 2026 ticking (DeleteBook "abc") (initial ticking) =
    (notFound, initial ticking) ∧
  JS.parseInt "2abc" = Some 2 ∧
  handle 2026 ticking (GetBook "2abc") (initial ticking) =
  handle 2026 ticking (GetBook "2") (initial ticking).
Proof.
  assert (JS.parseInt "abc" = None) as Hnan by reflexivity.
  destruct (id_segment_read_by_parseInt 2026 ticking "abc" (initial ticking))
    as (H1 & _ & _).
  destruct (H1 Hnan) as (Hget & Hdel & _).
  destruct (id_segment_read_by_parseInt 2026 ticking "2abc"
              (initial ticking)) as (_ & _ & H3).
  destruct (H3 "2" "abc" (Decimal.D2 Decimal.Nil) eq_refl eq_refl eq_refl)
    as (Hid & _ & Hsame & _).
  { by intros [[=] _]. }
  split_and!; [exact Hnan|exact Hget|exact Hdel|exact Hid|exact Hsame].
Defined.

(** ** Where the code departs from the specification *)

(** C1: with a clock that is set back between the two readings of a
    create (an adjustment of the system time), the created record has a
    createdAt later than its updatedAt. *)
Lemma clock_set_back_counterexample :
  ¬ monotone setBack ∧
  ∃ book,
    book ∈ books (run 2026 setBack [PostBook dune] (initial setBack)).2 ∧
    Book.id book = 4 ∧
    Book.createdAt book = 1008 ∧ Book.updatedAt book = 9 ∧
    ¬ Book.createdAt book ≤ Book.updatedAt book ∧
    ¬ timestampsOrdered
        (books (run 2026 setBack [PostBook dune] (initial setBack)).2).
Proof.
  assert (books (run 2026 setBack [PostBook dune] (initial setBack)).2
            !! 3%nat =
          Some {| Book.id := 4;
                  Book.title := "Dune";
                  Book.author := "Frank Herbert";
                  Book.genre := "Science Fiction";
                  Book.publicationYear := Some 1965;
                  Book.description :=
                    "Politics and ecology on a desert planet.";
                  Book.createdAt := 1008;
                  Book.updatedAt := 9 |}) as H
    by (vm_compute; reflexivity).
  split.
  - intros Hmono. specialize (Hmono 8%nat 9%nat). vm_compute in Hmono.
    by apply Hmono; [lia|].
  - eexists. split; [exact (list_elem_of_lookup_2 _ _ _ H)|].
    split_and!; try reflexivity.
    + simpl. lia.
    + intros Hord. specialize (Hord _ (list_elem_of_lookup_2 _ _ _ H)).
      simpl in Hord. lia.
Qed.






(** C10: the segment "+1" does not start with a digit, yet a get on the
    seed state answers 200 with record 1; the segment "0x3" has the
    numeric prefix 0 followed by other characters, yet the record served
    is 3 and not the (absent) record 0; and an update whose segment is
    "abc" is answered 400, not 404, when its payload is invalid. *)
Lemma id_segment_counterexample :
  (Validator.isDigit "+" = false ∧
   ∃ book,
     handle 2026 ticking (GetBook "+1") (initial ticking) =
       (ok None (OneBook book), initial ticking) ∧
     Book.id book = 1) ∧
  (∃ book,
     handle 2026 ticking (GetBook "0x3") (initial ticking) =
       (ok None (OneBook book), initial ticking) ∧
     Book.id book = 3 ∧
     handle 2026 ticking (GetBook "0") (initial ticking) =
       (notFound, initial ticking)) ∧
  status (handle 2026 ticking (PutBook "abc" blank) (initial ticking)).1
    = 400%nat.
Proof.
  split_and!.
  - reflexivity.
  - eexists. split; [vm_compute; reflexivity|reflexivity].
  - eexists. split; [vm_compute; reflexivity|].
    split; [reflexivity|vm_compute; reflexivity].
  - vm_compute. reflexivity.
Qed.

(** ** The further theorems at concrete inputs *)

Lemma dune_created :
  books (run 2026 ticking [PostBook dune] (initial ticking)).2 !! 3%nat =
  Some (duneBook 8 9).
Proof. vm_compute. reflexivity. Defined.

Lemma stored_records_are_valid_witness :
  1960 ≤ 2026 ∧
  (∀ r, r ∈ [PostBook dune] → ¬ emptyYear r) ∧
  duneBook 8 9 ∈
    books (run 2026 ticking [PostBook dune] (initial ticking)).2 ∧
  validRecord 2026 (duneBook 8 9).
Proof.
  assert (∀ r, r ∈ [PostBook dune] → ¬ emptyYear r) as Hyes.
  { intros r ->%list_elem_of_singleton. simpl. discriminate. }
  pose proof (list_elem_of_lookup_2 _ _ _ dune_created) as Hin.
  split; [lia|]. split; [exact Hyes|]. split; [exact Hin|].
  apply (proj2 (proj2 (proj2 (stored_records_are_valid 2026 ticking
                   [PostBook dune] (duneBook 8 9) Hin)) Hyes)).
  lia.
Defined.

(** A create whose publicationYear is the empty array passes validation
    and stores a record whose year is NaN. *)
Lemma empty_year_array_stores_NaN :
  bookValidation 2026 duneNoYear = [] ∧
  emptyYear (PostBook duneNoYear) ∧
  ∃ book,
    books (run 2026 ticking [PostBook duneNoYear] (initial ticking)).2
      !! 3%nat = Some book ∧
    Book.publicationYear book = None.
Proof.
  split; [vm_compute; reflexivity|]. split; [reflexivity|].
  eexists. split; [vm_compute; reflexivity|reflexivity].
Qed.

Lemma createdAt_is_immutable_witness :
  monotone ticking ∧
  ∃ book book',
    book ∈ books (run 2026 ticking [PostBook dune] (initial ticking)).2 ∧
    book' ∈ books (run 2026 ticking [PutBook "4" dune]
                     (run 2026 ticking [PostBook dune]
                        (initial ticking)).2).2 ∧
    Book.id book' = Book.id book ∧
    Book.createdAt book' = Book.createdAt book ∧
    Book.updatedAt book ≤ Book.updatedAt book'.
Proof.
  split; [exact ticking_monotone|]. eexists _, _.
  assert (∀ book book',
    book ∈ books (run 2026 ticking [PostBook dune] (initial ticking)).2 →
    book' ∈ books (run 2026 ticking [PutBook "4" dune]
                     (run 2026 ticking [PostBook dune]
                        (initial ticking)).2).2 →
    Book.id book' = Book.id book →
    Book.createdAt book' = Book.createdAt book ∧
    Book.updatedAt book ≤ Book.updatedAt book') as H.
  { intros book book' Hin Hin' Hid.
    destruct (createdAt_is_immutable 2026 ticking [PostBook dune]
                [PutBook "4" dune] book book' Hin Hin' Hid)
      as (Hc & _ & Hu).
    split; [exact Hc|exact (Hu ticking_monotone)]. }
  assert (books (run 2026 ticking [PutBook "4" dune]
                   (run 2026 ticking [PostBook dune]
                      (initial ticking)).2).2
            !! 3%nat = Some (duneBook 8 10)) as H2
    by (vm_compute; reflexivity).
  split; [exact (list_elem_of_lookup_2 _ _ _ dune_created)|].
  split; [exact (list_elem_of_lookup_2 _ _ _ H2)|].
  split; [reflexivity|].
  exact (H _ _ (list_elem_of_lookup_2 _ _ _ dune_created)
           (list_elem_of_lookup_2 _ _ _ H2) eq_refl).
Defined.

Lemma failures_keep_the_books_witness :
  success (handle 2026 ticking (PostBook duneAuthors) (initial ticking)).1
    = false ∧
  books (handle 2026 ticking (PostBook duneAuthors) (initial ticking)).2
    = books (initial ticking) ∧
  nextId (handle 2026 ticking (PostBook duneAuthors) (initial ticking)).2
    = 5 ∧
  success (handle 2026 ticking (DeleteBook "99") (initial ticking)).1
    = false ∧
  status (handle 2026 ticking (DeleteBook "99") (initial ticking)).1
    ≠ 500%nat ∧
  (handle 2026 ticking (DeleteBook "99") (initial ticking)).2
    = initial ticking.
Proof.
  assert (success
    (handle 2026 ticking (PostBook duneAuthors) (initial ticking)).1
    = false) as H1 by (vm_compute; reflexivity).
  assert (success
    (handle 2026 ticking (DeleteBook "99") (initial ticking)).1 = false)
    as H2 by (vm_compute; reflexivity).
  assert (status
    (handle 2026 ticking (DeleteBook "99") (initial ticking)).1 ≠ 500%nat)
    as H3 by (vm_compute; discriminate).
  split; [exact H1|].
  split; [exact (proj1 (proj1 (failures_keep_the_books 2026 ticking
                   (PostBook duneAuthors) (initial ticking)) H1))|].
  split; [vm_compute; reflexivity|].
  split; [exact H2|]. split; [exact H3|].
  exact (proj1 (proj2 (failures_keep_the_books 2026 ticking
                  (DeleteBook "99") (initial ticking))) H2 H3).
Defined.


Lemma client_shows_server_message_witness :
  success (handle 2026 ticking (GetBook "99") (initial ticking)).1
    = false ∧
  ∃ m,
    message (handle 2026 ticking (GetBook "99") (initial ticking)).1
      = Some m ∧
    handleResponse
      (handle 2026 ticking (GetBook "99") (initial ticking)).1
      = inl {| Error.name := "Error"; Error.message := m |} ∧
    handleAPIError {| Error.name := "Error"; Error.message := m |}
      = {| ErrorResult.success := false; ErrorResult.error := m |}.
Proof.
  assert (success
    (handle 2026 ticking (GetBook "99") (initial ticking)).1 = false)
    as H by (vm_compute; reflexivity).
  split; [exact H|].
  exact (proj1 (proj2 (client_shows_server_message 2026 ticking
                  (GetBook "99") (initial ticking))) H).
Defined.

Lemma get_returns_every_live_record_witness :
  duneBook 8 9 ∈
    books (run 2026 ticking [PostBook dune] (initial ticking)).2 ∧
  JS.parseInt "4" = Some (Book.id (duneBook 8 9)) ∧
  handle 2026 ticking (GetBook "4")
    (run 2026 ticking [PostBook dune] (initial ticking)).2 =
  (ok None (OneBook (duneBook 8 9)),
   (run 2026 ticking [PostBook dune] (initial ticking)).2).
Proof.
  split; [exact (list_elem_of_lookup_2 _ _ _ dune_created)|].
  split; [reflexivity|].
  exact (proj1 (get_returns_every_live_record 2026 ticking
                  [PostBook dune] _ "4"
                  (list_elem_of_lookup_2 _ _ _ dune_created) eq_refl)).
Defined.

Lemma delete_frees_title_and_author_witness :
  status (handle 2026 ticking (DeleteBook "1") (initial ticking)).1
    = 200%nat ∧
  bookValidation 2026 gatsby = [] ∧
  textFields gatsby "THE GREAT GATSBY" "f. scott fitzgerald" "Fiction"
    "Revised description." ∧
  ∃ r2 s2 created,
    handle 2026 ticking (PostBook gatsby)
      (handle 2026 ticking (DeleteBook "1") (initial ticking)).2
      = (r2, s2) ∧
    status r2 = 201%nat ∧ data r2 = OneBook created ∧
    1 < Book.id created.
Proof.
  assert (status
    (handle 2026 ticking (DeleteBook "1") (initial ticking)).1 = 200%nat)
    as Hstatus by (vm_compute; reflexivity).
  assert (bookValidation 2026 gatsby = []) as Hvalid
    by (vm_compute; reflexivity).
  assert (textFields gatsby "THE GREAT GATSBY" "f. scott fitzgerald"
            "Fiction" "Revised description.") as Hf
    by (split_and!; reflexivity).
  split; [exact Hstatus|]. split; [exact Hvalid|]. split; [exact Hf|].
  destruct (delete_frees_title_and_author 2026 ticking [] "1" _ _
              gatsbyBook gatsby _ _ _ _
              (surjective_pairing _) Hstatus eq_refl Hvalid Hf)
    as (r2 & s2 & created & Hpost & H201 & Hdata & Hid & _).
  { split; vm_compute; reflexivity. }
  exists r2, s2, created. split; [exact Hpost|].
  split; [exact H201|]. split; [exact Hdata|exact Hid].
Defined.

Lemma repeated_update_only_moves_updatedAt_witness :
  status (handle 2026 ticking (PutBook "1" gatsby) (initial ticking)).1
    = 200%nat ∧
  ∃ first second s2,
    data (handle 2026 ticking (PutBook "1" gatsby) (initial ticking)).1
      = OneBook first ∧
    handle 2026 ticking (PutBook "1" gatsby)
      (handle 2026 ticking (PutBook "1" gatsby) (initial ticking)).2 =
      (ok (Some "Book updated successfully") (OneBook second), s2) ∧
    Book.title second = Book.title first ∧
    Book.createdAt second = Book.createdAt first.
Proof.
  assert (status
    (handle 2026 ticking (PutBook "1" gatsby) (initial ticking)).1
    = 200%nat) as Hstatus by (vm_compute; reflexivity).
  split; [exact Hstatus|].
  destruct (repeated_update_only_moves_updatedAt 2026 ticking [] "1"
              gatsby _ _ (surjective_pairing _) Hstatus)
    as (i & first & second & s2 & Hfirst & _ & Hput & Hsecond & _).
  exists first, second, s2. split; [exact Hfirst|]. split; [exact Hput|].
  rewrite Hsecond. split; reflexivity.
Defined.

Lemma deleted_id_stays_not_found_witness :
  status (handle 2026 ticking (DeleteBook "2") (initial ticking)).1
    = 200%nat ∧
  handle 2026 ticking (DeleteBook "2")
    (run 2026 ticking [PostBook dune]
       (handle 2026 ticking (DeleteBook "2") (initial ticking)).2).2 =
  (notFound,
   (run 2026 ticking [PostBook dune]
      (handle 2026 ticking (DeleteBook "2") (initial ticking)).2).2).
Proof.
  assert (status
    (handle 2026 ticking (DeleteBook "2") (initial ticking)).1 = 200%nat)
    as Hstatus by (vm_compute; reflexivity).
  split; [exact Hstatus|].
  exact (proj1 (deleted_id_stays_not_found 2026 ticking [] "2" _ _
                  [PostBook dune] (surjective_pairing _) Hstatus)).
Defined.

Lemma created_pair_is_taken_witness :
  status (handle 2026 ticking (PostBook dune) (initial ticking)).1
    = 201%nat ∧
  bookValidation 2026 duneAuthors = [] ∧
  Body.title duneAuthors = Text "Dune" ∧
  JS.toLowerCase (JS.trim "Dune") = JS.toLowerCase (JS.trim " Dune ") ∧
  bookValidation 2026 dune = [] ∧
  handle 2026 ticking (PostBook dune)
    (handle 2026 ticking (PostBook dune) (initial ticking)).2 =
  (conflict, (handle 2026 ticking (PostBook dune) (initial ticking)).2).
Proof.
  assert (status
    (handle 2026 ticking (PostBook dune) (initial ticking)).1 = 201%nat)
    as Hstatus by (vm_compute; reflexivity).
  assert (bookValidation 2026 dune = []) as Hvalid
    by (vm_compute; reflexivity).
  split; [exact Hstatus|].
  split; [vm_compute; reflexivity|]. split; [reflexivity|].
  split; [reflexivity|]. split; [exact Hvalid|].
  exact (created_pair_is_taken 2026 ticking dune dune (initial ticking) _ _
           " Dune " "Frank Herbert" " Dune " "Frank Herbert"
           (surjective_pairing _) Hstatus Hvalid
           eq_refl eq_refl eq_refl eq_refl eq_refl eq_refl).
Defined.

Lemma search_rejects_exactly_blank_terms_witness :
  JS.trim "   " = EmptyString ∧
  status (handle 2026 ticking (SearchBooks "   ") (initial ticking)).1
    = 400%nat ∧
  JS.trim " Harper " ≠ EmptyString ∧
  status (handle 2026 ticking (SearchBooks " Harper ") (initial ticking)).1
    = 200%nat ∧
  searchTerm " Harper " = inr "Harper".
Proof.
  assert (JS.trim "   " = EmptyString) as Hblank by reflexivity.
  assert (JS.trim " Harper " ≠ EmptyString) as Hterm
    by (vm_compute; discriminate).
  destruct (search_rejects_exactly_blank_terms 2026 ticking "   "
              (initial ticking)) as [H1 _].
  destruct (search_rejects_exactly_blank_terms 2026 ticking " Harper "
              (initial ticking)) as [_ H2].
  destruct (H1 Hblank) as [H400 _].
  destruct (H2 Hterm) as (H200 & Hsent & _).
  split; [exact Hblank|]. split; [exact H400|]. split; [exact Hterm|].
  split; [exact H200|exact Hsent].
Defined.

Lemma search_ignores_case_and_padding_witness :
  JS.trim (JS.toLowerCase "JAZZ") = JS.trim (JS.toLowerCase " jazz ") ∧
  booksOf (handle 2026 ticking (SearchBooks "JAZZ") (initial ticking)).1 =
  booksOf (handle 2026 ticking (SearchBooks " jazz ") (initial ticking)).1.
Proof.
  assert (JS.trim (JS.toLowerCase "JAZZ") =
          JS.trim (JS.toLowerCase " jazz ")) as H by reflexivity.
  split; [exact H|].
  exact (proj2 (proj1 (search_ignores_case_and_padding 2026 ticking
                  "JAZZ" (initial ticking)) " jazz " H)).
Defined.

Lemma search_finds_record_by_its_own_fields_witness :
  duneBook 8 9 ∈
    books (run 2026 ticking [PostBook dune] (initial ticking)).2 ∧
  duneBook 8 9 ∈ booksOf
    (handle 2026 ticking (SearchBooks "Dune")
       (run 2026 ticking [PostBook dune] (initial ticking)).2).1.
Proof.
  split; [exact (list_elem_of_lookup_2 _ _ _ dune_created)|].
  exact (proj1 (search_finds_record_by_its_own_fields 2026 ticking
                  [PostBook dune] _
                  (list_elem_of_lookup_2 _ _ _ dune_created))).
Defined.

Lemma padding_never_matters_witness :
  paddedValue (Text "Dune") (Text " Dune ") ∧
  handle 2026 ticking (PostBook dune) (initial ticking) =
  handle 2026 ticking
    (PostBook {| Body.title := Text "Dune";
                 Body.author := Body.author dune;
                 Body.genre := Body.genre dune;
                 Body.publicationYear := Body.publicationYear dune;
                 Body.description := Body.description dune |})
    (initial ticking).
Proof.
  assert (∀ v, padded v v) as Hsame.
  { intros v. exists EmptyString, EmptyString.
    split; [reflexivity|]. split; [reflexivity|].
    clear. induction v as [|c v IH]; [reflexivity|].
    change (EmptyString +:+ String c v +:+ EmptyString)
      with (String c (EmptyString +:+ v +:+ EmptyString)).
    by rewrite <- IH. }
  assert (paddedValue (Text "Dune") (Text " Dune ")) as Hpad.
  { exists " ", " ". split; [reflexivity|]. split; reflexivity. }
  split; [exact Hpad|].
  exact (proj1 (padding_never_matters 2026 ticking
    {| Body.title := Text "Dune";
       Body.author := Body.author dune;
       Body.genre := Body.genre dune;
       Body.publicationYear := Body.publicationYear dune;
       Body.description := Body.description dune |}
    dune (initial ticking) Hpad (Hsame _) (Hsame _) (Hsame _) eq_refl)).
Defined.

Lemma blank_fields_are_reported_twice_witness :
  Body.title blank = Text "   " ∧ whiteSpaceOnly "   " ∧
  errorsFor "title" (bookValidation 2026 blank) =
  [{| path := "title"; msg := "Title is required" |};
   {| path := "title";
      msg := "Title must be between 1 and 200 characters" |}].
Proof.
  assert (whiteSpaceOnly "   ") as H by reflexivity.
  split; [reflexivity|]. split; [exact H|].
  exact (proj1 (blank_fields_are_reported_twice 2026 blank)
           "   " eq_refl H).
Defined.

Lemma store_size_accounting_witness :
  crashes [PostBook dune; DeleteBook "2"]
    (run 2026 ticking [PostBook dune; DeleteBook "2"] (initial ticking)).1
    = 0%nat ∧
  nextId
    (run 2026 ticking [PostBook dune; DeleteBook "2"] (initial ticking)).2
    = 4 + Z.of_nat
          (creations
             (run 2026 ticking [PostBook dune; DeleteBook "2"]
                (initial ticking)).1).
Proof.
  assert (crashes [PostBook dune; DeleteBook "2"]
    (run 2026 ticking [PostBook dune; DeleteBook "2"] (initial ticking)).1
    = 0%nat) as H by (vm_compute; reflexivity).
  split; [exact H|].
  exact (proj2 (proj2 (store_size_accounting 2026 ticking
                  [PostBook dune; DeleteBook "2"])) H).
Defined.

Lemma create_then_delete_restores_books_witness :
  status (handle 2026 ticking (PostBook dune) (initial ticking)).1
    = 201%nat ∧
  ∃ s2,
    data (handle 2026 ticking (PostBook dune) (initial ticking)).1
      = OneBook (duneBook 8 9) ∧
    JS.parseInt "4" = Some (Book.id (duneBook 8 9)) ∧
    handle 2026 ticking (DeleteBook "4")
      (handle 2026 ticking (PostBook dune) (initial ticking)).2 =
      (ok (Some "Book deleted successfully") (OneBook (duneBook 8 9)), s2) ∧
    books s2 = books (initial ticking) ∧
    nextId s2 = 5.
Proof.
  assert (status
    (handle 2026 ticking (PostBook dune) (initial ticking)).1 = 201%nat)
    as Hstatus by (vm_compute; reflexivity).
  split; [exact Hstatus|].
  destruct (create_then_delete_restores_books 2026 ticking [] dune "4"
              _ _ (duneBook 8 9)
              (surjective_pairing _) Hstatus eq_refl eq_refl)
    as (s2 & Hdel & Hbooks & Hnext).
  exists s2.
  split; [reflexivity|]. split; [reflexivity|]. split; [exact Hdel|].
  split; [exact Hbooks|exact Hnext].
Defined.

Lemma update_frees_old_title_and_author_witness :
  status (handle 2026 ticking (PutBook "1" dune) (initial ticking)).1
    = 200%nat ∧
  bookValidation 2026 gatsby = [] ∧
  textFields gatsby "THE GREAT GATSBY" "f. scott fitzgerald" "Fiction"
    "Revised description." ∧
  ∃ r2 s2 created,
    handle 2026 ticking (PostBook gatsby)
      (handle 2026 ticking (PutBook "1" dune) (initial ticking)).2
      = (r2, s2) ∧
    status r2 = 201%nat ∧ data r2 = OneBook created.
Proof.
  assert (status
    (handle 2026 ticking (PutBook "1" dune) (initial ticking)).1 = 200%nat)
    as Hstatus by (vm_compute; reflexivity).
  assert (bookValidation 2026 gatsby = []) as Hvalid
    by (vm_compute; reflexivity).
  assert (textFields gatsby "THE GREAT GATSBY" "f. scott fitzgerald"
            "Fiction" "Revised description.") as Hf
    by (split_and!; reflexivity).
  assert (textFields dune " Dune " "Frank Herbert" "Science Fiction"
            "Politics and ecology on a desert planet.") as Hdune
    by (split_and!; reflexivity).
  split; [exact Hstatus|]. split; [exact Hvalid|]. split; [exact Hf|].
  assert (findBookById (books (run 2026 ticking [] (initial ticking)).2) "1"
          = Some gatsbyBook) as Hfind by (vm_compute; reflexivity).
  assert (¬ sameTitleAuthor (JS.trim " Dune ") (JS.trim "Frank Herbert")
            gatsbyBook) as Hrenamed.
  { intros [Ht _]. vm_compute in Ht. discriminate. }
  assert (sameTitleAuthor (JS.trim "THE GREAT GATSBY")
            (JS.trim "f. scott fitzgerald") gatsbyBook) as Hold
    by (split; vm_compute; reflexivity).
  destruct (update_frees_old_title_and_author 2026 ticking [] "1" dune
           (handle 2026 ticking (PutBook "1" dune) (initial ticking)).1
           (handle 2026 ticking (PutBook "1" dune) (initial ticking)).2
           gatsbyBook gatsby
           " Dune " "Frank Herbert" "Science Fiction"
           "Politics and ecology on a desert planet."
           "THE GREAT GATSBY" "f. scott fitzgerald" "Fiction"
           "Revised description."
           Hfind (surjective_pairing _) Hstatus Hdune Hrenamed Hvalid Hf
           Hold)
    as (r2 & s2 & created & Hpost & H201 & Hdata & _).
  by exists r2, s2, created.
Defined.
